(** * apigrate/dao: the criteria builder and the table gateway

    A shallow embedding of [lib/criteria-helper.js] (class [CriteriaHelper])
    and of [lib/mysql/dao.js] (class [Dao]), with the properties of the
    parameterised SQL they generate. Of the earlier builder in
    [helpers/criteria.js] the [_where] that differs is embedded; of the
    later copy of [Dao] in the repository only [create], for its
    [explicit_pk] option.

    Conventions of the embedding.
    - A JavaScript string is a [string] of 8-bit characters; [toUpperCase]
      maps the letters a..z and leaves every other character alone.
    - A JavaScript number is an integer [Z] (no fractions, NaN or infinities).
      Its text is written in decimal digits, as JavaScript writes the
      integers of magnitude below 10^21; a statement about the text of a
      number carries that bound.
    - A plain object is the list of its own enumerable properties in
      enumeration order.
    - An object the gateway writes to (the entity of [create] and [update],
      the criteria of [deleteMatching]) lives in a heap and is passed by
      reference; objects that are only read are passed as values.
    - An asynchronous operation is a state transformer that ends fulfilled
      or rejected; operations do not interleave. *)

From Stdlib Require Import List String Ascii ZArith Bool Lia DecimalString.
Import ListNotations.

Local Open Scope string_scope.
Local Open Scope list_scope.

Infix "+++" := String.append (right associativity, at level 60).

(** ** JavaScript strings *)

Module JsString.

(** Number of [?] characters, the positional placeholders of mysql. *)
Fixpoint placeholders (s : string) : nat :=
  match s with
  | EmptyString => 0
  | String c r => (if Ascii.eqb c "?" then 1 else 0) + placeholders r
  end.

Definition upper_ascii (c : ascii) : ascii :=
  let n := nat_of_ascii c in
  if (97 <=? n)%nat && (n <=? 122)%nat then ascii_of_nat (n - 32) else c.

(** [String.prototype.toUpperCase] *)
Fixpoint toUpperCase (s : string) : string :=
  match s with
  | EmptyString => EmptyString
  | String c r => String (upper_ascii c) (toUpperCase r)
  end.

(** [String.prototype.startsWith] *)
Definition startsWith (s t : string) : bool := String.prefix t s.

(** [String.prototype.endsWith] *)
Definition endsWith (s t : string) : bool :=
  let n := String.length s in
  let m := String.length t in
  (m <=? n)%nat && String.eqb (String.substring (n - m) m s) t.

(** [String.prototype.includes] *)
Fixpoint includes (s t : string) : bool :=
  String.prefix t s ||
  match s with
  | EmptyString => false
  | String _ r => includes r t
  end.

(** [s.substr(1)] *)
Definition substr1 (s : string) : string :=
  match s with
  | EmptyString => EmptyString
  | String _ r => r
  end.

(** [Array.prototype.join] on an array of strings *)
Fixpoint join (sep : string) (xs : list string) : string :=
  match xs with
  | [] => ""
  | [x] => x
  | x :: rest => x +++ sep +++ join sep rest
  end.

(** Number of occurrences of a character. *)
Fixpoint count_char (c : ascii) (s : string) : nat :=
  match s with
  | EmptyString => 0
  | String x r => (if Ascii.eqb x c then 1 else 0) + count_char c r
  end.

(** The decimal text of an integer, as [String(n)] and [n + ''] give it for
    an integer of magnitude below 10^21 (from there on JavaScript writes an
    exponent). *)
Definition of_Z (n : Z) : string := NilZero.string_of_int (Z.to_int n).

End JsString.
Import JsString.

(** ** JavaScript values *)

#[warning="-register-all"]
Inductive value : Type :=
| VUndefined
| VNull
| VBool (b : bool)
| VNum (n : Z)
| VStr (s : string)
| VArr (items : list value)
| VObj (props : list (string * value)).

Definition obj : Type := list (string * value).

Fixpoint lookup (k : string) (o : obj) : option value :=
  match o with
  | [] => None
  | (k', v) :: rest => if String.eqb k' k then Some v else lookup k rest
  end.

(** [o[k]] on a plain object *)
Definition prop (o : obj) (k : string) : value :=
  match lookup k o with
  | Some v => v
  | None => VUndefined
  end.

(** [o[k] = v]: an existing property keeps its place, a new one goes last. *)
Fixpoint set_prop (o : obj) (k : string) (v : value) : obj :=
  match o with
  | [] => [(k, v)]
  | (k', v') :: rest =>
      if String.eqb k' k then (k, v) :: rest else (k', v') :: set_prop rest k v
  end.

(** ToBoolean *)
Definition truthy (v : value) : bool :=
  match v with
  | VUndefined | VNull => false
  | VBool b => b
  | VNum n => negb (n =? 0)%Z
  | VStr s => negb (String.eqb s "")
  | VArr _ | VObj _ => true
  end.

(** [typeof x === 'undefined' || x === null], lodash's [_.isNil] *)
Definition isNil (v : value) : bool :=
  match v with
  | VUndefined | VNull => true
  | _ => false
  end.

(** ['' + v]: a string as it is, a number in digits, an array as its
    elements joined by commas (undefined and null ones as the empty
    string), a plain object as [[object Object]]. *)
Fixpoint text_of (v : value) : string :=
  match v with
  | VUndefined => "undefined"
  | VNull => "null"
  | VBool true => "true"
  | VBool false => "false"
  | VNum n => of_Z n
  | VStr s => s
  | VArr items =>
      join "," (map (fun x => match x with
                              | VUndefined | VNull => ""
                              | _ => text_of x
                              end) items)
  | VObj _ => "[object Object]"
  end.

(** The numbers of a value are of magnitude below 10^21, where their text
    is in decimal digits. *)
Fixpoint decimal (v : value) : bool :=
  match v with
  | VNum n => (Z.abs n <? 10 ^ 21)%Z
  | VArr items => forallb decimal items
  | _ => true
  end.

(** [v.k] for a [v] that is neither undefined nor null *)
Definition member (v : value) (k : string) : value :=
  match v with
  | VObj o => prop o k
  | VArr xs => if String.eqb k "length" then VNum (Z.of_nat (List.length xs)) else VUndefined
  | VStr s => if String.eqb k "length" then VNum (Z.of_nat (String.length s)) else VUndefined
  | _ => VUndefined
  end.

(** [a && b] where [b] is only looked at when [a] is truthy *)
Definition js_and (a : value) (b : value) : value := if truthy a then b else a.

(** [a || b] *)
Definition js_or (a b : value) : value := if truthy a then a else b.

(** ** lib/criteria-helper.js *)

Module Criteria.

Record CriteriaHelper : Type := mkCriteriaHelper {
  whereClause : string;
  parms : list value;
  queryOptions : obj;
  omitNull : value;
  omitEmpty : value
}.

(** [constructor(opts)] *)
Definition constructor (opts : value) : CriteriaHelper :=
  {| whereClause := "";
     parms := [];
     queryOptions := [];
     omitNull := js_or (js_and opts (member opts "omitIfNull")) (VBool true);
     omitEmpty := js_or (js_and opts (member opts "omitIfEmpty")) (VBool true) |}.

Definition append_clause (this : CriteriaHelper) (text : string) : CriteriaHelper :=
  {| whereClause := whereClause this +++ text;
     parms := parms this;
     queryOptions := queryOptions this;
     omitNull := omitNull this;
     omitEmpty := omitEmpty this |}.

Definition push_parm (this : CriteriaHelper) (v : value) : CriteriaHelper :=
  {| whereClause := whereClause this;
     parms := parms this ++ [v];
     queryOptions := queryOptions this;
     omitNull := omitNull this;
     omitEmpty := omitEmpty this |}.

(** [this.whereClause==='' || this.whereClause.endsWith('(')] *)
Definition fresh (this : CriteriaHelper) : bool :=
  String.eqb (whereClause this) "" || endsWith (whereClause this) "(".

Definition andGroup (this : CriteriaHelper) : CriteriaHelper :=
  if fresh this then append_clause this " (" else append_clause this " AND (".

Definition orGroup (this : CriteriaHelper) : CriteriaHelper :=
  if fresh this then append_clause this " (" else append_clause this " OR (".

Definition groupEnd (this : CriteriaHelper) : CriteriaHelper :=
  append_clause this " ) ".

(** [isEmpty(x)] *)
Definition isEmpty (x : value) : bool :=
  isNil x ||
  match x with
  | VArr _ => false
  | VStr s => (String.length s =? 0)%nat
  | VObj o => match prop o "length" with VNum 0 => true | _ => false end
  | _ => false
  end.

(** [oper==='IS NOT NULL' || oper==='IS NULL'] *)
Definition unary (oper : string) : bool :=
  String.eqb oper "IS NOT NULL" || String.eqb oper "IS NULL".

(** The placeholder that follows a binary operator. *)
Definition placeholder (oper : string) : string :=
  if String.eqb oper "LIKE" then " ?"
  else if includes oper "IN" then "(?)"
  else "?".

(** [_where(bool, name, oper, value)] *)
Definition _where (bool name oper : string) (v : value)
    (this : CriteriaHelper) : CriteriaHelper :=
  let oper := toUpperCase oper in
  if negb (unary oper) &&
     ((isNil v && truthy (omitNull this)) || (isEmpty v && truthy (omitEmpty this)))
  then this
  else
    let this1 :=
      if fresh this
      then append_clause this (name +++ " " +++ oper)
      else append_clause this (" " +++ bool +++ " " +++ name +++ " " +++ oper) in
    if unary oper then this1
    else push_parm (append_clause this1 (placeholder oper)) v.

Definition and_ (name oper : string) (v : value) := _where "AND" name oper v.
Definition or_ (name oper : string) (v : value) := _where "OR" name oper v.
Definition where_ (bool name oper : string) (v : value) := _where bool name oper v.

(** [orderBy(columns)] *)
Definition orderBy (columns : value) (this : CriteriaHelper) : CriteriaHelper :=
  if isEmpty columns then this
  else {| whereClause := whereClause this;
          parms := parms this;
          queryOptions := set_prop (queryOptions this) "orderBy" columns;
          omitNull := omitNull this;
          omitEmpty := omitEmpty this |}.

(** A chain of builder calls, [new CriteriaHelper(opts).c1.c2...]. *)
Inductive call : Type :=
| And (name oper : string) (v : value)
| Or (name oper : string) (v : value)
| Where (bool name oper : string) (v : value)
| AndGroup
| OrGroup
| GroupEnd
| OrderBy (columns : value).

Definition apply_call (this : CriteriaHelper) (c : call) : CriteriaHelper :=
  match c with
  | And name oper v => and_ name oper v this
  | Or name oper v => or_ name oper v this
  | Where bool name oper v => where_ bool name oper v this
  | AndGroup => andGroup this
  | OrGroup => orGroup this
  | GroupEnd => groupEnd this
  | OrderBy columns => orderBy columns this
  end.

Definition chain (this : CriteriaHelper) (calls : list call) : CriteriaHelper :=
  fold_left apply_call calls this.

(** The strings a call splices into the SQL text as they are. *)
Definition spliced (c : call) : list string :=
  match c with
  | And name oper _ | Or name oper _ => [name; oper]
  | Where bool name oper _ => [bool; name; oper]
  | _ => []
  end.

(** No column name, operator or connective of the call holds a [?]. *)
Definition plain (c : call) : Prop :=
  Forall (fun s => placeholders s = 0) (spliced c).

(** The clause text without its blanks. *)
Fixpoint without_spaces (s : string) : string :=
  match s with
  | EmptyString => EmptyString
  | String c r => if Ascii.eqb c " " then without_spaces r else String c (without_spaces r)
  end.

(** The value a call binds, when it renders a binary predicate under the
    skip policy (nulls and empties omitted). *)
Definition bound (c : call) : list value :=
  match c with
  | And _ oper v | Or _ oper v | Where _ _ oper v =>
      if unary (toUpperCase oper) || isEmpty v then [] else [v]
  | _ => []
  end.

(** A call the builder drops: a binary clause, or an [orderBy], whose
    argument [isEmpty] takes for empty, that is undefined, null, the empty
    string or another non-array of length 0. An empty array is not empty in
    this sense. *)
Definition skipped (c : call) : bool :=
  match c with
  | And _ oper v | Or _ oper v | Where _ _ oper v =>
      negb (unary (toUpperCase oper)) && isEmpty v
  | OrderBy columns => isEmpty columns
  | _ => false
  end.

(** Groups opened and groups closed by a chain. *)
Definition opens_group (c : call) : nat :=
  match c with
  | AndGroup | OrGroup => 1
  | _ => 0
  end.

Definition closes_group (c : call) : nat :=
  match c with
  | GroupEnd => 1
  | _ => 0
  end.

(** No column name, operator or connective of the call holds a parenthesis. *)
Definition paren_free (c : call) : Prop :=
  Forall (fun s => count_char "(" s = 0 /\ count_char ")" s = 0) (spliced c).

(** An [orderBy] call. *)
Definition is_order (c : call) : bool :=
  match c with
  | OrderBy _ => true
  | _ => false
  end.

(** The argument of the last [orderBy] call of a chain that was not
    dropped, if any. *)
Definition ordering (calls : list call) : option value :=
  fold_left (fun acc c =>
               match c with
               | OrderBy columns => if isEmpty columns then acc else Some columns
               | _ => acc
               end) calls None.

End Criteria.

(** ** helpers/criteria.js: the earlier criteria builder

    The class as it was before groups and IN were added. Its constructor,
    [and], [or], [where], [orderBy] and [isEmpty] read as those of
    [lib/criteria-helper.js]; [_where] differs. *)

Module Criteria0.
Import Criteria.

(** [_where(bool, name, oper, value)] *)
Definition _where (bool name oper : string) (v : value)
    (this : CriteriaHelper) : CriteriaHelper :=
  let oper := toUpperCase oper in
  if negb (unary oper) &&
     ((isNil v && truthy (omitNull this)) || (isEmpty v && truthy (omitEmpty this)))
  then this
  else
    let this1 :=
      if String.eqb (whereClause this) ""
      then append_clause this (name +++ " " +++ oper)
      else append_clause this (" " +++ bool +++ " " +++ name +++ " " +++ oper) in
    if unary oper then this1
    else push_parm (append_clause this1 (if String.eqb oper "LIKE" then " ?" else "?")) v.

(** A call on the earlier class, which has no group methods: calling one
    throws, and the chain ends there. *)
Definition apply_call (this : CriteriaHelper) (c : call) : option CriteriaHelper :=
  match c with
  | And name oper v => Some (_where "AND" name oper v this)
  | Or name oper v => Some (_where "OR" name oper v this)
  | Where bool name oper v => Some (_where bool name oper v this)
  | OrderBy columns => Some (orderBy columns this)
  | AndGroup | OrGroup | GroupEnd => None
  end.

Definition chain (this : CriteriaHelper) (calls : list call) : option CriteriaHelper :=
  fold_left (fun acc c => match acc with Some h => apply_call h c | None => None end)
    calls (Some this).


End Criteria0.

(** ** lib/mysql/dao.js *)

Module Gateway.

(** *** The driver *)

(** The error object the mysql pool hands to the callback. *)
Record driver_error : Type := mkDriverError {
  err_code : string;
  err_message : string
}.

(** What the callback receives on success: the row array of a SELECT or
    SHOW statement, or the acknowledgement of an INSERT, UPDATE or DELETE. *)
Inductive query_result : Type :=
| Rows (rows : list obj)
| OkPacket (affectedRows : Z) (insertId : option Z).

Definition statement : Type := (string * list value)%type.

(** [pool.query(sql, parms, callback)]: the answer may depend on the
    statements the pool has received before. *)
Definition Pool : Type := list statement -> statement -> driver_error + query_result.

(** *** Thrown values *)

Inductive error_kind : Type := Error | TypeError | ReferenceError.

Inductive exn : Type :=
| DriverError (e : driver_error)
| JsError (kind : error_kind) (msg : string).

(** [err.message] *)
Definition message_of (e : exn) : string :=
  match e with
  | DriverError d => err_message d
  | JsError _ m => m
  end.

(** *** The gateway object *)

Record options : Type := mkOptions {
  plural_option : option string;
  created_timestamp_column : option string;
  updated_timestamp_column : option string;
  version_number_column : option string;
  log_category : option string
}.

Definition default_options : options :=
  {| plural_option := None;
     created_timestamp_column := Some "created";
     updated_timestamp_column := Some "updated";
     version_number_column := Some "version";
     log_category := Some "db" |}.

Record column_meta : Type := mkColumn {
  column : string;
  sql_type : string;
  pk : bool;
  nullable : bool;
  default : value;
  autoincrement : bool;
  is_updated_timestamp : bool;
  is_created_timestamp : bool;
  is_updated_version : bool
}.

Record Dao : Type := mkDao {
  pool : Pool;
  table : string;
  entity : string;
  plural : string;
  dao_options : options
}.

(** [entity.substr(0, entity.lastIndexOf(c))] for an [entity] that ends
    with the character [c] *)
Definition drop_last (s : string) : string :=
  String.substring 0 (String.length s - 1) s.

(** [constructor(table, entity, opts, pool)] *)
Definition new_Dao (table entity : string) (opts : option options) (pool : Pool) : Dao :=
  let plural :=
    match opts with
    | Some {| plural_option := Some p |} => p
    | _ =>
        if endsWith entity "ey" then entity +++ "s"
        else if endsWith entity "y" then drop_last entity +++ "ies"
        else if endsWith entity "s" then drop_last entity +++ "es"
        else entity +++ "s"
    end in
  {| pool := pool;
     table := table;
     entity := entity;
     plural := plural;
     dao_options := match opts with Some o => o | None => default_options end |}.

(** *** State and effects *)

(** A reference to an object owned by the caller. *)
Definition ref : Type := nat.

Record state : Type := mkState {
  metadata : option (list column_meta);   (* this.metadata, null at first *)
  heap : list obj;                        (* the caller's objects *)
  issued : list statement;                (* statements handed to the pool *)
  console : list string                   (* console.error lines *)
}.

Definition initial_state (objects : list obj) : state :=
  {| metadata := None; heap := objects; issued := []; console := [] |}.

Inductive outcome (A : Type) : Type :=
| Fulfilled (a : A)
| Rejected (e : exn).
Arguments Fulfilled {A} a.
Arguments Rejected {A} e.

Definition M (A : Type) : Type := state -> outcome A * state.

Definition ret {A} (a : A) : M A := fun st => (Fulfilled a, st).

Definition throw {A} (e : exn) : M A := fun st => (Rejected e, st).

Definition bind {A B} (m : M A) (k : A -> M B) : M B :=
  fun st =>
    match m st with
    | (Fulfilled a, st') => k a st'
    | (Rejected e, st') => (Rejected e, st')
    end.

Notation "x <- m ;; k" := (bind m (fun x => k))
  (at level 61, m at next level, right associativity).
Notation "m ;;; k" := (bind m (fun _ => k))
  (at level 61, right associativity).

(** [try { body } catch (e) { handler(e) }] *)
Definition try_catch {A} (body : M A) (handler : exn -> M A) : M A :=
  fun st =>
    match body st with
    | (Fulfilled a, st') => (Fulfilled a, st')
    | (Rejected e, st') => handler e st'
    end.

(** A synchronous computation that can only throw. *)
Definition lift {A} (r : exn + A) : M A :=
  match r with
  | inl e => throw e
  | inr a => ret a
  end.

Definition console_error (line : string) : M unit :=
  fun st =>
    (Fulfilled tt,
     {| metadata := metadata st; heap := heap st; issued := issued st;
        console := console st ++ [line] |}).

Definition get_metadata : M (option (list column_meta)) :=
  fun st => (Fulfilled (metadata st), st).

Definition set_metadata (cols : list column_meta) : M unit :=
  fun st =>
    (Fulfilled tt,
     {| metadata := Some cols; heap := heap st; issued := issued st;
        console := console st |}).

(** The object behind a reference. *)
Definition deref (r : ref) : M obj :=
  fun st => (Fulfilled (nth r (heap st) []), st).

Fixpoint replace_nth {A} (n : nat) (l : list A) (a : A) : list A :=
  match l, n with
  | [], _ => []
  | _ :: rest, O => a :: rest
  | x :: rest, S n' => x :: replace_nth n' rest a
  end.

(** [r[k] = v] *)
Definition assign (r : ref) (k : string) (v : value) : M unit :=
  fun st =>
    (Fulfilled tt,
     {| metadata := metadata st;
        heap := replace_nth r (heap st) (set_prop (nth r (heap st) []) k v);
        issued := issued st;
        console := console st |}).

(** The catch block every operation ends with:
    [console.error(`${this.entity} <name> error. Details: ${err.message}`); throw err;] *)
Definition log_and_rethrow {A} (dao : Dao) (name : string) (body : M A) : M A :=
  try_catch body (fun err =>
    console_error (entity dao +++ " " +++ name +++ " error. Details: " +++ message_of err) ;;;
    throw err).

(** *** lodash *)

(** The key an iteratee of [_.each] receives: a property name, or an index
    when the collection is array-like. *)
Inductive key : Type :=
| KName (s : string)
| KIndex (i : nat).

(** [k + '...'] *)
Definition key_text (k : key) : string :=
  match k with
  | KName s => s
  | KIndex i => of_Z (Z.of_nat i)
  end.

(** [_.each(o, function(v, k){...})] visits the own properties of a plain
    object, unless the object has a [length] that is a non-negative
    integer: lodash then takes it for array-like and visits the indices
    below [length]. *)
Definition each_entries (o : obj) : list (key * value) :=
  match lookup "length" o with
  | Some (VNum n) =>
      if (0 <=? n)%Z && (n <=? 9007199254740991)%Z
      then map (fun i => (KIndex i, prop o (of_Z (Z.of_nat i)))) (seq 0 (Z.to_nat n))
      else map (fun kv => (KName (fst kv), snd kv)) o
  | _ => map (fun kv => (KName (fst kv), snd kv)) o
  end.

(** [_.each] on an argument that may be undefined or null *)
Definition each_entries_opt (o : option obj) : list (key * value) :=
  match o with
  | Some o => each_entries o
  | None => []
  end.

(** [_.find(cols, {column: k})] *)
Definition find_column (cols : list column_meta) (k : key) : option column_meta :=
  match k with
  | KName s => List.find (fun c => String.eqb (column c) s) cols
  | KIndex _ => None
  end.

(** [_.filter(this.metadata, f)], the empty array when metadata is null *)
Definition filter_metadata (md : option (list column_meta))
    (f : column_meta -> bool) : list column_meta :=
  match md with
  | Some cols => List.filter f cols
  | None => []
  end.

(** [_.isEmpty(criteria)] on undefined, null or a plain object *)
Definition lodash_isEmpty (o : option obj) : bool :=
  match o with
  | None => true
  | Some [] => true
  | Some (_ :: _) => false
  end.

(** [col.column === option] *)
Definition names (o : option string) (c : string) : bool :=
  match o with
  | Some s => String.eqb c s
  | None => false
  end.

(** An option that is set to a non-empty name is truthy. *)
Definition option_truthy (o : option string) : bool :=
  match o with
  | Some s => negb (String.eqb s "")
  | None => false
  end.

Definition option_text (o : option string) : string :=
  match o with
  | Some s => s
  | None => "undefined"
  end.

(** *** Operations *)

(** [sqlCommand(sql, parms)] *)
Definition sqlCommand (dao : Dao) (sql : string) (parms : list value) : M query_result :=
  fun st =>
    let st' := {| metadata := metadata st; heap := heap st;
                  issued := issued st ++ [(sql, parms)];
                  console := console st |} in
    match pool dao (issued st) (sql, parms) with
    | inl err => (Rejected (DriverError err), st')
    | inr result => (Fulfilled result, st')
    end.

(** [item.Field] and the like: mysql reports these columns of SHOW COLUMNS
    as strings; anything else is read as the empty string. *)
Definition str_field (item : obj) (k : string) : string :=
  match lookup k item with
  | Some (VStr s) => s
  | _ => ""
  end.

(** The callback of [results.map] in [fetchMetadata]. *)
Definition column_of_item (o : options) (item : obj) : column_meta :=
  let c := str_field item "Field" in
  {| column := c;
     sql_type := str_field item "Type";
     pk := String.eqb (str_field item "Key") "PRI";
     nullable := String.eqb (str_field item "Null") "YES";
     default := prop item "Default";
     autoincrement := String.eqb (str_field item "Extra") "auto_increment";
     is_updated_timestamp := names (updated_timestamp_column o) c;
     is_created_timestamp := names (created_timestamp_column o) c;
     is_updated_version := names (version_number_column o) c |}.

Definition show_columns (dao : Dao) : string :=
  "SHOW COLUMNS FROM " +++ table dao +++ ";".

(** [fetchMetadata()]: the value it resolves with is undefined ([None])
    after a load and after a caught error, the cached metadata otherwise. *)
Definition fetchMetadata (dao : Dao) : M (option (list column_meta)) :=
  try_catch
    (md <- get_metadata ;;
     match md with
     | None =>
         results <- sqlCommand dao (show_columns dao) [] ;;
         match results with
         | Rows items =>
             set_metadata (map (column_of_item (dao_options dao)) items) ;;;
             ret None
         | OkPacket _ _ => throw (JsError TypeError "results.map is not a function")
         end
     | Some cols => ret (Some cols)
     end)
    (fun ex => console_error ("Error. " +++ message_of ex) ;;; ret None).

(** The options argument of the query operations. *)
Record query_opts : Type := mkQueryOpts {
  columns : option (list string);
  orderBy : option (list string);
  limit : value;                          (* undefined when not given *)
  offset : value;                         (* undefined when not given *)
  booleanMode : option string
}.

(** [opts && opts.columns ? opts.columns.join(',') : '*'] *)
Definition whichcols (opts : option query_opts) : string :=
  match opts with
  | Some {| columns := Some cs |} => join "," cs
  | _ => "*"
  end.

(** The loop over [opts.orderBy], from index [i] on. *)
Fixpoint orderBy_loop (i : nat) (cols : list string) (orderBy : string) : string :=
  match cols with
  | [] => orderBy
  | colname :: rest =>
      let orderBy := if (0 <? i)%nat then orderBy +++ ", " else orderBy in
      let orderBy :=
        if startsWith colname "-" then orderBy +++ substr1 colname +++ " " +++ "DESC"
        else if startsWith colname "+" then orderBy +++ substr1 colname +++ " " +++ "ASC"
        else orderBy +++ colname +++ " " +++ "ASC" in
      orderBy_loop (S i) rest orderBy
  end.

(** The loop over the primary-key columns, from index [i] on. *)
Fixpoint pk_order_loop (i : nat) (pks : list column_meta) (orderBy : string) : string :=
  match pks with
  | [] => orderBy
  | c :: rest =>
      let orderBy := if (0 <? i)%nat then orderBy +++ ", " else orderBy in
      pk_order_loop (S i) rest (orderBy +++ column c +++ " ASC")
  end.

(** [_appendOrderByAndLimit(sql, opts)] *)
Definition _appendOrderByAndLimit (md : option (list column_meta))
    (sql : string) (opts : option query_opts) : string :=
  let orderBy0 :=
    match opts with
    | Some {| orderBy := Some (c :: cs) |} => orderBy_loop 0 (c :: cs) " ORDER BY "
    | _ => ""
    end in
  let limit :=
    match opts with
    | Some o =>
        (if negb (isNil (limit o)) then " LIMIT " +++ text_of (limit o)
         else " LIMIT 1000") +++
        (if negb (isNil (offset o)) then " OFFSET " +++ text_of (offset o)
         else "")
    | None => ""
    end in
  let orderBy1 :=
    if String.eqb orderBy0 "" then
      match filter_metadata md pk with
      | [] => orderBy0
      | pks => pk_order_loop 0 pks (orderBy0 +++ " ORDER BY ")
      end
    else orderBy0 in
  (sql +++ orderBy1) +++ limit.

(** The default order: ascending over the primary-key columns, nothing for
    a table without any. *)
Definition primary_key_order (md : option (list column_meta)) : string :=
  match filter_metadata md pk with
  | [] => ""
  | pks => pk_order_loop 0 pks " ORDER BY "
  end.

(** [' AND '], or [' ' + opts.booleanMode + ' '] *)
Definition boolean_of (opts : option query_opts) : string :=
  match opts with
  | Some {| booleanMode := Some b |} => " " +++ b +++ " "
  | _ => " AND "
  end.

(** The iteratee of [_.each(query, ...)] in [find], [count],
    [updateMatching] and [deleteMatching]. *)
Definition where_step (bool : string) (acc : string * list value)
    (kv : key * value) : string * list value :=
  let '(where_, parms) := acc in
  let where_ := if negb (String.eqb where_ "") then where_ +++ bool else where_ in
  (where_ +++ key_text (fst kv) +++ "=?", parms ++ [snd kv]).

(** [if(where!==''){ sql+=' WHERE '; sql+=where; }] *)
Definition add_where (sql where_ : string) : string :=
  if negb (String.eqb where_ "") then (sql +++ " WHERE ") +++ where_ else sql.

Definition first_row (results : query_result) : option obj :=
  match results with
  | Rows (r :: _) => Some r
  | _ => None
  end.

(** [results[0].count] *)
Definition first_count (results : query_result) : exn + value :=
  match first_row results with
  | Some r => inr (prop r "count")
  | None => inl (JsError TypeError "Cannot read properties of undefined (reading 'count')")
  end.

(** [results.affectedRows] *)
Definition affected (results : query_result) : value :=
  match results with
  | OkPacket n _ => VNum n
  | Rows _ => VUndefined
  end.

(** [get(id, opts)] *)
Definition get (dao : Dao) (id : value) (opts : option query_opts) : M (option obj) :=
  log_and_rethrow dao "get"
    (fetchMetadata dao ;;;
     let sql := "SELECT " +++ whichcols opts +++ " FROM " +++ table dao +++ " WHERE id = ?" in
     results <- sqlCommand dao sql [id] ;;
     ret (first_row results)).

(** [exists(id)]; the identifier [resolve] is bound nowhere in the module. *)
Definition exists_ (dao : Dao) (id : value) : M value :=
  log_and_rethrow dao "exists"
    (fetchMetadata dao ;;;
     let sql := "SELECT count(*) as count FROM " +++ table dao +++ " WHERE id = ?" in
     results <- sqlCommand dao sql [id] ;;
     _ <- lift (first_count results) ;;
     throw (JsError ReferenceError "resolve is not defined")).

(** [all(opts)] *)
Definition all (dao : Dao) (opts : option query_opts) : M query_result :=
  log_and_rethrow dao "all"
    (fetchMetadata dao ;;;
     md <- get_metadata ;;
     let sql := "SELECT " +++ whichcols opts +++ " FROM " +++ table dao +++ " " in
     let sql := _appendOrderByAndLimit md sql opts in
     sqlCommand dao sql []).

(** The statement [find(query, opts)] builds. *)
Definition find_statement (dao : Dao) (md : option (list column_meta))
    (query : option obj) (opts : option query_opts) : statement :=
  let sql := "SELECT " +++ whichcols opts +++ " FROM " +++ table dao +++ " " in
  let '(where_, parms) :=
    fold_left (where_step (boolean_of opts)) (each_entries_opt query) ("", []) in
  (_appendOrderByAndLimit md (add_where sql where_) opts, parms).

(** [find(query, opts)] *)
Definition find (dao : Dao) (query : option obj) (opts : option query_opts) : M query_result :=
  log_and_rethrow dao "find"
    (fetchMetadata dao ;;;
     md <- get_metadata ;;
     let '(sql, parms) := find_statement dao md query opts in
     sqlCommand dao sql parms).

(** The statement [count(query, opts)] builds. *)
Definition count_statement (dao : Dao) (md : option (list column_meta))
    (query : option obj) (opts : option query_opts) : statement :=
  let sql := "SELECT count(*) as count FROM " +++ table dao +++ " " in
  let '(where_, parms) :=
    fold_left (where_step (boolean_of opts)) (each_entries_opt query) ("", []) in
  (_appendOrderByAndLimit md (add_where sql where_) opts, parms).

(** [count(query, opts)] *)
Definition count (dao : Dao) (query : option obj) (opts : option query_opts) : M value :=
  log_and_rethrow dao "count"
    (fetchMetadata dao ;;;
     md <- get_metadata ;;
     let '(sql, parms) := count_statement dao md query opts in
     results <- sqlCommand dao sql parms ;;
     lift (first_count results)).

(** [one(query, opts)] *)
Definition one (dao : Dao) (query : option obj) (opts : option query_opts) : M (option obj) :=
  log_and_rethrow dao "one"
    (result <- find dao query opts ;;
     ret (first_row result)).

(** [selectWhere(where, parms, opts)] *)
Definition selectWhere (dao : Dao) (where_ : option string) (parms : list value)
    (opts : option query_opts) : M query_result :=
  log_and_rethrow dao "selectWhere"
    (fetchMetadata dao ;;;
     md <- get_metadata ;;
     let sql := "SELECT " +++ whichcols opts +++ " FROM " +++ table dao +++ " " in
     let sql := match where_ with Some w => add_where sql w | None => sql end in
     sqlCommand dao (_appendOrderByAndLimit md sql opts) parms).

(** [select(select, parms, opts)] *)
Definition select (dao : Dao) (select_ : string) (parms : list value)
    (opts : option query_opts) : M query_result :=
  log_and_rethrow dao "select"
    (fetchMetadata dao ;;;
     md <- get_metadata ;;
     sqlCommand dao (_appendOrderByAndLimit md select_ opts) parms).

(** [delete(id)] *)
Definition delete (dao : Dao) (id : value) : M obj :=
  log_and_rethrow dao "delete"
    (fetchMetadata dao ;;;
     let sql := ("DELETE FROM " +++ table dao) +++ " WHERE id = ?" in
     results <- sqlCommand dao sql [id] ;;
     ret [("_affectedRows", affected results)]).

(** [deleteWhere(where, parms)]; [resolve] is unbound here as well. *)
Definition deleteWhere (dao : Dao) (where_ : option string) (parms : list value) : M obj :=
  log_and_rethrow dao "deleteWhere"
    (fetchMetadata dao ;;;
     let sql := ("DELETE FROM " +++ table dao) +++ " WHERE " in
     match where_ with
     | None => throw (JsError Error "Could not delete. A WHERE clause must be provided.")
     | Some w =>
         if String.eqb w ""
         then throw (JsError Error "Could not delete. A WHERE clause must be provided.")
         else
           results <- sqlCommand dao (sql +++ w) parms ;;
           throw (JsError ReferenceError "resolve is not defined")
     end).

(** The object behind an argument that may be undefined or null. *)
Definition deref_opt (r : option ref) : M (option obj) :=
  match r with
  | Some r => o <- deref r ;; ret (Some o)
  | None => ret None
  end.

(** [r[k] = v] on an argument that may be undefined or null *)
Definition assign_opt (r : option ref) (k : string) (v : value) : M unit :=
  match r with
  | Some r => assign r k v
  | None => throw (JsError TypeError "Cannot set properties of undefined")
  end.

(** [deleteMatching(criteria)] *)
Definition deleteMatching (dao : Dao) (criteria : option ref) : M (option ref) :=
  log_and_rethrow dao "deleteMatching"
    (c <- deref_opt criteria ;;
     if lodash_isEmpty c
     then throw (JsError Error "Entire table deletes are not permitted.")
     else
       fetchMetadata dao ;;;
       let sql := ("DELETE FROM " +++ table dao) +++ " WHERE " in
       let '(where_, parms) :=
         fold_left (where_step " AND ") (each_entries_opt c) ("", []) in
       results <- sqlCommand dao (sql +++ where_) parms ;;
       assign_opt criteria "_affectedRows" (affected results) ;;;
       ret criteria).

(** The iteratee of [_.each(pks, ...)] in [update] and [deleteOne]. *)
Definition pk_where_step (o : obj) (acc : string * list value)
    (col : column_meta) : string * list value :=
  let '(where_, parms) := acc in
  let where_ := if negb (String.eqb where_ "") then where_ +++ " AND " else where_ in
  (where_ +++ column col +++ "=?", parms ++ [prop o (column col)]).

(** [deleteOne(toDelete)] *)
Definition deleteOne (dao : Dao) (toDelete : ref) : M ref :=
  log_and_rethrow dao "deleteOne"
    (fetchMetadata dao ;;;
     md <- get_metadata ;;
     o <- deref toDelete ;;
     let sql := ("DELETE FROM " +++ table dao) +++ " WHERE " in
     let '(where_, parms) :=
       fold_left (pk_where_step o) (filter_metadata md pk) ("", []) in
     if String.eqb where_ ""
     then throw (JsError Error
            "Could not generate WHERE clause for delete. No primary keys detected.")
     else
       results <- sqlCommand dao (sql +++ where_) parms ;;
       assign toDelete "_affectedRows" (affected results) ;;;
       ret toDelete).

Section Writes.

(** [moment(input).format('YYYY-MM-DD HH:mm:ss')], from the moment library *)
Variable moment_format : value -> string.

Definition temporal (datatype : string) : bool :=
  String.eqb datatype "datetime" || String.eqb datatype "timestamp".

Definition numeric (datatype : string) : bool :=
  startsWith datatype "int" || startsWith datatype "num" || startsWith datatype "dec".

(** [_transformToSafeValue(input, column)] *)
Definition _transformToSafeValue (input : value) (col : column_meta) : exn + value :=
  match input with
  | VStr "" =>
      if temporal (sql_type col) || numeric (sql_type col)
      then if nullable col then inr VNull
           else inl (JsError Error (column col +++ " is not permitted to be empty."))
      else inr input
  | _ =>
      if negb (isNil input) && temporal (sql_type col)
      then inr (VStr (moment_format input))
      else inr input
  end.

(** [(col.pk===true && col.autoincrement===false) || (col.pk===false)] *)
Definition not_ai_pk (col : column_meta) : bool :=
  (pk col && negb (autoincrement col)) || negb (pk col).

(** The iteratee of [_.each(save, ...)] in [create]. *)
Definition create_step (not_ai_pks : list column_meta)
    (acc : exn + (string * string * list value)) (kv : key * value)
    : exn + (string * string * list value) :=
  match acc with
  | inl e => inl e
  | inr (cols, vals, parms) =>
      match find_column not_ai_pks (fst kv) with
      | Some col =>
          let cols := if negb (String.eqb cols "") then cols +++ ", " else cols in
          let cols := cols +++ column col in
          let vals := if negb (String.eqb vals "") then vals +++ ", " else vals in
          let vals := vals +++ "?" in
          match _transformToSafeValue (snd kv) col with
          | inl e => inl e
          | inr v => inr (cols, vals, parms ++ [v])
          end
      | None => inr (cols, vals, parms)
      end
  end.

(** [_.find(this.metadata, {autoincrement: true, pk: true})] *)
Definition key_column (md : option (list column_meta)) : option column_meta :=
  match md with
  | Some cols => List.find (fun c => autoincrement c && pk c) cols
  | None => None
  end.

(** [results.affectedRows > 0 && !_.isNil(results.insertId) && results.insertId > 0] *)
Definition generated_id (results : query_result) : option Z :=
  match results with
  | OkPacket n (Some id) => if (0 <? n)%Z && (0 <? id)%Z then Some id else None
  | _ => None
  end.

(** [create(save, opts)]; the body never reads [opts]. *)
Definition create (dao : Dao) (save : ref) (opts : value) : M ref :=
  log_and_rethrow dao "create"
    (fetchMetadata dao ;;;
     md <- get_metadata ;;
     let not_ai_pks := filter_metadata md not_ai_pk in
     o <- deref save ;;
     acc <- lift (fold_left (create_step not_ai_pks) (each_entries o) (inr ("", "", []))) ;;
     let '(cols, vals, parms) := acc in
     let sql := "INSERT INTO " +++ table dao +++ " (" +++ cols +++ ") VALUES (" +++ vals +++ ");" in
     results <- sqlCommand dao sql parms ;;
     match generated_id results with
     | Some id =>
         match key_column md with
         | Some keyCol => assign save (column keyCol) (VNum id)
         | None => ret tt
         end
     | None => ret tt
     end ;;;
     ret save).

(** The columns [update] leaves to the versioning clause. *)
Definition versioned (o : options) (col : column_meta) : bool :=
  names (created_timestamp_column o) (column col)
  || names (version_number_column o) (column col)
  || names (updated_timestamp_column o) (column col).

(** The iteratee of [_.each(save, ...)] in [update] and [updateMatching]. *)
Definition update_step (o : options) (not_pks : list column_meta)
    (acc : exn + (string * list value)) (kv : key * value)
    : exn + (string * list value) :=
  match acc with
  | inl e => inl e
  | inr (sets, parms) =>
      match find_column not_pks (fst kv) with
      | Some col =>
          if versioned o col then inr (sets, parms)
          else
            let sets := if negb (String.eqb sets "") then sets +++ ", " else sets in
            let sets := sets +++ column col +++ "=?" in
            match _transformToSafeValue (snd kv) col with
            | inl e => inl e
            | inr parmVal =>
                let parmVal := if isNil parmVal then VNull else parmVal in
                inr (sets, parms ++ [parmVal])
            end
      | None => inr (sets, parms)
      end
  end.

(** The additional versioning SET clause. *)
Definition versioning (o : options) : string :=
  (if option_truthy (updated_timestamp_column o)
   then ", " +++ option_text (updated_timestamp_column o) +++ "=CURRENT_TIMESTAMP"
   else "") +++
  (if option_truthy (version_number_column o)
   then ", " +++ option_text (version_number_column o) +++ "="
             +++ option_text (version_number_column o) +++ "+1"
   else "").

(** [update(save, opts)] *)
Definition update (dao : Dao) (save : ref) (opts : value) : M ref :=
  log_and_rethrow dao "update"
    (fetchMetadata dao ;;;
     md <- get_metadata ;;
     let sql := "UPDATE " +++ table dao +++ " SET " in
     let not_pks := filter_metadata md (fun col => negb (pk col)) in
     o <- deref save ;;
     acc <- lift (fold_left (update_step (dao_options dao) not_pks)
                    (each_entries o) (inr ("", []))) ;;
     let '(sets, parms) := acc in
     if String.eqb sets ""
     then throw (JsError Error "No data was provided to update.")
     else
       let sets := sets +++ versioning (dao_options dao) in
       let sql := sql +++ sets in
       let '(where_, parms) :=
         fold_left (pk_where_step o) (filter_metadata md pk) ("", parms) in
       let sql := add_where sql where_ in
       results <- sqlCommand dao sql parms ;;
       assign save "_affectedRows" (affected results) ;;;
       ret save).

(** [updateMatching(save, criteria, opts)] *)
Definition updateMatching (dao : Dao) (save : ref) (criteria : option ref)
    (opts : option query_opts) : M ref :=
  log_and_rethrow dao "update"
    (c <- deref_opt criteria ;;
     if lodash_isEmpty c
     then throw (JsError Error "Entire table updates are not permitted.")
     else
       fetchMetadata dao ;;;
       md <- get_metadata ;;
       let sql := "UPDATE " +++ table dao +++ " SET " in
       let not_pks := filter_metadata md (fun col => negb (pk col)) in
       o <- deref save ;;
       acc <- lift (fold_left (update_step (dao_options dao) not_pks)
                      (each_entries o) (inr ("", []))) ;;
       let '(sets, parms) := acc in
       if String.eqb sets ""
       then throw (JsError Error "No data was provided to update.")
       else
         let sets := sets +++ versioning (dao_options dao) in
         let sql := sql +++ sets in
         let '(where_, parms) :=
           fold_left (where_step " AND ") (each_entries_opt c) ("", parms) in
         let sql := add_where sql where_ in
         let sql := _appendOrderByAndLimit md sql opts in
         results <- sqlCommand dao sql parms ;;
         assign save "_affectedRows" (affected results) ;;;
         ret save).

(** [save(save, opts)]; the promise of [create] or [update] is returned
    without [await], so its rejection does not pass through the catch
    block of [save]. *)
Definition save (dao : Dao) (save_ : ref) (opts : value) : M ref :=
  oneResult <-
    log_and_rethrow dao "save"
      (fetchMetadata dao ;;;
       md <- get_metadata ;;
       o <- deref save_ ;;
       let query :=
         fold_left (fun q col => set_prop q (column col) (prop o (column col)))
           (filter_metadata md pk) [] in
       one dao (Some query) None) ;;
  match oneResult with
  | None => create dao save_ opts
  | Some _ => update dao save_ opts
  end.

End Writes.

(** *** Reading the statements *)

(** A column flagged as created-timestamp, updated-timestamp or version. *)
Definition flagged (c : column_meta) : bool :=
  is_created_timestamp c || is_updated_timestamp c || is_updated_version c.

(** The flags [fetchMetadata] computes from the options of the gateway. *)
Definition flags_agree (o : options) (c : column_meta) : Prop :=
  is_updated_timestamp c = names (updated_timestamp_column o) (column c) /\
  is_created_timestamp c = names (created_timestamp_column o) (column c) /\
  is_updated_version c = names (version_number_column o) (column c).

(** The cached metadata, if any, carries the flags of [fetchMetadata]. *)
Definition consistent (dao : Dao) (st : state) : Prop :=
  forall cols, metadata st = Some cols -> Forall (flags_agree (dao_options dao)) cols.

(** The columns an operation sees after [await this.fetchMetadata()]. *)
Definition known_columns (dao : Dao) (st : state) : list column_meta :=
  match metadata (snd (fetchMetadata dao st)) with
  | Some cols => cols
  | None => []
  end.

(** The columns a SET term with a placeholder is due for: those named by a
    property of the entity, among the columns that are no primary key, and
    not flagged. *)
Definition set_columns (cols : list column_meta) (entries : list (key * value))
    : list column_meta :=
  flat_map (fun kv =>
              match find_column (List.filter (fun c => negb (pk c)) cols) (fst kv) with
              | Some col => if flagged col then [] else [col]
              | None => []
              end) entries.

(** The SET term of a column. *)
Definition set_term (c : column_meta) : string := column c +++ "=?".

(** The placeholder of a column in a VALUES list. *)
Definition value_term (c : column_meta) : string := "?".

(** The columns of an INSERT: those named by a property of the entity, among
    the columns that are no autoincrement primary key. *)
Definition insert_columns (cols : list column_meta) (entries : list (key * value))
    : list column_meta :=
  flat_map (fun kv =>
              match find_column (List.filter not_ai_pk cols) (fst kv) with
              | Some col => [col]
              | None => []
              end) entries.

(** *** from *)

(** The callback of [this.metadata.forEach] in [from]; [None] is the
    argument left undefined. *)
Definition from_step (o : option obj) (acc : exn + obj) (meta : column_meta) : exn + obj :=
  match acc with
  | inl e => inl e
  | inr x =>
      match o with
      | None =>
          inl (JsError TypeError
                 ("Cannot read properties of undefined (reading '"
                    +++ column meta +++ "')"))
      | Some ob =>
          let v := prop ob (column meta) in
          match v with
          | VUndefined | VArr _ => inr x
          | _ => inr (set_prop x (column meta) v)
          end
      end
  end.

(** [from(obj)]; the method has no catch block of its own. *)
Definition from_ (dao : Dao) (o : option obj) : M obj :=
  fetchMetadata dao ;;;
  md <- get_metadata ;;
  match md with
  | None => throw (JsError TypeError "Cannot read properties of null (reading 'forEach')")
  | Some cols => lift (fold_left (from_step o) cols (inr []))
  end.

(** *** Reading the operations *)

(** The operations of the gateway. *)
Inductive operation (moment_format : value -> string) (dao : Dao)
    : forall {A : Type}, M A -> Prop :=
| op_sqlCommand sql parms : operation moment_format dao (sqlCommand dao sql parms)
| op_fetchMetadata : operation moment_format dao (fetchMetadata dao)
| op_get id opts : operation moment_format dao (get dao id opts)
| op_exists id : operation moment_format dao (exists_ dao id)
| op_all opts : operation moment_format dao (all dao opts)
| op_find query opts : operation moment_format dao (find dao query opts)
| op_count query opts : operation moment_format dao (count dao query opts)
| op_one query opts : operation moment_format dao (one dao query opts)
| op_selectWhere where_ parms opts :
    operation moment_format dao (selectWhere dao where_ parms opts)
| op_select select_ parms opts : operation moment_format dao (select dao select_ parms opts)
| op_create save_ opts : operation moment_format dao (create moment_format dao save_ opts)
| op_update save_ opts : operation moment_format dao (update moment_format dao save_ opts)
| op_updateMatching save_ criteria opts :
    operation moment_format dao (updateMatching moment_format dao save_ criteria opts)
| op_save save_ opts : operation moment_format dao (save moment_format dao save_ opts)
| op_deleteOne toDelete : operation moment_format dao (deleteOne dao toDelete)
| op_delete id : operation moment_format dao (delete dao id)
| op_deleteMatching criteria : operation moment_format dao (deleteMatching dao criteria)
| op_deleteWhere where_ parms : operation moment_format dao (deleteWhere dao where_ parms)
| op_from o : operation moment_format dao (from_ dao o).

(** What an operation leaves of the state: metadata, once loaded, stays as
    it is and stays consistent; statements and console lines are only added;
    no caller object appears or disappears. *)
Definition keeps_state (dao : Dao) (st st' : state) : Prop :=
  (forall cols, metadata st = Some cols -> metadata st' = Some cols) /\
  (consistent dao st -> consistent dao st') /\
  (exists more, issued st' = issued st ++ more) /\
  (exists lines, console st' = console st ++ lines) /\
  List.length (heap st') = List.length (heap st).

(** How an operation reports the driver: it rejects with a driver error
    only if the pool failed the last statement it sent, with that very
    error; and it rejects with that error whenever the pool failed the last
    statement it sent, the schema query apart. *)
Definition reports_driver {A} (dao : Dao) (st : state) (r : outcome A) (st' : state) : Prop :=
  (forall e, r = Rejected (DriverError e) ->
     exists hist stmt,
       issued st' = hist ++ [stmt] /\ List.length (issued st) <= List.length hist /\
       pool dao hist stmt = inl e) /\
  (forall hist stmt e,
     issued st' = hist ++ [stmt] -> List.length (issued st) <= List.length hist ->
     fst stmt <> show_columns dao ->
     pool dao hist stmt = inl e -> r = Rejected (DriverError e)).

Definition orderly {A} (dao : Dao) (m : M A) : Prop :=
  forall st r st', m st = (r, st') -> keeps_state dao st st' /\ reports_driver dao st r st'.

(** A synchronous step that throws errors of its own only. *)
Definition js_only {A} (r : exn + A) : Prop :=
  forall e, r = inl e -> exists kind msg, e = JsError kind msg.

(** The term of a property in a WHERE clause. *)
Definition where_term (kv : key * value) : string := key_text (fst kv) +++ "=?".

(** The term of a column name in an ORDER BY clause: [-name] descending,
    [+name] and [name] ascending. *)
Definition order_term (colname : string) : string :=
  if startsWith colname "-" then substr1 colname +++ " DESC"
  else if startsWith colname "+" then substr1 colname +++ " ASC"
  else colname +++ " ASC".

(** The term of a primary-key column in the default order. *)
Definition pk_order_term (c : column_meta) : string := column c +++ " ASC".

(** What [from] keeps of a property value. *)
Definition kept (v : value) : bool :=
  match v with
  | VUndefined | VArr _ => false
  | _ => true
  end.

(** A column that takes no empty string: a date-time or numeric column
    declared NOT NULL. *)
Definition strict (col : column_meta) : bool :=
  (temporal (sql_type col) || numeric (sql_type col)) && negb (nullable col).



(** The term of a primary-key column in a WHERE clause. *)
Definition key_term (c : column_meta) : string := column c +++ "=?".

(** The properties of a plain object that is not array-like, as [_.each]
    visits them. *)
Definition named_entries (o : obj) : list (key * value) :=
  map (fun kv => (KName (fst kv), snd kv)) o.

(** The names a query operation splices into its statement as they are:
    the table, the columns selected, the columns ordered by, and the
    primary-key columns of the default order. *)
Definition spliced_names (dao : Dao) (md : option (list column_meta))
    (opts : option query_opts) : list string :=
  table dao ::
  match opts with
  | Some {| columns := Some cs |} => cs
  | _ => []
  end ++
  match opts with
  | Some {| orderBy := Some os |} => os
  | _ => []
  end ++
  map column (filter_metadata md pk).

(** What a caller can observe of a run, the console apart: the outcome, the
    statements sent, the caller's objects and the metadata. *)
Definition observed {A} (run : outcome A * state)
    : outcome A * list statement * list obj * option (list column_meta) :=
  (fst run, issued (snd run), heap (snd run), metadata (snd run)).

(** The entries of the entity that [update] sets: those that name a column
    which is no primary key and not flagged, with that column. *)
Definition set_entries (cols : list column_meta) (entries : list (key * value))
    : list (column_meta * value) :=
  flat_map (fun kv =>
              match find_column (List.filter (fun c => negb (pk c)) cols) (fst kv) with
              | Some col => if flagged col then [] else [(col, snd kv)]
              | None => []
              end) entries.

(** An entry [update] cannot bind: the empty string for a strict column. *)
Definition unsettable (cv : column_meta * value) : bool :=
  match snd cv with
  | VStr "" => strict (fst cv)
  | _ => false
  end.

(** The parameter bound for an entry: null for undefined and null, and for
    the empty string in a date-time or numeric column; the text [moment]
    gives for any other value of a date-time column; the value itself
    otherwise. *)
Definition set_value (moment_format : value -> string) (cv : column_meta * value) : value :=
  match snd cv with
  | VStr "" =>
      if temporal (sql_type (fst cv)) || numeric (sql_type (fst cv)) then VNull else VStr ""
  | v =>
      if isNil v then VNull
      else if temporal (sql_type (fst cv)) then VStr (moment_format v) else v
  end.

(** The text [_appendOrderByAndLimit] splices after [LIMIT] and after
    [OFFSET], empty when it splices none. *)
Definition limit_text (opts : option query_opts) : string :=
  match opts with
  | Some o => if negb (isNil (limit o)) then text_of (limit o) else ""
  | None => ""
  end.

Definition offset_text (opts : option query_opts) : string :=
  match opts with
  | Some o => if negb (isNil (offset o)) then text_of (offset o) else ""
  | None => ""
  end.

(** The numbers given as limit and offset are of magnitude below 10^21. *)
Definition decimal_opts (opts : option query_opts) : bool :=
  match opts with
  | Some o => decimal (limit o) && decimal (offset o)
  | None => true
  end.

End Gateway.

(** ** The later copy of the gateway (class [Dao] with [loadMetadata])

    The repository holds a second, later source of the class, in which
    [create] has learnt an option. Only what that option needs is embedded
    here; the driver, the state and [sqlCommand] are those of [Gateway]. *)

Module Gateway4.
Import Gateway.

(** [loadMetadata()] *)
Definition loadMetadata (dao : Dao) : M (option (list column_meta)) :=
  try_catch
    (md <- get_metadata ;;
     match md with
     | None =>
         results <- sqlCommand dao (show_columns dao) [] ;;
         match results with
         | Rows items =>
             set_metadata (map (column_of_item (dao_options dao)) items) ;;;
             ret None
         | OkPacket _ _ => throw (JsError TypeError "results.map is not a function")
         end
     | Some cols => ret (Some cols)
     end)
    (fun ex => console_error ("Error. " +++ message_of ex) ;;; ret None).

(** [_transformToSafeValue(input, column)] *)
Definition _transformToSafeValue (input : value) (col : column_meta) : exn + value :=
  match input with
  | VStr "" =>
      if temporal (sql_type col) || numeric (sql_type col)
      then if nullable col then inr VNull
           else inl (JsError Error (column col +++ " is not permitted to be empty."))
      else inr input
  | _ => inr input
  end.

(** The body of [for(let property_name in save)] in [create]. *)
Definition create_step (eligible : list column_meta)
    (acc : exn + (string * string * list value)) (kv : string * value)
    : exn + (string * string * list value) :=
  match acc with
  | inl e => inl e
  | inr (cols, vals, parms) =>
      match List.find (fun x => String.eqb (column x) (fst kv)) eligible with
      | Some col =>
          let cols := if negb (String.eqb cols "") then cols +++ ", " else cols in
          let cols := cols +++ column col in
          let vals := if negb (String.eqb vals "") then vals +++ ", " else vals in
          let vals := vals +++ "?" in
          match _transformToSafeValue (snd kv) col with
          | inl e => inl e
          | inr v => inr (cols, vals, parms ++ [v])
          end
      | None => inr (cols, vals, parms)
      end
  end.

(** [results.affectedRows > 0 && results.insertId && results.insertId > 0] *)
Definition generated_id (results : query_result) : option Z :=
  match results with
  | OkPacket n (Some id) => if (0 <? n)%Z && negb (id =? 0)%Z && (0 <? id)%Z then Some id else None
  | _ => None
  end.

(** [create(save, opts)], with [opts.explicit_pk] (since 4.4.0) *)
Definition create (dao : Dao) (save : ref) (opts : value) : M ref :=
  log_and_rethrow dao "create"
    (loadMetadata dao ;;;
     md <- get_metadata ;;
     match md with
     | None => throw (JsError TypeError "Cannot read properties of null (reading 'filter')")
     | Some meta =>
         let not_ai_pks := List.filter not_ai_pk meta in
         let not_ai_pks :=
           if truthy (js_and opts (member opts "explicit_pk")) then meta
           else not_ai_pks in
         o <- deref save ;;
         acc <- lift (fold_left (create_step not_ai_pks) o (inr ("", "", []))) ;;
         let '(cols, vals, parms) := acc in
         let sql := "INSERT INTO " +++ table dao +++ " (" +++ cols +++ ") VALUES (" +++ vals +++ ");" in
         results <- sqlCommand dao sql parms ;;
         match generated_id results with
         | Some id =>
             match List.find (fun x => autoincrement x && pk x) meta with
             | Some keyCol => assign save (column keyCol) (VNum id)
             | None => ret tt
             end
         | None => ret tt
         end ;;;
         ret save
     end).

End Gateway4.

(** ** Sample data *)

Module Sample.
Import Criteria Gateway.

(** [andGroup(); or('a','=',1); or('b','=',2); groupEnd()] *)
Definition group_calls : list call :=
  [AndGroup; Or "a" "=" (VNum 1); Or "b" "=" (VNum 2); GroupEnd].

(** The same group after [and('x','=',5)]. *)
Definition composed_calls : list call := And "x" "=" (VNum 5) :: group_calls.

(** A column name that holds a question mark. *)
Definition question_calls : list call := [And "a?" "=" (VNum 1)].

(** A chain with skipped, unary, LIKE and IN clauses. *)
Definition mixed_calls : list call :=
  [And "status" "=" (VStr "active"); Or "city" "like" (VStr "Chi%");
   And "note" "=" VNull; Where "OR" "deleted" "is null" VUndefined;
   AndGroup; Or "id" "in" (VArr [VNum 1; VNum 2]); And "age" ">=" (VNum 0);
   GroupEnd; OrderBy (VArr [VStr "+name"])].

(** [{omitIfNull: false, omitIfEmpty: false}] *)
Definition flags_off : value :=
  VObj [("omitIfNull", VBool false); ("omitIfEmpty", VBool false)].

(** [{omitIfNull: 'yes'}] *)
Definition flag_text : value := VObj [("omitIfNull", VStr "yes")].

(** A row of SHOW COLUMNS. *)
Definition column_row (field type null key extra : string) : obj :=
  [("Field", VStr field); ("Type", VStr type); ("Null", VStr null);
   ("Key", VStr key); ("Default", VNull); ("Extra", VStr extra)].

(** The columns of a table [customer]. *)
Definition customer_columns : list obj :=
  [column_row "id" "int(11)" "NO" "PRI" "auto_increment";
   column_row "name" "varchar(255)" "YES" "" "";
   column_row "status" "varchar(16)" "YES" "" "";
   column_row "created" "timestamp" "YES" "" "";
   column_row "updated" "timestamp" "YES" "" "";
   column_row "version" "int(11)" "NO" "" ""].

Definition customer_row : obj :=
  [("id", VNum 1); ("name", VStr "Acme"); ("status", VStr "active"); ("count", VNum 1)].

(** A pool that answers every statement. *)
Definition healthy_pool : Pool :=
  fun _ stmt =>
    if startsWith (fst stmt) "SHOW COLUMNS" then inr (Rows customer_columns)
    else if startsWith (fst stmt) "SELECT" then inr (Rows [customer_row])
    else inr (OkPacket 1 (Some 42%Z)).

Definition refused : driver_error :=
  {| err_code := "ECONNREFUSED"; err_message := "connect ECONNREFUSED" |}.

(** A pool that fails the schema query and answers the others. *)
Definition flaky_pool : Pool :=
  fun history stmt =>
    if startsWith (fst stmt) "SHOW COLUMNS" then inl refused
    else healthy_pool history stmt.

Definition customer : Dao := new_Dao "customer" "customer" None healthy_pool.

Definition flaky_customer : Dao := new_Dao "customer" "customer" None flaky_pool.

Definition moment_stub (v : value) : string := "2024-01-01 00:00:00".

(** The state of [customer] once its metadata is loaded, with the given
    caller objects. *)
Definition loaded (objects : list obj) : state :=
  snd (fetchMetadata customer (initial_state objects)).

(** [{status: 'active'}] *)
Definition active : obj := [("status", VStr "active")].

(** An entity that carries its key and the automatically driven columns only. *)
Definition stamped : obj :=
  [("id", VNum 5); ("created", VStr "2020-02-02"); ("updated", VStr "2020-02-03");
   ("version", VNum 3)].

(** An entity that brings its own primary key. *)
Definition keyed : obj := [("id", VNum 7); ("name", VStr "Acme")].

(** [{explicit_pk: true}] *)
Definition explicit_pk : value := VObj [("explicit_pk", VBool true)].

(** An entity with a name next to the automatically driven columns. *)
Definition renamed : obj :=
  [("id", VNum 5); ("name", VStr "Acme"); ("updated", VStr "2020-02-03");
   ("version", VNum 3)].

(** A pool that answers the schema query and fails everything else. *)
Definition schema_only_pool : Pool :=
  fun _ stmt =>
    if startsWith (fst stmt) "SHOW COLUMNS" then inr (Rows customer_columns)
    else inl refused.

Definition failing_customer : Dao := new_Dao "customer" "customer" None schema_only_pool.




(** [{limit: '?'}] *)
Definition odd_limit : query_opts :=
  {| columns := None; orderBy := None; limit := VStr "?"; offset := VUndefined;
     booleanMode := None |}.

End Sample.

(** * Properties *)

(** ** Strings *)

Section StringFacts.

Lemma placeholders_app (a b : string) :
  placeholders (a +++ b) = placeholders a + placeholders b.
Proof.
  induction a as [|c a IH]; simpl; [reflexivity|].
  rewrite IH. lia.
Qed.

Lemma upper_ascii_question (c : ascii) :
  Ascii.eqb (upper_ascii c) "?" = Ascii.eqb c "?".
Proof.
  destruct c as [[] [] [] [] [] [] [] []]; reflexivity.
Qed.

Lemma placeholders_toUpperCase (s : string) :
  placeholders (toUpperCase s) = placeholders s.
Proof.
  induction s as [|c s IH]; simpl; [reflexivity|].
  now rewrite upper_ascii_question, IH.
Qed.

Lemma append_assoc (a b c : string) : (a +++ b) +++ c = a +++ b +++ c.
Proof.
  induction a as [|x a IH]; simpl; [reflexivity|]. now rewrite IH.
Qed.

Lemma append_empty_r (a : string) : a +++ "" = a.
Proof.
  induction a as [|x a IH]; simpl; [reflexivity|]. now rewrite IH.
Qed.

Lemma eqb_empty_false (x : string) : x <> "" -> String.eqb x "" = false.
Proof. intros H. now apply String.eqb_neq. Qed.

Lemma append_nonempty_l (x y : string) : x <> "" -> x +++ y <> "".
Proof. destruct x; [congruence|discriminate]. Qed.

Lemma append_nonempty_r (x y : string) : y <> "" -> x +++ y <> "".
Proof. destruct x; simpl; [trivial|discriminate]. Qed.

Lemma join_nonempty (sep x : string) (xs : list string) :
  x <> "" -> join sep (x :: xs) <> "".
Proof.
  intros H. destruct xs; simpl; [exact H|now apply append_nonempty_l].
Qed.

Lemma join_cons2 (sep x y : string) (ys : list string) :
  join sep (x :: y :: ys) = x +++ sep +++ join sep (y :: ys).
Proof. reflexivity. Qed.

(** One more element at the end of a joined list, the way the loops of the
    gateway add it: a separator first unless the text is still empty. *)
Lemma join_snoc (sep : string) (xs : list string) (t : string) :
  Forall (fun x => x <> "") xs ->
  join sep (xs ++ [t]) =
    (if negb (String.eqb (join sep xs) "") then join sep xs +++ sep else join sep xs) +++ t.
Proof.
  induction xs as [|x xs IH]; intros F; [reflexivity|].
  inversion F as [|? ? Hx Fxs]; subst.
  rewrite (eqb_empty_false _ (join_nonempty sep x xs Hx)). cbn [negb].
  destruct xs as [|y ys].
  - simpl. now rewrite append_assoc.
  - change ((x :: y :: ys) ++ [t]) with (x :: (y :: ys) ++ [t]).
    change ((y :: ys) ++ [t]) with (y :: (ys ++ [t])) at 1.
    rewrite join_cons2.
    change (y :: (ys ++ [t])) with ((y :: ys) ++ [t]).
    rewrite (IH Fxs).
    inversion Fxs as [|? ? Hy _]; subst.
    rewrite (eqb_empty_false _ (join_nonempty sep y ys Hy)). cbn [negb].
    rewrite join_cons2. now rewrite !append_assoc.
Qed.

Lemma join_empty (sep : string) (xs : list string) :
  Forall (fun x => x <> "") xs -> join sep xs = "" -> xs = [].
Proof.
  intros F E. destruct xs as [|x xs]; [reflexivity|].
  inversion F as [|? ? Hx _]; subst. now destruct (join_nonempty sep x xs Hx).
Qed.

End StringFacts.

(** ** The criteria builder *)

Module CriteriaFacts.
Import Criteria.

Lemma placeholders_placeholder (oper : string) :
  placeholders (placeholder oper) = 1.
Proof.
  unfold placeholder.
  destruct (String.eqb oper "LIKE"); [reflexivity|].
  destruct (includes oper "IN"); reflexivity.
Qed.

Ltac count_placeholders :=
  repeat first [rewrite placeholders_app | progress simpl];
  repeat match goal with
         | H : placeholders _ = _ |- _ => rewrite H
         end;
  rewrite ?placeholders_placeholder; simpl; try reflexivity; try lia.

Lemma isNil_isEmpty (v : value) : isNil v = true -> isEmpty v = true.
Proof. unfold isEmpty. now intros ->. Qed.

Lemma constructor_truthy (opts : value) :
  truthy (omitNull (constructor opts)) = true /\
  truthy (omitEmpty (constructor opts)) = true.
Proof.
  unfold constructor, js_or; simpl.
  split.
  - destruct (truthy (js_and opts (member opts "omitIfNull"))) eqn:E; [exact E|reflexivity].
  - destruct (truthy (js_and opts (member opts "omitIfEmpty"))) eqn:E; [exact E|reflexivity].
Qed.

(** What one call of [_where] adds, under the skip policy. *)
Lemma where_appends (bool name oper : string) (v : value) (this : CriteriaHelper) :
  placeholders bool = 0 -> placeholders name = 0 -> placeholders oper = 0 ->
  truthy (omitNull this) = true -> truthy (omitEmpty this) = true ->
  let pushed := if unary (toUpperCase oper) || isEmpty v then [] else [v] in
  let this' := _where bool name oper v this in
  exists text,
    whereClause this' = whereClause this +++ text /\
    parms this' = parms this ++ pushed /\
    placeholders text = List.length pushed /\
    omitNull this' = omitNull this /\ omitEmpty this' = omitEmpty this.
Proof.
  intros Hb Hn Ho HN HE. cbv zeta. unfold _where.
  rewrite HN, HE, !andb_true_r.
  assert (Hup := placeholders_toUpperCase oper). rewrite Ho in Hup.
  destruct (unary (toUpperCase oper)) eqn:U; simpl.
  - destruct (fresh this); simpl;
      eexists; (split; [reflexivity|]); rewrite app_nil_r;
      repeat split; count_placeholders.
  - destruct (isEmpty v) eqn:Em.
    + rewrite orb_true_r. exists "". rewrite append_empty_r, app_nil_r. now repeat split.
    + destruct (isNil v) eqn:Ni; [apply isNil_isEmpty in Ni; congruence|]. simpl.
      destruct (fresh this); simpl; rewrite append_assoc;
        eexists; (split; [reflexivity|]);
        repeat split; count_placeholders.
Qed.

Lemma apply_call_appends (c : call) (this : CriteriaHelper) :
  plain c ->
  truthy (omitNull this) = true -> truthy (omitEmpty this) = true ->
  let this' := apply_call this c in
  exists text,
    whereClause this' = whereClause this +++ text /\
    parms this' = parms this ++ bound c /\
    placeholders text = List.length (bound c) /\
    omitNull this' = omitNull this /\ omitEmpty this' = omitEmpty this.
Proof.
  intros P HN HE. cbv zeta.
  destruct c as [name oper v|name oper v|bool name oper v| | | |cols];
    unfold plain, spliced in P; simpl.
  - inversion P as [|? ? Hn P1]; inversion P1 as [|? ? Ho _]; subst.
    now apply where_appends.
  - inversion P as [|? ? Hn P1]; inversion P1 as [|? ? Ho _]; subst.
    now apply where_appends.
  - inversion P as [|? ? Hb P0]; inversion P0 as [|? ? Hn P1];
      inversion P1 as [|? ? Ho _]; subst.
    now apply where_appends.
  - unfold andGroup. destruct (fresh this); simpl;
      eexists; rewrite app_nil_r; now repeat split.
  - unfold orGroup. destruct (fresh this); simpl;
      eexists; rewrite app_nil_r; now repeat split.
  - unfold groupEnd; simpl. eexists; rewrite app_nil_r; now repeat split.
  - unfold orderBy. destruct (isEmpty cols); simpl;
      exists ""; rewrite append_empty_r, app_nil_r; now repeat split.
Qed.

Lemma chain_appends (calls : list call) : forall this : CriteriaHelper,
  Forall plain calls ->
  truthy (omitNull this) = true -> truthy (omitEmpty this) = true ->
  let this' := chain this calls in
  exists text,
    whereClause this' = whereClause this +++ text /\
    parms this' = parms this ++ flat_map bound calls /\
    placeholders text = List.length (flat_map bound calls) /\
    truthy (omitNull this') = true /\ truthy (omitEmpty this') = true.
Proof.
  induction calls as [|c calls IH]; intros this P HN HE; cbv zeta; simpl.
  - exists "". rewrite append_empty_r, app_nil_r. now repeat split.
  - inversion P as [|? ? Pc Pcalls]; subst.
    destruct (apply_call_appends c this Pc HN HE) as (t1 & W1 & P1 & C1 & N1 & E1).
    destruct (IH (apply_call this c) Pcalls) as (t2 & W2 & P2 & C2 & N2 & E2);
      [congruence|congruence|].
    exists (t1 +++ t2). unfold chain in *.
    rewrite W2, W1, P2, P1, append_assoc, <- app_assoc, placeholders_app, length_app, C1, C2.
    now repeat split.
Qed.

(** C1, as stated, fails: a column name (or an operator, or a connective)
    is spliced into the text as it is, so [and('a?', '=', 1)] leaves two
    question marks in the clause for one parameter. *)
Lemma placeholders_mismatch :
  placeholders (whereClause (chain (constructor VUndefined) Sample.question_calls))
    <> List.length (parms (chain (constructor VUndefined) Sample.question_calls)).
Proof. discriminate. Qed.

(** C1 (amended): for every chain of and/or/where calls (group and
    order-by calls may be mixed in) whose column names, operators and
    connectives hold no question mark, and for any values, the clause has
    as many [?] as [parms] has entries; [parms] lists the bound values in
    call order; and the same holds after every prefix of the chain, the
    later calls only appending text and parameters, in equal number, to
    the right. So the i-th placeholder and the i-th parameter come from the
    same call. *)
Theorem placeholders_match_parms (opts : value) (calls : list call) :
  Forall plain calls ->
  let h := chain (constructor opts) calls in
  placeholders (whereClause h) = List.length (parms h) /\
  parms h = flat_map bound calls /\
  forall k : nat,
    let hk := chain (constructor opts) (firstn k calls) in
    placeholders (whereClause hk) = List.length (parms hk) /\
    exists text,
      whereClause h = whereClause hk +++ text /\
      parms h = parms hk ++ flat_map bound (skipn k calls) /\
      placeholders text = List.length (flat_map bound (skipn k calls)).
Proof.
  intros P. cbv zeta.
  destruct (constructor_truthy opts) as [HN HE].
  assert (whole : forall cs, Forall plain cs ->
            placeholders (whereClause (chain (constructor opts) cs))
              = List.length (parms (chain (constructor opts) cs)) /\
            parms (chain (constructor opts) cs) = flat_map bound cs).
  { intros cs Pcs.
    destruct (chain_appends cs (constructor opts) Pcs HN HE) as (t & W & Q & C & _).
    rewrite W, Q, placeholders_app, length_app, C. simpl. now split. }
  destruct (whole calls P) as [Hcount Hparms].
  split; [exact Hcount|]. split; [exact Hparms|].
  intros k.
  assert (Pk : Forall plain (firstn k calls)).
  { apply Forall_forall. intros c Hc. apply (proj1 (Forall_forall _ _) P).
    rewrite <- (firstn_skipn k calls). apply in_or_app. now left. }
  assert (Ps : Forall plain (skipn k calls)).
  { apply Forall_forall. intros c Hc. apply (proj1 (Forall_forall _ _) P).
    rewrite <- (firstn_skipn k calls). apply in_or_app. now right. }
  split; [exact (proj1 (whole _ Pk))|].
  destruct (chain_appends (firstn k calls) (constructor opts) Pk HN HE)
    as (_ & _ & _ & _ & HNk & HEk).
  destruct (chain_appends (skipn k calls) _ Ps HNk HEk) as (t & W & Q & C & _).
  exists t.
  assert (E : chain (constructor opts) calls
              = chain (chain (constructor opts) (firstn k calls)) (skipn k calls)).
  { unfold chain. rewrite <- fold_left_app. now rewrite firstn_skipn. }
  rewrite E. now repeat split.
Qed.

Lemma placeholders_match_parms_witness :
  Forall plain Sample.mixed_calls /\
  placeholders (whereClause (chain (constructor VUndefined) Sample.mixed_calls)) = 4 /\
  List.length (parms (chain (constructor VUndefined) Sample.mixed_calls)) = 4.
Proof.
  assert (P : Forall plain Sample.mixed_calls).
  { repeat constructor. }
  split; [exact P|].
  pose proof (placeholders_match_parms VUndefined Sample.mixed_calls P) as H.
  cbv zeta in H. destruct H as (H & _ & _).
  split; [reflexivity|]. rewrite <- H. reflexivity.
Defined.

(** C4: with the default configuration, [and(name, oper, value)] with a
    binary operator (['='] among them) changes neither the clause nor the
    parameters when the value is undefined, null or the empty string; with
    the number 0 it appends one predicate, namely the connective (unless
    the clause is fresh), the name, the upper-cased operator and its
    placeholder, and pushes the one parameter 0. *)
Theorem and_skips_null_and_empty (name oper : string) (this : CriteriaHelper) :
  omitNull this = VBool true -> omitEmpty this = VBool true ->
  unary (toUpperCase oper) = false ->
  and_ name oper VUndefined this = this /\
  and_ name oper VNull this = this /\
  and_ name oper (VStr "") this = this /\
  parms (and_ name oper (VNum 0) this) = parms this ++ [VNum 0] /\
  whereClause (and_ name oper (VNum 0) this) =
    whereClause this +++ (if fresh this then "" else " AND ") +++ name +++ " "
      +++ toUpperCase oper +++ placeholder (toUpperCase oper).
Proof.
  intros HN HE U. unfold and_, _where. rewrite HN, HE, U. simpl.
  repeat split; destruct (fresh this); simpl;
    repeat (rewrite append_assoc; simpl); reflexivity.
Qed.

Lemma and_skips_null_and_empty_witness :
  and_ "x" "=" VNull (constructor VUndefined) = constructor VUndefined /\
  and_ "x" "=" (VStr "") (constructor VUndefined) = constructor VUndefined /\
  parms (and_ "x" "=" (VNum 0) (constructor VUndefined)) = [VNum 0] /\
  whereClause (and_ "x" "=" (VNum 0) (constructor VUndefined)) = "x =?".
Proof.
  destruct (and_skips_null_and_empty "x" "=" (constructor VUndefined)
              eq_refl eq_refl eq_refl) as (_ & H1 & H2 & H3 & H4).
  repeat split; assumption.
Defined.

(** C7, as stated, fails on the text: the builder puts a blank between a
    name and its operator, before an opening and around a closing
    parenthesis. *)
Lemma group_text_differs :
  whereClause (chain (constructor VUndefined) Sample.group_calls) <> "(a=? OR b=?)".
Proof. discriminate. Qed.

(** C7 (amended): [andGroup()] and [orGroup()] append [" ("], with no
    connective, when the clause is empty or ends with an opening
    parenthesis, and [" AND ("] or [" OR ("] otherwise, and leave the
    parameters alone. The chain
    [andGroup(); or('a','=',1); or('b','=',2); groupEnd()] renders
    [" (a =? OR b =? ) "], which is [(a=? OR b=?)] up to blanks, with
    parameters [1, 2]; after [and('x','=',5)] it is joined by [" AND ("]. *)
Theorem group_rendering :
  (forall this, fresh this = true ->
     whereClause (andGroup this) = whereClause this +++ " (" /\
     whereClause (orGroup this) = whereClause this +++ " (") /\
  (forall this, fresh this = false ->
     whereClause (andGroup this) = whereClause this +++ " AND (" /\
     whereClause (orGroup this) = whereClause this +++ " OR (") /\
  (forall this, parms (andGroup this) = parms this /\ parms (orGroup this) = parms this) /\
  whereClause (chain (constructor VUndefined) Sample.group_calls) = " (a =? OR b =? ) " /\
  without_spaces (whereClause (chain (constructor VUndefined) Sample.group_calls))
    = without_spaces "(a=? OR b=?)" /\
  parms (chain (constructor VUndefined) Sample.group_calls) = [VNum 1; VNum 2] /\
  whereClause (chain (constructor VUndefined) Sample.composed_calls)
    = "x =? AND (a =? OR b =? ) " /\
  parms (chain (constructor VUndefined) Sample.composed_calls) = [VNum 5; VNum 1; VNum 2].
Proof.
  split; [|split; [|split]].
  - intros this F. unfold andGroup, orGroup. rewrite F. now split.
  - intros this F. unfold andGroup, orGroup. rewrite F. now split.
  - intros this. unfold andGroup, orGroup. destruct (fresh this); now split.
  - repeat split.
Qed.

Lemma group_rendering_witness :
  whereClause (andGroup (constructor VUndefined)) = " (" /\
  whereClause (orGroup (andGroup (constructor VUndefined))) = " ( (" /\
  whereClause (andGroup (and_ "x" "=" (VNum 5) (constructor VUndefined))) = "x =? AND (" /\
  whereClause (orGroup (and_ "x" "=" (VNum 5) (constructor VUndefined))) = "x =? OR (".
Proof.
  destruct group_rendering as (Hfresh & Hjoin & _).
  split; [exact (proj1 (Hfresh (constructor VUndefined) eq_refl))|].
  split; [exact (proj2 (Hfresh (andGroup (constructor VUndefined)) eq_refl))|].
  split.
  - exact (proj1 (Hjoin (and_ "x" "=" (VNum 5) (constructor VUndefined)) eq_refl)).
  - exact (proj2 (Hjoin (and_ "x" "=" (VNum 5) (constructor VUndefined)) eq_refl)).
Defined.

(** A truthy option value that is no boolean is outside the documented
    options; [a || true] keeps it: [{omitIfNull: 'yes'}] stores the string. *)
Example omitNull_of_text :
  omitNull (constructor Sample.flag_text) = VStr "yes" /\
  truthy (omitNull (constructor Sample.flag_text)) = true.
Proof. split; reflexivity. Qed.

(** C9: for every constructor argument, [omitNull] and [omitEmpty] are
    truthy, so the skip policy cannot be switched off. With the documented
    options, booleans, each flag is the boolean true: whenever the option
    it is read from ([omitIfNull], [omitIfEmpty]) is a boolean, [false]
    included, or absent. In full, each flag is the option's own value when
    that is truthy, and the boolean true in every other case. *)
Theorem skip_policy_always_on (opts : value) :
  truthy (omitNull (constructor opts)) = true /\
  truthy (omitEmpty (constructor opts)) = true /\
  (forall b, member opts "omitIfNull" = VBool b \/ member opts "omitIfNull" = VUndefined ->
     omitNull (constructor opts) = VBool true) /\
  (forall b, member opts "omitIfEmpty" = VBool b \/ member opts "omitIfEmpty" = VUndefined ->
     omitEmpty (constructor opts) = VBool true) /\
  omitNull (constructor opts)
    = (if truthy (member opts "omitIfNull") then member opts "omitIfNull" else VBool true) /\
  omitEmpty (constructor opts)
    = (if truthy (member opts "omitIfEmpty") then member opts "omitIfEmpty" else VBool true).
Proof.
  destruct (constructor_truthy opts) as [HN HE].
  split; [exact HN|]. split; [exact HE|].
  assert (X : forall k,
            js_or (js_and opts (member opts k)) (VBool true)
              = (if truthy (member opts k) then member opts k else VBool true)).
  { intros k. unfold js_or, js_and.
    destruct (truthy opts) eqn:T; [reflexivity|]. rewrite T.
    destruct opts as [| |b|n|s|items|props]; try discriminate; simpl;
      try reflexivity.
    - destruct s as [|c s]; [|discriminate]. simpl.
      now destruct (String.eqb k "length"). }
  unfold constructor; cbn [omitNull omitEmpty].
  split; [|split; [|split]]; try apply X.
  - intros b [E|E]; rewrite X, E; [now destruct b|reflexivity].
  - intros b [E|E]; rewrite X, E; [now destruct b|reflexivity].
Qed.

Lemma skip_policy_always_on_witness :
  omitNull (constructor Sample.flags_off) = VBool true /\
  omitEmpty (constructor Sample.flags_off) = VBool true.
Proof.
  destruct (skip_policy_always_on Sample.flags_off) as (_ & _ & HN & HE & _).
  split; [exact (HN false (or_introl eq_refl))|exact (HE false (or_introl eq_refl))].
Defined.

End CriteriaFacts.

(** ** The table gateway *)

Module GatewayFacts.
Import Gateway.

(** The state [fetchMetadata] leaves behind. *)
Lemma fetchMetadata_run (dao : Dao) (st : state) :
  exists r, fetchMetadata dao st = (Fulfilled r, snd (fetchMetadata dao st)).
Proof.
  unfold fetchMetadata, try_catch, bind, get_metadata, sqlCommand.
  destruct (metadata st) as [cols|]; simpl; [now eexists|].
  destruct (pool dao (issued st) (show_columns dao, [])) as [e|[items|n i]];
    simpl; now eexists.
Qed.

Lemma fetchMetadata_loaded (dao : Dao) (st : state) (cols : list column_meta) :
  metadata st = Some cols -> fetchMetadata dao st = (Fulfilled (Some cols), st).
Proof.
  intros E. unfold fetchMetadata, try_catch, bind, get_metadata. now rewrite E.
Qed.

Lemma fetchMetadata_heap (dao : Dao) (st : state) :
  heap (snd (fetchMetadata dao st)) = heap st.
Proof.
  unfold fetchMetadata, try_catch, bind, get_metadata, sqlCommand.
  destruct (metadata st) as [cols|]; simpl; [reflexivity|].
  destruct (pool dao (issued st) (show_columns dao, [])) as [e|[items|n i]];
    reflexivity.
Qed.

(** The only statement [fetchMetadata] sends is the schema query, and only
    while the metadata is not loaded. *)
Lemma fetchMetadata_issued (dao : Dao) (st : state) :
  issued (snd (fetchMetadata dao st)) =
    issued st ++ match metadata st with
                 | None => [(show_columns dao, [])]
                 | Some _ => []
                 end.
Proof.
  unfold fetchMetadata, try_catch, bind, get_metadata, sqlCommand.
  destruct (metadata st) as [cols|]; simpl; [now rewrite app_nil_r|].
  destruct (pool dao (issued st) (show_columns dao, [])) as [e|[items|n i]];
    reflexivity.
Qed.

Ltac run_fetch dao st :=
  let r := fresh "r" in
  let E := fresh "E" in
  destruct (fetchMetadata_run dao st) as [r E]; rewrite E.

(** C3: when the criteria argument is undefined, null or an object without
    keys, [updateMatching] and [deleteMatching] reject with their error and
    hand no statement to the pool, not even the schema query; the caller's
    objects and the metadata cache stay as they were. *)
Theorem empty_criteria_refused (moment_format : value -> string) (dao : Dao)
    (save : ref) (criteria : option ref) (opts : option query_opts) (st : state) :
  criteria = None \/ (exists r, criteria = Some r /\ nth r (heap st) [] = []) ->
  (exists st',
     updateMatching moment_format dao save criteria opts st
       = (Rejected (JsError Error "Entire table updates are not permitted."), st') /\
     issued st' = issued st /\ heap st' = heap st /\ metadata st' = metadata st) /\
  (exists st',
     deleteMatching dao criteria st
       = (Rejected (JsError Error "Entire table deletes are not permitted."), st') /\
     issued st' = issued st /\ heap st' = heap st /\ metadata st' = metadata st).
Proof.
  intros [->|(r & -> & Hr)];
    unfold updateMatching, deleteMatching, log_and_rethrow, try_catch, bind,
      deref_opt, deref, ret; simpl; rewrite ?Hr; simpl;
    split; eexists; (split; [reflexivity|]); now repeat split.
Qed.

Lemma empty_criteria_refused_witness :
  fst (deleteMatching Sample.customer (Some 0) (initial_state [[]]))
    = Rejected (JsError Error "Entire table deletes are not permitted.") /\
  issued (snd (deleteMatching Sample.customer (Some 0) (initial_state [[]]))) = [] /\
  issued (snd (updateMatching Sample.moment_stub Sample.customer 1 None None
                 (initial_state [[]; Sample.active]))) = [].
Proof.
  destruct (empty_criteria_refused Sample.moment_stub Sample.customer 1 (Some 0) None
              (initial_state [[]]) (or_intror (ex_intro _ 0 (conj eq_refl eq_refl))))
    as (_ & st' & E & I & _).
  destruct (empty_criteria_refused Sample.moment_stub Sample.customer 1 None None
              (initial_state [[]; Sample.active]) (or_introl eq_refl))
    as ((st'' & E' & I' & _) & _).
  rewrite E, E'. simpl. now repeat split.
Defined.

(** C10: [exists(id)] rejects for every id and in every state. When the
    count query succeeds and returns a row, the rejection is the
    ReferenceError raised by the unbound [resolve], logged and rethrown.
    [deleteWhere] rejects as well in every case; with a non-empty WHERE text
    that the pool accepts, the DELETE statement has been handed to the pool
    and the promise still rejects with that ReferenceError. *)
Theorem exists_never_fulfils :
  (forall dao id st, exists e st', exists_ dao id st = (Rejected e, st')) /\
  (forall dao id st results,
     let st1 := snd (fetchMetadata dao st) in
     let sql := "SELECT count(*) as count FROM " +++ table dao +++ " WHERE id = ?" in
     pool dao (issued st1) (sql, [id]) = inr results ->
     first_row results <> None ->
     exists st',
       exists_ dao id st = (Rejected (JsError ReferenceError "resolve is not defined"), st') /\
       issued st' = issued st1 ++ [(sql, [id])] /\
       console st' = console st1 ++
         [entity dao +++ " exists error. Details: resolve is not defined"]) /\
  (forall dao where_ parms st,
     exists e st', deleteWhere dao where_ parms st = (Rejected e, st')) /\
  (forall dao w parms st result,
     let st1 := snd (fetchMetadata dao st) in
     let sql := ("DELETE FROM " +++ table dao) +++ " WHERE " +++ w in
     w <> "" ->
     pool dao (issued st1) (sql, parms) = inr result ->
     exists st',
       deleteWhere dao (Some w) parms st
         = (Rejected (JsError ReferenceError "resolve is not defined"), st') /\
       issued st' = issued st1 ++ [(sql, parms)]).
Proof.
  split; [|split; [|split]].
  - intros dao id st.
    unfold exists_, log_and_rethrow, try_catch, bind. run_fetch dao st.
    unfold sqlCommand.
    destruct (pool dao _ _) as [e|results]; simpl; [now eexists; eexists|].
    destruct (first_count results); simpl; now eexists; eexists.
  - intros dao id st results st1 sql Hpool Hrow.
    unfold exists_, log_and_rethrow, try_catch, bind. run_fetch dao st.
    unfold sqlCommand. fold st1. fold sql. rewrite Hpool. simpl.
    unfold first_count. destruct (first_row results); [|congruence]. simpl.
    eexists. split; [reflexivity|]. simpl. now split.
  - intros dao where_ parms st.
    unfold deleteWhere, log_and_rethrow, try_catch, bind. run_fetch dao st.
    destruct where_ as [w|]; simpl; [|now eexists; eexists].
    destruct (String.eqb w ""); simpl; [now eexists; eexists|].
    unfold sqlCommand.
    destruct (pool dao _ _) as [e|results]; simpl; now eexists; eexists.
  - intros dao w parms st result st1 sql Hw Hpool.
    unfold deleteWhere, log_and_rethrow, try_catch, bind. run_fetch dao st.
    destruct (String.eqb w "") eqn:Ew; [apply String.eqb_eq in Ew; contradiction|].
    unfold sqlCommand. fold st1. rewrite append_assoc. fold sql. rewrite Hpool. simpl.
    eexists. split; [reflexivity|]. reflexivity.
Qed.

Lemma exists_never_fulfils_witness :
  fst (exists_ Sample.customer (VNum 1) (initial_state []))
    = Rejected (JsError ReferenceError "resolve is not defined") /\
  fst (deleteWhere Sample.customer (Some "status=?") [VStr "closed"] (initial_state []))
    = Rejected (JsError ReferenceError "resolve is not defined") /\
  issued (snd (deleteWhere Sample.customer (Some "status=?") [VStr "closed"]
                 (initial_state [])))
    = [("SHOW COLUMNS FROM customer;", []);
       ("DELETE FROM customer WHERE status=?", [VStr "closed"])].
Proof.
  destruct exists_never_fulfils as (_ & Hex & _ & Hdel).
  destruct (Hex Sample.customer (VNum 1) (initial_state []) (Rows [Sample.customer_row])
              eq_refl ltac:(discriminate)) as (st' & E & _).
  assert (Hw : "status=?" <> "") by discriminate.
  destruct (Hdel Sample.customer "status=?" [VStr "closed"] (initial_state [])
              (OkPacket 1 (Some 42%Z)) Hw eq_refl) as (st'' & E' & I).
  rewrite E, E'. simpl. split; [reflexivity|]. split; [reflexivity|]. exact I.
Defined.

(** Without an options argument the statement gets the default order and
    nothing else. *)
Lemma append_without_options (md : option (list column_meta)) (sql : string) :
  _appendOrderByAndLimit md sql None = sql +++ primary_key_order md.
Proof.
  unfold _appendOrderByAndLimit, primary_key_order. simpl.
  rewrite append_empty_r. now destruct (filter_metadata md pk).
Qed.

(** With an options object that sets neither [orderBy] nor [limit] nor
    [offset], the statement ends with the default order and LIMIT 1000. *)
Lemma append_defaults (md : option (list column_meta)) (sql : string) (o : query_opts) :
  orderBy o = None \/ orderBy o = Some [] ->
  isNil (limit o) = true -> isNil (offset o) = true ->
  _appendOrderByAndLimit md sql (Some o) =
    (sql +++ primary_key_order md) +++ " LIMIT 1000".
Proof.
  intros Ho Hl Hf. unfold _appendOrderByAndLimit, primary_key_order.
  destruct o as [cs ob l f bm]; cbn [orderBy limit offset] in *. rewrite Hl, Hf.
  destruct Ho as [->| ->]; simpl; now destruct (filter_metadata md pk).
Qed.

(** C2, the code at the failing input: [find] and [count] called without an
    options argument build a statement that ends with the primary-key order;
    no LIMIT clause follows, for any gateway, metadata and query. On the
    sample table, [find({status:'active'})] sends
    [SELECT * FROM customer  WHERE status=? ORDER BY id ASC]. *)
Theorem find_without_options_has_no_limit :
  (forall dao md query,
     let where_ := fold_left (where_step " AND ") (each_entries_opt query) ("", []) in
     find_statement dao md query None =
       (add_where ("SELECT * FROM " +++ table dao +++ " ") (fst where_)
          +++ primary_key_order md, snd where_) /\
     count_statement dao md query None =
       (add_where ("SELECT count(*) as count FROM " +++ table dao +++ " ") (fst where_)
          +++ primary_key_order md, snd where_)) /\
  issued (snd (find Sample.customer (Some Sample.active) None (Sample.loaded [])))
    = [("SHOW COLUMNS FROM customer;", []);
       ("SELECT * FROM customer  WHERE status=? ORDER BY id ASC", [VStr "active"])] /\
  issued (snd (count Sample.customer (Some Sample.active) None (Sample.loaded [])))
    = [("SHOW COLUMNS FROM customer;", []);
       ("SELECT count(*) as count FROM customer  WHERE status=? ORDER BY id ASC",
        [VStr "active"])].
Proof.
  split; [|split; reflexivity].
  intros dao md query where_.
  unfold find_statement, count_statement, boolean_of, whichcols. fold where_.
  destruct where_ as [w ps]. simpl. now rewrite !append_without_options.
Qed.

(** The catch block of an operation passes the error on as it is, after one
    line on the console. *)
Lemma log_and_rethrow_rejected {A} (dao : Dao) (name : string) (body : M A)
    (st st' : state) (e : exn) :
  body st = (Rejected e, st') ->
  exists st'',
    log_and_rethrow dao name body st = (Rejected e, st'') /\
    console st'' = console st' ++
      [entity dao +++ " " +++ name +++ " error. Details: " +++ message_of e] /\
    issued st'' = issued st' /\ heap st'' = heap st' /\ metadata st'' = metadata st'.
Proof.
  intros E. unfold log_and_rethrow, try_catch. rewrite E.
  eexists. split; [reflexivity|]. now repeat split.
Qed.

(** Once the metadata is loaded, a failure of the SELECT of [get] rejects
    [get] with the driver's error. *)
Lemma get_propagates (dao : Dao) (id : value) (opts : option query_opts)
    (st : state) (cols : list column_meta) (err : driver_error) :
  metadata st = Some cols ->
  pool dao (issued st)
    ("SELECT " +++ whichcols opts +++ " FROM " +++ table dao +++ " WHERE id = ?", [id])
    = inl err ->
  exists st',
    get dao id opts st = (Rejected (DriverError err), st') /\
    console st' = console st ++ [entity dao +++ " get error. Details: " +++ err_message err].
Proof.
  intros Hmd Hpool.
  unfold get, log_and_rethrow, try_catch, bind.
  rewrite (fetchMetadata_loaded dao st cols Hmd).
  unfold sqlCommand. rewrite Hpool. simpl.
  eexists. split; reflexivity.
Qed.

(** C8, the code at the failing input: on a gateway whose metadata is not
    loaded and whose pool fails the schema query, [fetchMetadata] logs the
    driver's error and swallows it; [get(1)] goes on to its SELECT and
    fulfils with the row, and [create] sends an INSERT without columns. *)
Theorem metadata_error_is_swallowed :
  fetchMetadata Sample.flaky_customer (initial_state [])
    = (Fulfilled None,
       {| metadata := None; heap := [];
          issued := [("SHOW COLUMNS FROM customer;", [])];
          console := ["Error. connect ECONNREFUSED"] |}) /\
  get Sample.flaky_customer (VNum 1) None (initial_state [])
    = (Fulfilled (Some Sample.customer_row),
       {| metadata := None; heap := [];
          issued := [("SHOW COLUMNS FROM customer;", []);
                     ("SELECT * FROM customer WHERE id = ?", [VNum 1])];
          console := ["Error. connect ECONNREFUSED"] |}) /\
  fst (create Sample.moment_stub Sample.flaky_customer 0 VUndefined
         (initial_state [[("name", VStr "Acme")]]))
    = Fulfilled 0 /\
  issued (snd (create Sample.moment_stub Sample.flaky_customer 0 VUndefined
                 (initial_state [[("name", VStr "Acme")]])))
    = [("SHOW COLUMNS FROM customer;", []);
       ("INSERT INTO customer () VALUES ();", [])].
Proof. repeat split. Qed.

(** *** Metadata *)

Lemma column_of_item_agrees (o : options) (item : obj) :
  flags_agree o (column_of_item o item).
Proof. now repeat split. Qed.

(** [fetchMetadata] keeps the cache consistent with the options. *)
Lemma fetchMetadata_consistent (dao : Dao) (st : state) :
  consistent dao st -> Forall (flags_agree (dao_options dao)) (known_columns dao st).
Proof.
  intros C. unfold known_columns, fetchMetadata, try_catch, bind, get_metadata, sqlCommand.
  destruct (metadata st) as [cols|] eqn:E; simpl.
  - rewrite E. now apply C.
  - destruct (pool dao (issued st) (show_columns dao, [])) as [e|[items|n i]]; simpl;
      rewrite ?E; simpl; try constructor.
    apply Forall_forall. intros c Hc. apply in_map_iff in Hc.
    destruct Hc as (item & <- & _). apply column_of_item_agrees.
Qed.

Lemma filter_metadata_known (dao : Dao) (st : state) (f : column_meta -> bool) :
  filter_metadata (metadata (snd (fetchMetadata dao st))) f
    = List.filter f (known_columns dao st).
Proof.
  unfold known_columns, filter_metadata.
  now destruct (metadata (snd (fetchMetadata dao st))) as [cols|].
Qed.

Lemma find_column_named (cols : list column_meta) (k : key) (c : column_meta) :
  find_column cols k = Some c -> In c cols /\ k = KName (column c).
Proof.
  destruct k as [s|i]; simpl; [|discriminate].
  intros F. apply find_some in F. destruct F as [Hin Heq].
  apply String.eqb_eq in Heq. now subst.
Qed.

Lemma versioned_flagged (o : options) (c : column_meta) :
  flags_agree o c -> versioned o c = flagged c.
Proof.
  intros (U & C & V). unfold versioned, flagged. rewrite U, C, V.
  destruct (names (created_timestamp_column o) (column c)),
           (names (version_number_column o) (column c)),
           (names (updated_timestamp_column o) (column c)); reflexivity.
Qed.

(** The flags of a consistent column depend on its name alone. *)
Lemma flagged_by_name (o : options) (c c' : column_meta) :
  flags_agree o c -> flags_agree o c' -> column c = column c' -> flagged c = flagged c'.
Proof.
  intros (U & C & V) (U' & C' & V') E. unfold flagged.
  now rewrite U, C, V, U', C', V', E.
Qed.

(** *** update *)

Section UpdateFacts.

Variable moment_format : value -> string.

Lemma set_terms_nonempty (cs : list column_meta) :
  Forall (fun x => x <> "") (map set_term cs).
Proof.
  apply Forall_forall. intros t Ht. apply in_map_iff in Ht.
  destruct Ht as (c & <- & _). now apply append_nonempty_r.
Qed.

Lemma update_fold_error (o : options) (not_pks : list column_meta)
    (entries : list (key * value)) (e : exn) :
  fold_left (update_step moment_format o not_pks) entries (inl e) = inl e.
Proof. induction entries as [|kv rest IH]; simpl; [reflexivity|exact IH]. Qed.

(** The loop of [update] over the entity: the SET text is the joined list of
    the terms of [set_columns], with one parameter each. *)
Lemma update_fold (o : options) (cols : list column_meta) :
  Forall (flags_agree o) cols ->
  forall (entries : list (key * value)) (done : list column_meta) (parms0 : list value),
    match fold_left (update_step moment_format o (List.filter (fun c => negb (pk c)) cols))
            entries (inr (join ", " (map set_term done), parms0)) with
    | inl _ => set_columns cols entries <> []
    | inr (sets, parms) =>
        sets = join ", " (map set_term (done ++ set_columns cols entries)) /\
        exists vals,
          parms = parms0 ++ vals /\
          List.length vals = List.length (set_columns cols entries)
    end.
Proof.
  intros A. induction entries as [|kv rest IH]; intros done parms0.
  - simpl. rewrite app_nil_r. split; [reflexivity|]. exists []. now rewrite app_nil_r.
  - cbn [fold_left set_columns flat_map]. unfold update_step at 2.
    destruct (find_column (List.filter (fun c => negb (pk c)) cols) (fst kv)) as [col|] eqn:F.
    + destruct (find_column_named _ _ _ F) as [Hin _].
      apply filter_In in Hin. destruct Hin as [Hin _].
      rewrite (versioned_flagged o col (proj1 (Forall_forall _ _) A col Hin)).
      fold (set_columns cols rest).
      destruct (flagged col) eqn:Fl; [exact (IH done parms0)|].
      destruct (_transformToSafeValue moment_format (snd kv) col) as [e|v].
      * rewrite update_fold_error. discriminate.
      * change (column col +++ "=?") with (set_term col).
        fold (set_columns cols rest).
        rewrite <- (join_snoc ", " (map set_term done) (set_term col)
                      (set_terms_nonempty done)).
        change (map set_term done ++ [set_term col]) with
          (map set_term done ++ map set_term [col]).
        rewrite <- map_app.
        specialize (IH (done ++ [col]) (parms0 ++ [if isNil v then VNull else v])).
        destruct (fold_left _ rest _) as [e|[sets parms]].
        -- discriminate.
        -- destruct IH as (Hs & vals & Hp & Hl).
           rewrite <- app_assoc in Hs. split; [exact Hs|].
           exists ((if isNil v then VNull else v) :: vals).
           rewrite Hp, <- app_assoc. simpl. now rewrite Hl.
    + fold (set_columns cols rest). exact (IH done parms0).
Qed.

Lemma set_columns_in (cols : list column_meta) (entries : list (key * value))
    (c : column_meta) :
  In c (set_columns cols entries) ->
  In c cols /\ pk c = false /\ flagged c = false /\
  exists v, In (KName (column c), v) entries.
Proof.
  unfold set_columns. intros H. apply in_flat_map in H.
  destruct H as ([k v] & Hkv & Hc). simpl in Hc.
  destruct (find_column _ k) as [col|] eqn:F; [|contradiction].
  destruct (flagged col) eqn:Fl; [contradiction|].
  destruct Hc as [->|[]].
  destruct (find_column_named _ _ _ F) as [Hin ->].
  apply filter_In in Hin. destruct Hin as [Hin Hpk].
  repeat split; try assumption.
  - now destruct (pk c).
  - now exists v.
Qed.

Lemma pk_where_parms (o : obj) (pks : list column_meta) :
  forall (w : string) (ps : list value),
    snd (fold_left (pk_where_step o) pks (w, ps))
      = ps ++ map (fun c => prop o (column c)) pks.
Proof.
  induction pks as [|c pks IH]; intros w ps; simpl; [now rewrite app_nil_r|].
  rewrite IH. now rewrite <- app_assoc.
Qed.

Lemma set_entries_columns (cols : list column_meta) (entries : list (key * value)) :
  map fst (set_entries cols entries) = set_columns cols entries.
Proof.
  unfold set_entries, set_columns.
  induction entries as [|kv rest IH]; [reflexivity|].
  cbn [flat_map]. rewrite map_app, IH. f_equal.
  destruct (find_column _ (fst kv)) as [col|]; [|reflexivity].
  now destruct (flagged col).
Qed.

(** What [update] binds for an entry it can bind. *)
Lemma transform_set_value (col : column_meta) (v : value) :
  unsettable (col, v) = false ->
  exists w,
    _transformToSafeValue moment_format v col = inr w /\
    (if isNil w then VNull else w) = set_value moment_format (col, v).
Proof.
  unfold unsettable, set_value, _transformToSafeValue, strict. cbn [fst snd].
  destruct v as [| |b|n|s|items|props]; simpl;
    try (destruct (temporal (sql_type col)); eexists; split; reflexivity);
    try (eexists; split; reflexivity).
  destruct s as [|c s]; simpl.
  - destruct (temporal (sql_type col) || numeric (sql_type col)); simpl.
    + destruct (nullable col); [|discriminate]. intros _. now eexists.
    + intros _. now eexists.
  - intros _. destruct (temporal (sql_type col)); eexists; split; reflexivity.
Qed.

Lemma transform_unsettable (col : column_meta) (v : value) :
  unsettable (col, v) = true ->
  exists e, _transformToSafeValue moment_format v col = inl e.
Proof.
  unfold unsettable, _transformToSafeValue, strict. cbn [fst snd].
  destruct v as [| |b|n|s|items|props]; try discriminate.
  destruct s as [|c s]; [|discriminate]. intros S.
  apply andb_prop in S. destruct S as [T N]. rewrite T.
  destruct (nullable col); [discriminate|now eexists].
Qed.

(** The loop of [update] over the entity, with the values it binds: it
    throws exactly when an entry to set cannot be bound. *)
Lemma update_fold_values (o : options) (cols : list column_meta) :
  Forall (flags_agree o) cols ->
  forall (entries : list (key * value)) (done : list column_meta) (parms0 : list value),
    match fold_left (update_step moment_format o (List.filter (fun c => negb (pk c)) cols))
            entries (inr (join ", " (map set_term done), parms0)) with
    | inl _ => existsb unsettable (set_entries cols entries) = true
    | inr (sets, parms) =>
        existsb unsettable (set_entries cols entries) = false /\
        sets = join ", " (map set_term (done ++ set_columns cols entries)) /\
        parms = parms0 ++ map (set_value moment_format) (set_entries cols entries)
    end.
Proof.
  intros A. induction entries as [|kv rest IH]; intros done parms0.
  - simpl. rewrite !app_nil_r. now repeat split.
  - cbn [fold_left set_columns set_entries flat_map]. unfold update_step at 2.
    fold (set_entries cols rest). fold (set_columns cols rest).
    destruct (find_column (List.filter (fun c => negb (pk c)) cols) (fst kv)) as [col|] eqn:F;
      [|exact (IH done parms0)].
    destruct (find_column_named _ _ _ F) as [Hin _].
    apply filter_In in Hin. destruct Hin as [Hin _].
    rewrite (versioned_flagged o col (proj1 (Forall_forall _ _) A col Hin)).
    destruct (flagged col) eqn:Fl; [exact (IH done parms0)|].
    cbn [app existsb map].
    destruct (unsettable (col, snd kv)) eqn:U.
    + destruct (transform_unsettable col (snd kv) U) as [e ->].
      now rewrite update_fold_error.
    + destruct (transform_set_value col (snd kv) U) as (w & -> & W).
      change (column col +++ "=?") with (set_term col).
      rewrite <- (join_snoc ", " (map set_term done) (set_term col)
                    (set_terms_nonempty done)).
      change (map set_term done ++ [set_term col]) with
        (map set_term done ++ map set_term [col]).
      rewrite <- map_app, W.
      specialize (IH (done ++ [col]) (parms0 ++ [set_value moment_format (col, snd kv)])).
      destruct (fold_left _ rest _) as [e|[sets parms]]; [exact IH|].
      destruct IH as (Hx & Hs & Hp). rewrite <- app_assoc in Hs, Hp.
      cbn [orb]. now repeat split.
Qed.

Lemma key_terms_nonempty (cs : list column_meta) :
  Forall (fun x => x <> "") (map key_term cs).
Proof.
  apply Forall_forall. intros t Ht. apply in_map_iff in Ht.
  destruct Ht as (c & <- & _). now apply append_nonempty_r.
Qed.

(** The loop of [update] and [deleteOne] over the primary-key columns. *)
Lemma pk_where_fold (o : obj) (pks : list column_meta) :
  forall (done : list column_meta) (parms0 : list value),
    fold_left (pk_where_step o) pks (join " AND " (map key_term done), parms0)
      = (join " AND " (map key_term (done ++ pks)),
         parms0 ++ map (fun c => prop o (column c)) pks).
Proof.
  induction pks as [|c rest IH]; intros done parms0.
  - simpl. now rewrite !app_nil_r.
  - cbn [fold_left]. unfold pk_where_step at 2.
    change (column c +++ "=?") with (key_term c).
    rewrite <- (join_snoc " AND " (map key_term done) (key_term c)
                  (key_terms_nonempty done)).
    change (map key_term done ++ [key_term c])
      with (map key_term done ++ map key_term [c]).
    rewrite <- map_app, IH, <- !app_assoc. reflexivity.
Qed.

(** C5, as stated, fails on "issues no SQL": [update] awaits
    [fetchMetadata] before it looks at the entity, so on a gateway that has
    not loaded its metadata the schema query is sent before the error. *)
Lemma update_sends_schema_query :
  fst (update Sample.moment_stub Sample.customer 0 VUndefined (initial_state [[]]))
    = Rejected (JsError Error "No data was provided to update.") /\
  issued (snd (update Sample.moment_stub Sample.customer 0 VUndefined (initial_state [[]])))
    = [("SHOW COLUMNS FROM customer;", [])] /\
  issued (snd (update Sample.moment_stub Sample.customer 0 VUndefined (initial_state [[]])))
    <> issued (initial_state [[]]).
Proof. repeat split. discriminate. Qed.

(** C5 (amended): for every entity passed to [update], on a gateway whose
    cached metadata, if any, came from [fetchMetadata]:
    - no SET term with a placeholder is generated for a column flagged as
      created-timestamp, updated-timestamp or version, whatever the entity
      carries;
    - when the entity has a property to set and none of these is an empty
      string for a strict column, [update] sends, after the statements of
      [fetchMetadata], exactly one UPDATE: its SET list is the terms of the
      settable columns followed by the versioning clause, its WHERE clause
      the primary-key terms, its parameters the values to set and then the
      key values; and [update] fulfils with the entity when the pool
      acknowledges;
    - the versioning clause sets the updated-timestamp column to
      CURRENT_TIMESTAMP and the version column to itself plus one;
    - with no settable property, [update] rejects with its error and sends
      no UPDATE: the statements issued are those of [fetchMetadata], the
      schema query on first use and nothing otherwise;
    - in every case [update] has sent the statements of [fetchMetadata] and
      at most that one UPDATE. *)
Theorem update_statement (dao : Dao) (save : ref) (opts : value) (st : state) :
  consistent dao st ->
  let st1 := snd (fetchMetadata dao st) in
  let cols := known_columns dao st in
  let o := nth save (heap st) [] in
  let set := set_columns cols (each_entries o) in
  let sets := join ", " (map set_term set) +++ versioning (dao_options dao) in
  let stmt :=
    (add_where (("UPDATE " +++ table dao +++ " SET ") +++ sets)
       (join " AND " (map key_term (List.filter pk cols))),
     map (set_value moment_format) (set_entries cols (each_entries o))
       ++ map (fun c => prop o (column c)) (List.filter pk cols)) in
  (forall c, In c cols -> flagged c = true -> ~ In (column c) (map column set)) /\
  (set = [] ->
   exists st',
     update moment_format dao save opts st
       = (Rejected (JsError Error "No data was provided to update."), st') /\
     issued st' = issued st1 /\ heap st' = heap st) /\
  (set <> [] ->
   existsb unsettable (set_entries cols (each_entries o)) = false ->
   exists r st',
     update moment_format dao save opts st = (r, st') /\
     issued st' = issued st1 ++ [stmt] /\
     (forall res, pool dao (issued st1) stmt = inr res -> r = Fulfilled save) /\
     (forall d, pool dao (issued st1) stmt = inl d -> r = Rejected (DriverError d))) /\
  (forall r st',
     update moment_format dao save opts st = (r, st') ->
     (issued st' = issued st1 /\ exists e, r = Rejected e) \/
     issued st' = issued st1 ++ [stmt]) /\
  (forall c, In c cols -> column c <> "" ->
     (is_updated_timestamp c = true ->
      exists rest,
        versioning (dao_options dao) = ", " +++ column c +++ "=CURRENT_TIMESTAMP" +++ rest) /\
     (is_updated_version c = true ->
      exists before,
        versioning (dao_options dao)
          = before +++ ", " +++ column c +++ "=" +++ column c +++ "+1")).
Proof.
  intros C. cbv zeta.
  pose proof (fetchMetadata_consistent dao st C) as A.
  pose proof (update_fold_values (dao_options dao) (known_columns dao st) A
                (each_entries (nth save (heap st) [])) [] []) as Hfold.
  simpl in Hfold.
  pose proof (pk_where_fold (nth save (heap st) [])
                (List.filter pk (known_columns dao st)) []) as W.
  simpl in W.
  split; [|split; [|split; [|split]]].
  - intros c Hc Fl Hin. apply in_map_iff in Hin. destruct Hin as (c' & Hname & Hc').
    apply set_columns_in in Hc'. destruct Hc' as (Hin' & _ & Fl' & _).
    rewrite (flagged_by_name (dao_options dao) c c') in Fl; try congruence;
      now apply (proj1 (Forall_forall _ _) A).
  - intros Hset.
    unfold update, log_and_rethrow, try_catch, bind. run_fetch dao st.
    unfold get_metadata, deref. simpl.
    rewrite filter_metadata_known, fetchMetadata_heap.
    destruct (fold_left _ _ _) as [e|[sets parms]].
    + rewrite <- set_entries_columns in Hset. apply map_eq_nil in Hset.
      rewrite Hset in Hfold. discriminate.
    + destruct Hfold as (_ & -> & _). rewrite Hset. simpl.
      eexists. split; [reflexivity|]. simpl. split; [reflexivity|apply fetchMetadata_heap].
  - intros Hset Hx.
    unfold update, log_and_rethrow, try_catch, bind. run_fetch dao st.
    unfold get_metadata, deref. simpl.
    rewrite !filter_metadata_known, fetchMetadata_heap.
    destruct (fold_left _ _ _) as [e|[sets parms]]; [congruence|].
    destruct Hfold as (_ & -> & ->). simpl.
    destruct (String.eqb _ "") eqn:Q.
    + apply String.eqb_eq in Q.
      apply (join_empty ", " _ (set_terms_nonempty _)) in Q.
      apply map_eq_nil in Q. contradiction.
    + rewrite W.
      unfold sqlCommand. destruct (pool dao _ _) as [d|res]; simpl;
        eexists; eexists; (split; [reflexivity|]); simpl;
        (split; [reflexivity|]); split; intros x; congruence.
  - intros r st'.
    unfold update, log_and_rethrow, try_catch, bind. run_fetch dao st.
    unfold get_metadata, deref. simpl.
    rewrite !filter_metadata_known, fetchMetadata_heap.
    destruct (fold_left _ _ _) as [e|[sets parms]].
    + simpl. intros H. inversion H; subst. left. split; [reflexivity|now eexists].
    + destruct Hfold as (_ & -> & ->). simpl.
      destruct (String.eqb _ "").
      * simpl. intros H. inversion H; subst. left. split; [reflexivity|now eexists].
      * rewrite W.
        unfold sqlCommand. destruct (pool dao _ _) as [d|res]; simpl;
          intros H; inversion H; subst; right; reflexivity.
  - intros c Hc Hne.
    destruct (proj1 (Forall_forall _ _) A c Hc) as (U & _ & V).
    unfold versioning. split.
    + intros Hu. rewrite Hu in U.
      destruct (updated_timestamp_column (dao_options dao)) as [s|]; [|discriminate].
      simpl in U. symmetry in U. apply String.eqb_eq in U. subst s.
      simpl. rewrite (eqb_empty_false _ Hne). simpl.
      eexists. rewrite !append_assoc. reflexivity.
    + intros Hv. rewrite Hv in V.
      destruct (version_number_column (dao_options dao)) as [s|]; [|discriminate].
      simpl in V. symmetry in V. apply String.eqb_eq in V. subst s.
      simpl. rewrite (eqb_empty_false _ Hne). simpl.
      eexists. reflexivity.
Qed.

End UpdateFacts.

Lemma initial_consistent (dao : Dao) (objects : list obj) :
  consistent dao (initial_state objects).
Proof. intros cols H. discriminate. Qed.

Lemma update_statement_witness :
  consistent Sample.customer (initial_state [Sample.stamped]) /\
  fst (update Sample.moment_stub Sample.customer 0 VUndefined
         (initial_state [Sample.stamped]))
    = Rejected (JsError Error "No data was provided to update.") /\
  fst (update Sample.moment_stub Sample.customer 0 VUndefined
         (initial_state [Sample.renamed]))
    = Fulfilled 0 /\
  issued (snd (update Sample.moment_stub Sample.customer 0 VUndefined
                 (initial_state [Sample.renamed])))
    = [("SHOW COLUMNS FROM customer;", []);
       ("UPDATE customer SET name=?, updated=CURRENT_TIMESTAMP, version=version+1 WHERE id=?",
        [VStr "Acme"; VNum 5])].
Proof.
  split; [apply initial_consistent|].
  destruct (update_statement Sample.moment_stub Sample.customer 0 VUndefined
              (initial_state [Sample.stamped]) (initial_consistent _ _))
    as (_ & H & _).
  destruct (H eq_refl) as (st' & E & _).
  destruct (update_statement Sample.moment_stub Sample.customer 0 VUndefined
              (initial_state [Sample.renamed]) (initial_consistent _ _))
    as (_ & _ & P & _).
  destruct (P ltac:(discriminate) eq_refl) as (r & st2 & E2 & I2 & F2 & _).
  rewrite E, E2. cbn [fst snd].
  split; [reflexivity|]. split; [|exact I2].
  exact (F2 (OkPacket 1 (Some 42%Z)) eq_refl).
Defined.

(** The entity [{id: 5, name: 'Acme', updated: ..., version: 3}]: its name
    is set, its [updated] and [version] are left to the versioning clause,
    its key goes to the WHERE clause. *)
Example update_renamed :
  issued (snd (update Sample.moment_stub Sample.customer 0 VUndefined
                 (initial_state [Sample.renamed])))
    = [("SHOW COLUMNS FROM customer;", []);
       ("UPDATE customer SET name=?, updated=CURRENT_TIMESTAMP, version=version+1 WHERE id=?",
        [VStr "Acme"; VNum 5])].
Proof. reflexivity. Qed.

(** *** create *)

Section CreateFacts.

Variable moment_format : value -> string.

Lemma create_fold_error (not_ai_pks : list column_meta)
    (entries : list (key * value)) (e : exn) :
  fold_left (create_step moment_format not_ai_pks) entries (inl e) = inl e.
Proof. induction entries as [|kv rest IH]; simpl; [reflexivity|exact IH]. Qed.

Lemma value_terms_nonempty (cs : list column_meta) :
  Forall (fun x => x <> "") (map value_term cs).
Proof.
  apply Forall_forall. intros t Ht. apply in_map_iff in Ht.
  destruct Ht as (c & <- & _). discriminate.
Qed.

(** The loop of [create] over the entity: the column list and the VALUES
    list are the joined names and placeholders of [insert_columns]. *)
Lemma create_fold (cols : list column_meta) :
  Forall (fun c => column c <> "") cols ->
  forall (entries : list (key * value)) (done : list column_meta) (parms0 : list value),
    Forall (fun x => x <> "") (map column done) ->
    match fold_left (create_step moment_format (List.filter not_ai_pk cols)) entries
            (inr (join ", " (map column done), join ", " (map value_term done), parms0)) with
    | inl _ => insert_columns cols entries <> []
    | inr (cs, vs, ps) =>
        cs = join ", " (map column (done ++ insert_columns cols entries)) /\
        vs = join ", " (map value_term (done ++ insert_columns cols entries)) /\
        exists vals,
          ps = parms0 ++ vals /\
          List.length vals = List.length (insert_columns cols entries)
    end.
Proof.
  intros N. induction entries as [|kv rest IH]; intros done parms0 D.
  - simpl. rewrite app_nil_r. repeat split. exists []. now rewrite app_nil_r.
  - cbn [fold_left insert_columns flat_map]. unfold create_step at 2.
    fold (insert_columns cols rest).
    destruct (find_column (List.filter not_ai_pk cols) (fst kv)) as [col|] eqn:F;
      [|exact (IH done parms0 D)].
    destruct (find_column_named _ _ _ F) as [Hin _].
    apply filter_In in Hin. destruct Hin as [Hin _].
    destruct (_transformToSafeValue moment_format (snd kv) col) as [e|v].
    + rewrite create_fold_error. discriminate.
    + rewrite <- (join_snoc ", " (map column done) (column col) D).
      change "?" with (value_term col).
      rewrite <- (join_snoc ", " (map value_term done) (value_term col)
                    (value_terms_nonempty done)).
      change (map column done ++ [column col]) with (map column done ++ map column [col]).
      change (map value_term done ++ [value_term col])
        with (map value_term done ++ map value_term [col]).
      rewrite <- !map_app.
      assert (D' : Forall (fun x => x <> "") (map column (done ++ [col]))).
      { rewrite map_app. apply Forall_app. split; [exact D|].
        constructor; [|constructor]. exact (proj1 (Forall_forall _ _) N col Hin). }
      specialize (IH (done ++ [col]) (parms0 ++ [v]) D').
      destruct (fold_left _ rest _) as [e|[[cs vs] ps]]; [discriminate|].
      destruct IH as (Hc & Hv & vals & Hp & Hl).
      rewrite <- app_assoc in Hc, Hv. split; [exact Hc|]. split; [exact Hv|].
      exists (v :: vals). rewrite Hp, <- app_assoc. simpl. now rewrite Hl.
Qed.

Lemma insert_columns_in (cols : list column_meta) (entries : list (key * value))
    (c : column_meta) :
  In c (insert_columns cols entries) ->
  In c cols /\ pk c && autoincrement c = false /\
  exists v, In (KName (column c), v) entries.
Proof.
  unfold insert_columns. intros H. apply in_flat_map in H.
  destruct H as ([k v] & Hkv & Hc). simpl in Hc.
  destruct (find_column _ k) as [col|] eqn:F; [|contradiction].
  destruct Hc as [->|[]].
  destruct (find_column_named _ _ _ F) as [Hin ->].
  apply filter_In in Hin. destruct Hin as [Hin Hpk].
  repeat split; try assumption.
  - unfold not_ai_pk in Hpk. now destruct (pk c), (autoincrement c).
  - now exists v.
Qed.

Lemma find_first_filtered {A} (f : A -> bool) (l : list A) (x : A) (rest : list A) :
  List.filter f l = x :: rest -> List.find f l = Some x.
Proof.
  induction l as [|a l IH]; simpl; [discriminate|].
  destruct (f a); [now intros [= ->]|exact IH].
Qed.

Lemma nth_replace_nth {A} (l : list A) (n : nat) (a d : A) :
  n < List.length l -> nth n (replace_nth n l a) d = a.
Proof.
  revert n. induction l as [|x l IH]; intros [|n] H; simpl in *; try lia; [reflexivity|].
  apply IH. lia.
Qed.

Lemma nth_replace_other {A} (l : list A) (n m : nat) (a d : A) :
  n <> m -> nth m (replace_nth n l a) d = nth m l d.
Proof.
  revert n m. induction l as [|x l IH]; intros [|n] [|m] H; simpl; try reflexivity;
    try congruence.
  apply IH. congruence.
Qed.

(** C6, as stated, fails on the override: [create] of lib/mysql/dao.js never
    reads its [opts], so whatever is passed, [explicit_pk] included, the
    autoincrement key [id] stays out of the INSERT. *)
Lemma create_has_no_override :
  ~ exists opts : value,
      issued (snd (create Sample.moment_stub Sample.customer 0 opts
                     (initial_state [Sample.keyed])))
        <> [("SHOW COLUMNS FROM customer;", []);
            ("INSERT INTO customer (name) VALUES (?);", [VStr "Acme"])].
Proof. intros [opts H]. apply H. reflexivity. Qed.

(** C6 (amended): [create(entity)] builds its INSERT from the entity
    properties that name a known column which is no autoincrement primary
    key, in the order of the entity, one placeholder and one parameter each;
    the [opts] argument is not read, so nothing overrides this. When the
    pool acknowledges the INSERT with affected rows and a generated id, both
    positive, and the table has exactly one autoincrement primary-key
    column, [create] fulfils with the entity it was given, whose property of
    that column's name now holds the id; the caller's other objects are
    untouched. Column names are non-empty, as mysql has them. *)
Theorem create_statement (dao : Dao) (save : ref) (opts : value) (st : state) :
  Forall (fun c => column c <> "") (known_columns dao st) ->
  let st1 := snd (fetchMetadata dao st) in
  let cols := known_columns dao st in
  let o := nth save (heap st) [] in
  let ins := insert_columns cols (each_entries o) in
  let sql := "INSERT INTO " +++ table dao +++ " (" +++ join ", " (map column ins)
             +++ ") VALUES (" +++ join ", " (map value_term ins) +++ ");" in
  (forall c, In c ins ->
     In c cols /\ pk c && autoincrement c = false /\
     exists v, In (KName (column c), v) (each_entries o)) /\
  (forall r st',
     create moment_format dao save opts st = (r, st') ->
     (issued st' = issued st1 /\ exists e, r = Rejected e) \/
     (exists vals,
        List.length vals = List.length ins /\ issued st' = issued st1 ++ [(sql, vals)])) /\
  (forall r st' vals n id keyCol,
     create moment_format dao save opts st = (r, st') ->
     issued st' = issued st1 ++ [(sql, vals)] ->
     pool dao (issued st1) (sql, vals) = inr (OkPacket n (Some id)) ->
     (0 < n)%Z -> (0 < id)%Z ->
     List.filter (fun c => autoincrement c && pk c) cols = [keyCol] ->
     save < List.length (heap st) ->
     r = Fulfilled save /\
     nth save (heap st') [] = set_prop o (column keyCol) (VNum id) /\
     forall other, other <> save -> nth other (heap st') [] = nth other (heap st) []) /\
  (forall opts', create moment_format dao save opts' st
                 = create moment_format dao save opts st).
Proof.
  intros N. cbv zeta.
  pose proof (create_fold (known_columns dao st) N
                (each_entries (nth save (heap st) [])) [] [] (Forall_nil _)) as Hfold.
  simpl in Hfold.
  split; [|split; [|split]].
  - intros c Hc. now apply insert_columns_in.
  - intros r st'.
    unfold create, log_and_rethrow, try_catch, bind. run_fetch dao st.
    unfold get_metadata, deref. simpl.
    rewrite !filter_metadata_known, fetchMetadata_heap.
    destruct (fold_left _ _ _) as [e|[[cs vs] ps]].
    + simpl. intros H. inversion H; subst. left. split; [reflexivity|now eexists].
    + destruct Hfold as (-> & -> & vals & -> & Hlen). simpl.
      unfold sqlCommand. destruct (pool dao _ _) as [d|res]; simpl.
      * intros H; inversion H; subst. right. exists vals. now split.
      * destruct (generated_id res) as [id|]; simpl;
          [destruct (key_column _) as [kc|]; simpl|];
          intros H; inversion H; subst; right; exists vals; now split.
  - intros r st' vals n id keyCol.
    unfold create, log_and_rethrow, try_catch, bind. run_fetch dao st.
    unfold get_metadata, deref. simpl.
    rewrite !filter_metadata_known, fetchMetadata_heap.
    destruct (fold_left _ _ _) as [e|[[cs vs] ps]].
    + simpl. intros H I. inversion H; subst. simpl in I.
      rewrite <- (app_nil_r (issued _)) in I at 1. apply app_inv_head in I. discriminate.
    + destruct Hfold as (-> & -> & vals' & -> & Hlen). simpl.
      intros H I Hpool Hn Hid Hkey Hsave.
      assert (Hkc : key_column (metadata (snd (fetchMetadata dao st))) = Some keyCol).
      { unfold key_column, known_columns in *.
        destruct (metadata (snd (fetchMetadata dao st))) as [cols|]; [|discriminate].
        now apply find_first_filtered with (rest := []). }
      unfold sqlCommand in H.
      assert (Hv : vals' = vals).
      { destruct (pool dao _ (_, vals')) as [d|res]; simpl in H.
        - inversion H; subst. simpl in I. apply app_inv_head in I. congruence.
        - destruct (generated_id res) as [id'|]; simpl in H;
            [destruct (key_column _) as [kc|]; simpl in H|];
            inversion H; subst; simpl in I; apply app_inv_head in I; congruence. }
      subst vals'. rewrite Hpool in H. simpl in H.
      apply Z.ltb_lt in Hn, Hid. rewrite Hn, Hid in H. simpl in H.
      rewrite Hkc in H. simpl in H. inversion H; subst. simpl.
      rewrite fetchMetadata_heap.
      split; [reflexivity|]. split.
      * now apply nth_replace_nth.
      * intros other Ho. apply nth_replace_other. congruence.
  - reflexivity.
Qed.

End CreateFacts.

Lemma create_statement_witness :
  fst (create Sample.moment_stub Sample.customer 0 VUndefined (initial_state [Sample.keyed]))
    = Fulfilled 0 /\
  nth 0 (heap (snd (create Sample.moment_stub Sample.customer 0 VUndefined
                      (initial_state [Sample.keyed])))) []
    = [("id", VNum 42); ("name", VStr "Acme")].
Proof.
  assert (N : Forall (fun c => column c <> "")
                (known_columns Sample.customer (initial_state [Sample.keyed]))).
  { repeat constructor; discriminate. }
  destruct (create_statement Sample.moment_stub Sample.customer 0 VUndefined
              (initial_state [Sample.keyed]) N) as (_ & _ & H & _).
  destruct (H _ _ [VStr "Acme"] 1%Z 42%Z
              (mkColumn "id" "int(11)" true false VNull true false false false)
              (surjective_pairing _) eq_refl eq_refl eq_refl eq_refl eq_refl
              (Nat.lt_0_succ 0)) as (Hr & Hh & _).
  split; [exact Hr|exact Hh].
Defined.

End GatewayFacts.

(** ** The later copy of the gateway *)

Module Gateway4Facts.
Import Gateway.

(** In the later copy, [create] without options leaves the autoincrement key
    out, as above, and [{explicit_pk: true}] brings it in. *)
Lemma explicit_pk_includes_key :
  issued (snd (Gateway4.create Sample.customer 0 VUndefined (initial_state [Sample.keyed])))
    = [("SHOW COLUMNS FROM customer;", []);
       ("INSERT INTO customer (name) VALUES (?);", [VStr "Acme"])] /\
  issued (snd (Gateway4.create Sample.customer 0 Sample.explicit_pk
                 (initial_state [Sample.keyed])))
    = [("SHOW COLUMNS FROM customer;", []);
       ("INSERT INTO customer (id, name) VALUES (?, ?);", [VNum 7; VStr "Acme"])].
Proof. split; reflexivity. Qed.

End Gateway4Facts.

(** * Further properties *)

(** ** The criteria builder *)

Module CriteriaMore.
Import Criteria CriteriaFacts.

Lemma apply_call_flags (c : call) (this : CriteriaHelper) :
  omitNull (apply_call this c) = omitNull this /\
  omitEmpty (apply_call this c) = omitEmpty this.
Proof.
  destruct c; simpl;
    unfold and_, or_, where_, _where, andGroup, orGroup, groupEnd, orderBy;
    repeat match goal with
           | |- context [if ?b then _ else _] => destruct b
           end; simpl; now split.
Qed.

Lemma skipped_identity (c : call) (this : CriteriaHelper) :
  truthy (omitNull this) = true -> truthy (omitEmpty this) = true ->
  skipped c = true -> apply_call this c = this.
Proof.
  intros HN HE. destruct c as [n o v|n o v|b n o v| | | |cols]; simpl; try discriminate;
    unfold and_, or_, where_, _where, orderBy; intros S; try now rewrite S.
  all: apply andb_prop in S; destruct S as [U Em];
    rewrite U, Em, HE, !andb_true_r, orb_true_r; reflexivity.
Qed.

(** X1: A chain with the dropped calls taken out builds the same helper: callers
    may hand optional request parameters to [and]/[or] unfiltered. A call is
    dropped when it is a binary clause or an [orderBy] whose argument is
    undefined, null, the empty string or another non-array of length 0. An
    empty array is not dropped: [orderBy([])] stores the empty array, and a
    binary clause with [[]] renders its placeholder and binds [[]]. *)
Theorem skipped_calls_vanish (opts : value) (calls : list call) :
  chain (constructor opts) calls
    = chain (constructor opts) (List.filter (fun c => negb (skipped c)) calls) /\
  (forall v, skipped (OrderBy v) = true <->
     v = VUndefined \/ v = VNull \/ v = VStr "" \/
     exists o, v = VObj o /\ prop o "length" = VNum 0) /\
  (forall items this,
     queryOptions (apply_call this (OrderBy (VArr items)))
       = set_prop (queryOptions this) "orderBy" (VArr items)) /\
  (forall bool name items this,
     parms (apply_call this (Where bool name "=" (VArr items)))
       = parms this ++ [VArr items]).
Proof.
  split; [|split; [|split]].
  - destruct (constructor_truthy opts) as [HN HE].
    revert HN HE. generalize (constructor opts).
    induction calls as [|c calls IH]; intros this HN HE; [reflexivity|].
    destruct (apply_call_flags c this) as [FN FE].
    cbn [List.filter]. destruct (skipped c) eqn:S; cbn [negb].
    + unfold chain in *. cbn [fold_left]. rewrite (skipped_identity c this HN HE S).
      now apply IH.
    + unfold chain in *. cbn [fold_left]. apply IH; congruence.
  - intros v. cbn [skipped]. unfold isEmpty. split.
    + destruct v as [| |b|n|s|items|o]; simpl; try discriminate; auto.
      * destruct s; [auto|discriminate].
      * intros H. right. right. right. exists o. split; [reflexivity|].
        destruct (prop o "length") as [| |b|n|s|items|o']; try discriminate.
        now destruct n.
    + intros [->|[->|[->|(o & -> & L)]]]; try reflexivity. simpl. now rewrite L.
  - reflexivity.
  - intros bool name items this.
    cbn [apply_call]. unfold where_, _where. simpl.
    now destruct (fresh this).
Qed.

Lemma upper_ascii_idem (c : ascii) : upper_ascii (upper_ascii c) = upper_ascii c.
Proof. destruct c as [[] [] [] [] [] [] [] []]; reflexivity. Qed.

Lemma toUpperCase_idem (s : string) : toUpperCase (toUpperCase s) = toUpperCase s.
Proof.
  induction s as [|c s IH]; simpl; [reflexivity|].
  now rewrite upper_ascii_idem, IH.
Qed.

(** X2: Operators are matched in any letter case: a call with an operator and
    the call with its upper case build the same helper. A unary operator,
    [is null] or [Is Not Null] as well as [IS NULL], renders the name and
    the upper-cased operator with no placeholder and no parameter, whatever
    the value passed and whatever the omit flags. *)
Theorem operators_fold_case (bool name oper : string) (v : value) (this : CriteriaHelper) :
  _where bool name oper v this = _where bool name (toUpperCase oper) v this /\
  (unary (toUpperCase oper) = true ->
   parms (_where bool name oper v this) = parms this /\
   whereClause (_where bool name oper v this) =
     whereClause this +++ (if fresh this then "" else " " +++ bool +++ " ")
       +++ name +++ " " +++ toUpperCase oper /\
   forall v', _where bool name oper v' this = _where bool name oper v this).
Proof.
  split.
  - unfold _where. now rewrite toUpperCase_idem.
  - intros U. unfold _where. rewrite U. simpl.
    repeat split; destruct (fresh this); simpl; rewrite ?append_assoc; reflexivity.
Qed.

Lemma operators_fold_case_witness :
  whereClause (and_ "deleted" "is null" (VNum 5) (and_ "x" "=" (VNum 1) (constructor VUndefined)))
    = "x =? AND deleted IS NULL" /\
  parms (and_ "deleted" "is null" (VNum 5) (and_ "x" "=" (VNum 1) (constructor VUndefined)))
    = [VNum 1].
Proof.
  destruct (operators_fold_case "AND" "deleted" "is null" (VNum 5)
              (and_ "x" "=" (VNum 1) (constructor VUndefined))) as [_ H].
  destruct (H eq_refl) as (Hp & Hw & _).
  split; [exact Hw|exact Hp].
Defined.

Lemma length_append (a b : string) :
  String.length (a +++ b) = String.length a + String.length b.
Proof. induction a as [|x a IH]; simpl; [reflexivity|now rewrite IH]. Qed.

Lemma substring_last (s : string) (c : ascii) :
  String.substring (String.length s) 1 (s +++ String c "") = String c "".
Proof. induction s as [|x s IH]; simpl; [reflexivity|exact IH]. Qed.

Lemma endsWith_last (s : string) (c : ascii) :
  endsWith (s +++ String c "") "(" = Ascii.eqb c "(".
Proof.
  unfold endsWith. rewrite length_append. cbn [String.length].
  replace (String.length s + 1 - 1) with (String.length s) by lia.
  rewrite substring_last.
  replace (1 <=? String.length s + 1)%nat with true
    by (symmetry; apply Nat.leb_le; lia).
  cbn [andb String.eqb]. now destruct (Ascii.eqb c "(").
Qed.

Lemma fresh_after (this : CriteriaHelper) (full text : string) (c : ascii) :
  full = text +++ String c "" ->
  Ascii.eqb c "(" = false ->
  fresh (append_clause this full) = false.
Proof.
  intros -> Hc. unfold fresh, append_clause. cbn [whereClause]. rewrite <- append_assoc.
  rewrite endsWith_last, Hc, orb_false_r.
  apply String.eqb_neq. now apply append_nonempty_r.
Qed.

Lemma fresh_push (this : CriteriaHelper) (v : value) :
  fresh (push_parm this v) = fresh this.
Proof. reflexivity. Qed.

Lemma placeholder_last (oper : string) :
  exists text c, placeholder oper = text +++ String c "" /\ Ascii.eqb c "(" = false.
Proof.
  unfold placeholder. destruct (String.eqb oper "LIKE").
  - now exists " ", "?"%char.
  - destruct (includes oper "IN"); [now exists "(?", ")"%char|now exists "", "?"%char].
Qed.

Lemma unary_last (oper : string) :
  unary oper = true ->
  exists text c, oper = text +++ String c "" /\ Ascii.eqb c "(" = false.
Proof.
  unfold unary. intros U. apply orb_prop in U.
  destruct U as [U|U]; apply String.eqb_eq in U; subst.
  - now exists "IS NOT NUL", "L"%char.
  - now exists "IS NUL", "L"%char.
Qed.

(** A call of [_where] changes nothing or leaves a clause that is not fresh. *)
Lemma where_unchanged_or_not_fresh (bool name oper : string) (v : value)
    (this : CriteriaHelper) :
  _where bool name oper v this = this \/ fresh (_where bool name oper v this) = false.
Proof.
  unfold _where.
  destruct (negb (unary (toUpperCase oper)) && _); [now left|right].
  destruct (unary (toUpperCase oper)) eqn:U.
  - destruct (unary_last _ U) as (text & c & E & Hc). rewrite E.
    destruct (fresh this).
    + apply (fresh_after this _ (name +++ " " +++ text) c); [|exact Hc].
      now rewrite !append_assoc.
    + apply (fresh_after this _ (" " +++ bool +++ " " +++ name +++ " " +++ text) c);
        [|exact Hc].
      now rewrite !append_assoc.
  - rewrite fresh_push.
    destruct (placeholder_last (toUpperCase oper)) as (text & c & E & Hc).
    now apply (fresh_after _ _ text c).
Qed.

(** X3: Where the connective goes. On a fresh clause (empty, or just after an
    opening parenthesis) the connective passed is not used: [and], [or] and
    [where] with any connective build the same helper. And a call that
    renders leaves a clause that is not fresh, whatever the column name and
    operator, so the clause after it always gets its connective. *)
Theorem connective_placement (bool name oper : string) (v : value) (this : CriteriaHelper) :
  (fresh this = true ->
   forall bool', _where bool' name oper v this = _where bool name oper v this) /\
  (_where bool name oper v this = this \/ fresh (_where bool name oper v this) = false).
Proof.
  split.
  - intros F bool'. unfold _where. now rewrite F.
  - apply where_unchanged_or_not_fresh.
Qed.

Lemma connective_placement_witness :
  or_ "a" "=" (VNum 1) (andGroup (constructor VUndefined))
    = and_ "a" "=" (VNum 1) (andGroup (constructor VUndefined)).
Proof.
  destruct (connective_placement "AND" "a" "=" (VNum 1) (andGroup (constructor VUndefined)))
    as [H _].
  exact (H eq_refl "OR").
Defined.

Lemma count_char_app (c : ascii) (a b : string) :
  count_char c (a +++ b) = count_char c a + count_char c b.
Proof.
  induction a as [|x a IH]; simpl; [reflexivity|]. rewrite IH. lia.
Qed.

Lemma upper_ascii_open (x : ascii) : Ascii.eqb (upper_ascii x) "(" = Ascii.eqb x "(".
Proof. destruct x as [[] [] [] [] [] [] [] []]; reflexivity. Qed.

Lemma upper_ascii_close (x : ascii) : Ascii.eqb (upper_ascii x) ")" = Ascii.eqb x ")".
Proof. destruct x as [[] [] [] [] [] [] [] []]; reflexivity. Qed.

Lemma count_open_toUpperCase (s : string) :
  count_char "(" (toUpperCase s) = count_char "(" s.
Proof.
  induction s as [|x s IH]; simpl; [reflexivity|].
  now rewrite upper_ascii_open, IH.
Qed.

Lemma count_close_toUpperCase (s : string) :
  count_char ")" (toUpperCase s) = count_char ")" s.
Proof.
  induction s as [|x s IH]; simpl; [reflexivity|].
  now rewrite upper_ascii_close, IH.
Qed.

Lemma placeholder_balanced (oper : string) :
  count_char "(" (placeholder oper) = count_char ")" (placeholder oper).
Proof.
  unfold placeholder. destruct (String.eqb oper "LIKE"); [reflexivity|].
  destruct (includes oper "IN"); reflexivity.
Qed.

Ltac count_parens :=
  repeat first [rewrite count_char_app | progress simpl];
  rewrite ?count_open_toUpperCase, ?count_close_toUpperCase;
  repeat match goal with
         | H : count_char _ _ = 0 |- _ => rewrite H
         end;
  rewrite ?placeholder_balanced; try lia.

Lemma where_parens (bool name oper : string) (v : value) (this : CriteriaHelper) :
  count_char "(" bool = 0 -> count_char ")" bool = 0 ->
  count_char "(" name = 0 -> count_char ")" name = 0 ->
  count_char "(" oper = 0 -> count_char ")" oper = 0 ->
  count_char "(" (whereClause (_where bool name oper v this))
    + count_char ")" (whereClause this)
  = count_char ")" (whereClause (_where bool name oper v this))
    + count_char "(" (whereClause this).
Proof.
  intros Hb1 Hb2 Hn1 Hn2 Ho1 Ho2. unfold _where.
  destruct (negb (unary (toUpperCase oper)) && _); [lia|].
  destruct (unary (toUpperCase oper)), (fresh this); simpl; count_parens.
Qed.

Lemma apply_call_parens (c : call) (this : CriteriaHelper) :
  paren_free c ->
  count_char "(" (whereClause (apply_call this c))
    + count_char ")" (whereClause this) + closes_group c
  = count_char ")" (whereClause (apply_call this c))
    + count_char "(" (whereClause this) + opens_group c.
Proof.
  intros P. unfold paren_free, spliced in P.
  destruct c as [name oper v|name oper v|bool name oper v| | | |cols]; simpl.
  - inversion P as [|? ? [Hn1 Hn2] P1]; inversion P1 as [|? ? [Ho1 Ho2] _]; subst.
    unfold and_. rewrite !Nat.add_0_r. now apply where_parens.
  - inversion P as [|? ? [Hn1 Hn2] P1]; inversion P1 as [|? ? [Ho1 Ho2] _]; subst.
    unfold or_. rewrite !Nat.add_0_r. now apply where_parens.
  - inversion P as [|? ? [Hb1 Hb2] P0]; inversion P0 as [|? ? [Hn1 Hn2] P1];
      inversion P1 as [|? ? [Ho1 Ho2] _]; subst.
    unfold where_. rewrite !Nat.add_0_r. now apply where_parens.
  - unfold andGroup. destruct (fresh this); simpl; count_parens.
  - unfold orGroup. destruct (fresh this); simpl; count_parens.
  - unfold groupEnd. simpl; count_parens.
  - unfold orderBy. destruct (isEmpty cols); simpl; lia.
Qed.

Lemma chain_parens (calls : list call) : forall this : CriteriaHelper,
  Forall paren_free calls ->
  count_char "(" (whereClause (chain this calls))
    + count_char ")" (whereClause this) + list_sum (map closes_group calls)
  = count_char ")" (whereClause (chain this calls))
    + count_char "(" (whereClause this) + list_sum (map opens_group calls).
Proof.
  induction calls as [|c calls IH]; intros this P; simpl; [lia|].
  inversion P as [|? ? Pc Pcalls]; subst.
  pose proof (apply_call_parens c this Pc) as H1.
  pose proof (IH (apply_call this c) Pcalls) as H2.
  unfold chain in *. lia.
Qed.

(** X4: The parentheses of the clause follow the group calls: when no column
    name, operator or connective holds a parenthesis, the clause has as many
    opening parentheses over closing ones as the chain has [andGroup] and
    [orGroup] calls over [groupEnd] calls (the [(?)] of IN is balanced in
    itself). So the clause is balanced exactly when every group opened is
    closed; the builder checks neither. *)
Theorem parentheses_follow_groups (opts : value) (calls : list call) :
  Forall paren_free calls ->
  count_char "(" (whereClause (chain (constructor opts) calls))
    + list_sum (map closes_group calls)
  = count_char ")" (whereClause (chain (constructor opts) calls))
    + list_sum (map opens_group calls).
Proof.
  intros P. pose proof (chain_parens calls (constructor opts) P) as H.
  simpl in H. lia.
Qed.

Lemma parentheses_follow_groups_witness :
  Forall paren_free Sample.mixed_calls /\
  count_char "(" (whereClause (chain (constructor VUndefined) Sample.mixed_calls)) = 2 /\
  count_char ")" (whereClause (chain (constructor VUndefined) Sample.mixed_calls)) = 2.
Proof.
  assert (P : Forall paren_free Sample.mixed_calls).
  { repeat constructor. }
  split; [exact P|].
  pose proof (parentheses_follow_groups VUndefined Sample.mixed_calls P) as H.
  split; [reflexivity|].
  simpl list_sum in H.
  replace (count_char "(" (whereClause (chain (constructor VUndefined) Sample.mixed_calls)))
    with 2 in H by reflexivity.
  lia.
Defined.

(** What the clause calls read of a helper. *)
Lemma apply_call_clause (c : call) (a b : CriteriaHelper) :
  whereClause a = whereClause b -> parms a = parms b ->
  omitNull a = omitNull b -> omitEmpty a = omitEmpty b ->
  whereClause (apply_call a c) = whereClause (apply_call b c) /\
  parms (apply_call a c) = parms (apply_call b c) /\
  omitNull (apply_call a c) = omitNull (apply_call b c) /\
  omitEmpty (apply_call a c) = omitEmpty (apply_call b c).
Proof.
  destruct a as [wa pa qa na ea], b as [wb pb qb nb eb]. cbn [whereClause parms omitNull omitEmpty].
  intros -> -> -> ->.
  destruct c as [n o v|n o v|bl n o v| | | |cols]; cbn [apply_call];
    unfold and_, or_, where_, _where, andGroup, orGroup, groupEnd, orderBy, fresh,
      append_clause, push_parm; cbn [whereClause parms omitNull omitEmpty queryOptions];
    repeat match goal with
           | |- context [if ?x then _ else _] => destruct x
           end; now repeat split.
Qed.

Lemma apply_call_order (cols : value) (a : CriteriaHelper) :
  whereClause (apply_call a (OrderBy cols)) = whereClause a /\
  parms (apply_call a (OrderBy cols)) = parms a /\
  omitNull (apply_call a (OrderBy cols)) = omitNull a /\
  omitEmpty (apply_call a (OrderBy cols)) = omitEmpty a.
Proof. cbn [apply_call]. unfold orderBy. now destruct (isEmpty cols). Qed.

Lemma apply_call_options (c : call) (a : CriteriaHelper) :
  is_order c = false -> queryOptions (apply_call a c) = queryOptions a.
Proof.
  destruct c as [n o v|n o v|bl n o v| | | |cols]; try discriminate; intros _;
    cbn [apply_call];
    unfold and_, or_, where_, _where, andGroup, orGroup, groupEnd, append_clause, push_parm;
    repeat match goal with
           | |- context [if ?x then _ else _] => destruct x
           end; reflexivity.
Qed.

Lemma apply_order_options (cols : value) (a b : CriteriaHelper) :
  queryOptions a = queryOptions b ->
  queryOptions (apply_call a (OrderBy cols)) = queryOptions (apply_call b (OrderBy cols)).
Proof.
  intros H. cbn [apply_call]. unfold orderBy.
  destruct (isEmpty cols); cbn [queryOptions]; now rewrite H.
Qed.

Lemma chain_separate (calls : list call) :
  forall a b c : CriteriaHelper,
    whereClause a = whereClause b -> parms a = parms b ->
    omitNull a = omitNull b -> omitEmpty a = omitEmpty b ->
    queryOptions a = queryOptions c ->
    whereClause (chain a calls)
      = whereClause (chain b (List.filter (fun x => negb (is_order x)) calls)) /\
    parms (chain a calls)
      = parms (chain b (List.filter (fun x => negb (is_order x)) calls)) /\
    queryOptions (chain a calls) = queryOptions (chain c (List.filter is_order calls)).
Proof.
  induction calls as [|x calls IH]; intros a b c W P N E Q; [now repeat split|].
  unfold chain in *. cbn [fold_left List.filter].
  destruct (is_order x) eqn:O; cbn [negb fold_left].
  - destruct x; try discriminate.
    destruct (apply_call_order columns a) as (W' & P' & N' & E').
    apply IH; try congruence. now apply apply_order_options.
  - destruct (apply_call_clause x a b W P N E) as (W' & P' & N' & E').
    apply IH; try assumption. now rewrite apply_call_options.
Qed.

Lemma options_follow_ordering (calls : list call) :
  forall (a : CriteriaHelper) (acc : option value),
    queryOptions a = match acc with Some cols => [("orderBy", cols)] | None => [] end ->
    queryOptions (chain a calls)
      = match fold_left (fun acc c =>
                           match c with
                           | OrderBy columns => if isEmpty columns then acc else Some columns
                           | _ => acc
                           end) calls acc with
        | Some cols => [("orderBy", cols)]
        | None => []
        end.
Proof.
  induction calls as [|x calls IH]; intros a acc Ha; [exact Ha|].
  unfold chain in *. cbn [fold_left]. apply IH.
  destruct (is_order x) eqn:O.
  - destruct x; try discriminate. cbn [apply_call]. unfold orderBy.
    destruct (isEmpty columns); [exact Ha|]. cbn [queryOptions]. rewrite Ha.
    now destruct acc.
  - rewrite (apply_call_options x a O). now destruct x.
Qed.

(** X5: The clause and the ordering are built apart. In a chain of clause,
    group and [orderBy] calls, an [orderBy] call may stand anywhere: the
    WHERE text and the parameters are those of the chain without its
    [orderBy] calls, and the query options are those of the [orderBy] calls
    alone. The query options hold the one entry [orderBy], with the
    argument of the last [orderBy] call that was not dropped, or nothing
    when there is no such call. A call is dropped when its argument is
    undefined, null, the empty string or another non-array of length 0; an
    empty array is not, so a later [orderBy([])] replaces an earlier order
    by the empty array. *)
Theorem order_by_is_separate (opts : value) (calls : list call) :
  let h := chain (constructor opts) calls in
  let clauses := List.filter (fun x => negb (is_order x)) calls in
  let orders := List.filter is_order calls in
  whereClause h = whereClause (chain (constructor opts) clauses) /\
  parms h = parms (chain (constructor opts) clauses) /\
  queryOptions h = queryOptions (chain (constructor opts) orders) /\
  queryOptions h = match ordering calls with
                   | Some cols => [("orderBy", cols)]
                   | None => []
                   end /\
  (forall cols items,
     ordering (calls ++ [OrderBy cols; OrderBy (VArr items)]) = Some (VArr items)) /\
  (forall cols, isEmpty cols = true -> ordering (calls ++ [OrderBy cols]) = ordering calls).
Proof.
  cbv zeta.
  destruct (chain_separate calls (constructor opts) (constructor opts) (constructor opts)
              eq_refl eq_refl eq_refl eq_refl eq_refl) as (W & P & Q).
  split; [exact W|]. split; [exact P|]. split; [exact Q|].
  split; [exact (options_follow_ordering calls (constructor opts) None eq_refl)|].
  split.
  - intros cols items. unfold ordering. rewrite fold_left_app. reflexivity.
  - intros cols E. unfold ordering. rewrite fold_left_app. cbn [fold_left]. now rewrite E.
Qed.

Lemma order_by_is_separate_witness :
  queryOptions (chain (constructor VUndefined)
                  [OrderBy (VArr [VStr "+name"]); And "a" "=" (VNum 1); OrderBy (VStr "");
                   OrderBy (VArr [])])
    = [("orderBy", VArr [])].
Proof.
  destruct (order_by_is_separate VUndefined
              [OrderBy (VArr [VStr "+name"]); And "a" "=" (VNum 1); OrderBy (VStr "");
               OrderBy (VArr [])]) as (_ & _ & _ & H & _).
  exact H.
Defined.

(** *** The earlier builder *)







End CriteriaMore.

(** ** The table gateway *)

Module GatewayMore.
Import Gateway GatewayFacts.

(** *** What every operation keeps *)

Lemma length_replace_nth {A} (l : list A) (n : nat) (a : A) :
  List.length (replace_nth n l a) = List.length l.
Proof.
  revert n. induction l as [|x l IH]; intros [|n]; simpl; try reflexivity.
  now rewrite IH.
Qed.

Lemma orderly_quiet {A} (dao : Dao) (m : M A) :
  (forall st r st', m st = (r, st') ->
     metadata st' = metadata st /\ issued st' = issued st /\
     (exists lines, console st' = console st ++ lines) /\
     List.length (heap st') = List.length (heap st) /\
     forall e, r <> Rejected (DriverError e)) ->
  orderly dao m.
Proof.
  intros Q st r st' E. destruct (Q st r st' E) as (Hm & Hi & Hc & Hh & Hr).
  split; [repeat split|split].
  - intros cols. now rewrite Hm.
  - unfold consistent. now rewrite Hm.
  - exists []. now rewrite app_nil_r.
  - exact Hc.
  - exact Hh.
  - intros e ->. now destruct (Hr e).
  - intros hist stmt e I L _ _. rewrite Hi in I. rewrite I, length_app in L. simpl in L. lia.
Qed.

Lemma orderly_ret {A} (dao : Dao) (a : A) : orderly dao (ret a).
Proof.
  apply orderly_quiet. intros st r st' [= <- <-]. repeat split; try discriminate.
  exists []. now rewrite app_nil_r.
Qed.

Lemma orderly_throw {A} (dao : Dao) (kind : error_kind) (msg : string) :
  orderly dao (@throw A (JsError kind msg)).
Proof.
  apply orderly_quiet. intros st r st' [= <- <-]. repeat split; try discriminate.
  exists []. now rewrite app_nil_r.
Qed.

Lemma orderly_lift {A} (dao : Dao) (r : exn + A) : js_only r -> orderly dao (lift r).
Proof.
  intros J. destruct r as [e|a]; simpl; [|apply orderly_ret].
  destruct (J e eq_refl) as (kind & msg & ->). apply orderly_throw.
Qed.

Lemma orderly_deref (dao : Dao) (r : ref) : orderly dao (deref r).
Proof.
  apply orderly_quiet. intros st o st' [= <- <-]. repeat split; try discriminate.
  exists []. now rewrite app_nil_r.
Qed.

Lemma orderly_get_metadata (dao : Dao) : orderly dao get_metadata.
Proof.
  apply orderly_quiet. intros st o st' [= <- <-]. repeat split; try discriminate.
  exists []. now rewrite app_nil_r.
Qed.

Lemma orderly_console_error (dao : Dao) (line : string) : orderly dao (console_error line).
Proof.
  apply orderly_quiet. intros st o st' [= <- <-]. simpl. repeat split; try discriminate.
  now exists [line].
Qed.

Lemma orderly_assign (dao : Dao) (r : ref) (k : string) (v : value) :
  orderly dao (assign r k v).
Proof.
  apply orderly_quiet. intros st o st' [= <- <-]. simpl. repeat split; try discriminate.
  - exists []. now rewrite app_nil_r.
  - apply length_replace_nth.
Qed.

Lemma orderly_sqlCommand (dao : Dao) (sql : string) (parms : list value) :
  orderly dao (sqlCommand dao sql parms).
Proof.
  intros st r st'. unfold sqlCommand.
  destruct (pool dao (issued st) (sql, parms)) as [e|res] eqn:P; intros [= <- <-]; simpl;
    (split; [repeat split; try tauto|split]).
  - now eexists.
  - exists []. now rewrite app_nil_r.
  - intros e' [= <-]. exists (issued st), (sql, parms). split; [reflexivity|].
    split; [apply Nat.le_refl|exact P].
  - intros hist stmt e' I _ _ P'. apply app_inj_tail in I. destruct I as [<- <-].
    congruence.
  - now eexists.
  - exists []. now rewrite app_nil_r.
  - discriminate.
  - intros hist stmt e' I _ _ P'. apply app_inj_tail in I. destruct I as [<- <-].
    congruence.
Qed.

Lemma orderly_fetchMetadata (dao : Dao) : orderly dao (fetchMetadata dao).
Proof.
  intros st r st' E.
  assert (Hst : st' = snd (fetchMetadata dao st)) by now rewrite E.
  assert (Hr : exists x, r = Fulfilled x).
  { destruct (fetchMetadata_run dao st) as [x Ex]. rewrite Ex in E. inversion E. now eexists. }
  destruct Hr as [x ->]. subst st'. clear E.
  pose proof (fetchMetadata_issued dao st) as HI.
  split; [repeat split|split].
  - intros cols Hc. now rewrite (fetchMetadata_loaded dao st cols Hc).
  - intros C cols Hc. pose proof (fetchMetadata_consistent dao st C) as F.
    unfold known_columns in F. now rewrite Hc in F.
  - rewrite HI. now eexists.
  - unfold fetchMetadata, try_catch, bind, get_metadata, sqlCommand.
    destruct (metadata st) as [cols|]; simpl; [exists []; now rewrite app_nil_r|].
    destruct (pool dao (issued st) (show_columns dao, [])) as [e|[items|n i]]; simpl;
      try (now eexists). exists []. now rewrite app_nil_r.
  - now rewrite fetchMetadata_heap.
  - discriminate.
  - intros hist stmt e I L N _. rewrite HI in I.
    destruct (metadata st).
    + rewrite app_nil_r in I. rewrite I, length_app in L. simpl in L. lia.
    + apply app_inj_tail in I. destruct I as [_ <-]. now destruct N.
Qed.

Lemma keeps_state_trans (dao : Dao) (a b c : state) :
  keeps_state dao a b -> keeps_state dao b c -> keeps_state dao a c.
Proof.
  intros (M1 & C1 & (m1 & I1) & (l1 & L1) & H1) (M2 & C2 & (m2 & I2) & (l2 & L2) & H2).
  repeat split; auto.
  - exists (m1 ++ m2). now rewrite I2, I1, app_assoc.
  - exists (l1 ++ l2). now rewrite L2, L1, app_assoc.
  - congruence.
Qed.

Lemma orderly_bind {A B} (dao : Dao) (m : M A) (k : A -> M B) :
  orderly dao m -> (forall a, orderly dao (k a)) -> orderly dao (bind m k).
Proof.
  intros Hm Hk st r st'. unfold bind.
  destruct (m st) as [[a|e] s1] eqn:E1.
  - intros E2. destruct (Hm _ _ _ E1) as [K1 [_ R1]].
    destruct (Hk a _ _ _ E2) as [K2 [R2a R2b]].
    split; [exact (keeps_state_trans _ _ _ _ K1 K2)|].
    destruct K1 as (_ & _ & (m1 & I1) & _). destruct K2 as (_ & _ & (m2 & I2) & _).
    split.
    + intros e' Hr. destruct (R2a e' Hr) as (hist & stmt & I & L & P).
      exists hist, stmt. split; [exact I|]. split; [|exact P].
      rewrite I1, length_app in L. lia.
    + intros hist stmt e' I L N P.
      destruct m2 as [|x m2] using rev_ind.
      * rewrite app_nil_r in I2. rewrite I2 in I.
        now specialize (R1 hist stmt e' I L N P).
      * rewrite I2, app_assoc in I. apply app_inj_tail in I. destruct I as [<- <-].
        apply (R2b (issued s1 ++ m2) x e'); try assumption.
        -- now rewrite I2, app_assoc.
        -- rewrite length_app. lia.
  - intros [= <- <-]. destruct (Hm _ _ _ E1) as [K1 [R1a R1b]].
    split; [exact K1|]. split.
    + intros e' [= ->]. now apply R1a.
    + intros hist stmt e' I L N P. specialize (R1b hist stmt e' I L N P).
      inversion R1b. reflexivity.
Qed.

Lemma orderly_log {A} (dao : Dao) (name : string) (body : M A) :
  orderly dao body -> orderly dao (log_and_rethrow dao name body).
Proof.
  intros Hb st r st'. unfold log_and_rethrow, try_catch.
  destruct (body st) as [[a|e] s1] eqn:E1.
  - intros [= <- <-]. exact (Hb _ _ _ E1).
  - unfold bind, console_error, throw. intros [= <- <-].
    destruct (Hb _ _ _ E1) as [(M1 & C1 & I1 & (l1 & L1) & H1) [Ra Rb]].
    split; [repeat split; simpl; auto|split; simpl].
    + eexists. rewrite L1, <- app_assoc. reflexivity.
    + intros e' [= ->]. now apply Ra.
    + intros hist stmt e' I L N P. now specialize (Rb hist stmt e' I L N P).
Qed.

Lemma js_only_first_count (results : query_result) : js_only (first_count results).
Proof.
  unfold first_count. destruct (first_row results); intros e [= <-]. now eexists; eexists.
Qed.

Section Folds.

Variable moment_format : value -> string.

Lemma js_only_transform (input : value) (col : column_meta) :
  js_only (_transformToSafeValue moment_format input col).
Proof.
  unfold _transformToSafeValue. intros e.
  destruct input as [| | | |[|c s]| |];
    repeat match goal with
           | |- context [if ?b then _ else _] => destruct b
           end; intros [= <-]; now eexists; eexists.
Qed.

Lemma js_only_create_fold (not_ai_pks : list column_meta) (entries : list (key * value)) :
  forall acc, js_only acc ->
    js_only (fold_left (create_step moment_format not_ai_pks) entries acc).
Proof.
  induction entries as [|kv rest IH]; intros acc J; [exact J|].
  simpl. apply IH. unfold create_step.
  destruct acc as [e|[[cols vals] parms]]; [exact J|].
  destruct (find_column not_ai_pks (fst kv)) as [col|]; [|discriminate].
  pose proof (js_only_transform (snd kv) col) as T.
  destruct (_transformToSafeValue moment_format (snd kv) col) as [e|v]; [|discriminate].
  intros e' [= <-]. now apply T.
Qed.

Lemma js_only_update_fold (o : options) (not_pks : list column_meta)
    (entries : list (key * value)) :
  forall acc, js_only acc ->
    js_only (fold_left (update_step moment_format o not_pks) entries acc).
Proof.
  induction entries as [|kv rest IH]; intros acc J; [exact J|].
  simpl. apply IH. unfold update_step.
  destruct acc as [e|[sets parms]]; [exact J|].
  destruct (find_column not_pks (fst kv)) as [col|]; [|discriminate].
  destruct (versioned o col); [discriminate|].
  pose proof (js_only_transform (snd kv) col) as T.
  destruct (_transformToSafeValue moment_format (snd kv) col) as [e|v]; [|discriminate].
  intros e' [= <-]. now apply T.
Qed.

End Folds.

Lemma js_only_from_fold (o : option obj) (cols : list column_meta) :
  forall acc, js_only acc -> js_only (fold_left (from_step o) cols acc).
Proof.
  induction cols as [|c cols IH]; intros acc J; [exact J|].
  simpl. apply IH. unfold from_step.
  destruct acc as [e|x]; [exact J|].
  destruct o as [ob|]; [|intros e [= <-]; now eexists; eexists].
  destruct (prop ob (column c)); discriminate.
Qed.

Lemma js_only_inr {A} (a : A) : js_only (@inr exn A a).
Proof. discriminate. Qed.

Ltac orderly_step :=
  cbv beta zeta;
  lazymatch goal with
  | |- orderly _ (log_and_rethrow _ _ _) => apply orderly_log
  | |- orderly _ (bind _ _) => apply orderly_bind; [|intros ?]
  | |- orderly _ (fetchMetadata _) => apply orderly_fetchMetadata
  | |- orderly _ (sqlCommand _ _ _) => apply orderly_sqlCommand
  | |- orderly _ (ret _) => apply orderly_ret
  | |- orderly _ (throw _) => apply orderly_throw
  | |- orderly _ (deref _) => apply orderly_deref
  | |- orderly _ get_metadata => apply orderly_get_metadata
  | |- orderly _ (console_error _) => apply orderly_console_error
  | |- orderly _ (assign _ _ _) => apply orderly_assign
  | |- orderly _ (deref_opt _) => unfold deref_opt
  | |- orderly _ (assign_opt _ _ _) => unfold assign_opt
  | |- orderly _ (lift _) =>
      apply orderly_lift;
      first [ apply js_only_first_count
            | apply js_only_create_fold; apply js_only_inr
            | apply js_only_update_fold; apply js_only_inr
            | apply js_only_from_fold; apply js_only_inr ]
  | |- orderly _ (if ?b then _ else _) => destruct b
  | |- orderly _ (match ?x with _ => _ end) => destruct x
  end.

Ltac orderly_tac := repeat orderly_step.

Section Orderly.

Variable moment_format : value -> string.
Variable dao : Dao.

Lemma orderly_find query opts : orderly dao (find dao query opts).
Proof. unfold find. orderly_tac. Qed.

Lemma orderly_create save_ opts : orderly dao (create moment_format dao save_ opts).
Proof. unfold create. orderly_tac. Qed.

Lemma orderly_update save_ opts : orderly dao (update moment_format dao save_ opts).
Proof. unfold update. orderly_tac. Qed.

Lemma orderly_one query opts : orderly dao (one dao query opts).
Proof. unfold one. orderly_tac. apply orderly_find. Qed.

Lemma orderly_save save_ opts : orderly dao (save moment_format dao save_ opts).
Proof.
  unfold save. apply orderly_bind.
  - orderly_tac. apply orderly_one.
  - intros [row|]; [apply orderly_update|apply orderly_create].
Qed.

(** Every operation is orderly. *)
Lemma operations_orderly {A} (m : M A) :
  operation moment_format dao m -> orderly dao m.
Proof.
  intros O. destruct O;
    try apply orderly_find; try apply orderly_create; try apply orderly_update;
    try apply orderly_one; try apply orderly_save;
    try apply orderly_sqlCommand; try apply orderly_fetchMetadata.
  all: unfold get, exists_, all, count, selectWhere, select, updateMatching, deleteOne,
         delete, deleteMatching, deleteWhere, from_; orderly_tac.
Qed.

End Orderly.

(** X6: No operation of the gateway drops or changes metadata once it is loaded,
    or breaks its consistency with the options; every operation only adds to
    the statements sent and to the console; none makes a caller object
    appear or disappear. *)
Theorem operations_keep_state (moment_format : value -> string) (dao : Dao)
    {A} (m : M A) (st : state) (r : outcome A) (st' : state) :
  operation moment_format dao m -> m st = (r, st') -> keeps_state dao st st'.
Proof.
  intros O E. exact (proj1 (operations_orderly moment_format dao m O st r st' E)).
Qed.

Lemma operations_keep_state_witness :
  keeps_state Sample.customer (Sample.loaded [Sample.renamed])
    (snd (update Sample.moment_stub Sample.customer 0 VUndefined
            (Sample.loaded [Sample.renamed]))).
Proof.
  exact (operations_keep_state Sample.moment_stub Sample.customer
           (update Sample.moment_stub Sample.customer 0 VUndefined)
           (Sample.loaded [Sample.renamed]) _ _
           (op_update _ _ 0 VUndefined)
           (surjective_pairing
              (update Sample.moment_stub Sample.customer 0 VUndefined
                 (Sample.loaded [Sample.renamed])))).
Defined.

(** X7: Driver errors, for every operation of the gateway: an operation rejects
    with a driver error only when the pool failed the last statement the
    operation sent, and the error is the pool's, unchanged; and whenever the
    pool fails the last statement an operation sent, the operation rejects
    with that error, unless the statement is the schema query (whose failure
    [fetchMetadata] swallows). *)
Theorem driver_errors_surface (moment_format : value -> string) (dao : Dao)
    {A} (m : M A) (st : state) (r : outcome A) (st' : state) :
  operation moment_format dao m -> m st = (r, st') -> reports_driver dao st r st'.
Proof.
  intros O E. exact (proj2 (operations_orderly moment_format dao m O st r st' E)).
Qed.

Lemma driver_errors_surface_witness :
  fst (find Sample.failing_customer (Some Sample.active) None (initial_state []))
    = Rejected (DriverError Sample.refused).
Proof.
  destruct (driver_errors_surface Sample.moment_stub Sample.failing_customer
              (find Sample.failing_customer (Some Sample.active) None)
              (initial_state []) _ _
              (op_find _ _ (Some Sample.active) None)
              (surjective_pairing
                 (find Sample.failing_customer (Some Sample.active) None
                    (initial_state [])))) as [_ H].
  apply (H [("SHOW COLUMNS FROM customer;", [])]
           ("SELECT * FROM customer  WHERE status=? ORDER BY id ASC", [VStr "active"])).
  - reflexivity.
  - apply Nat.le_0_l.
  - discriminate.
  - reflexivity.
Defined.

(** *** The statements of the query operations *)

Lemma join_snoc_cons (sep x : string) (xs : list string) (t : string) :
  join sep ((x :: xs) ++ [t]) = join sep (x :: xs) +++ sep +++ t.
Proof.
  revert x. induction xs as [|y ys IH]; intros x; [reflexivity|].
  change ((x :: y :: ys) ++ [t]) with (x :: ((y :: ys) ++ [t])).
  change ((y :: ys) ++ [t]) with (y :: (ys ++ [t])) at 1.
  rewrite join_cons2. change (y :: (ys ++ [t])) with ((y :: ys) ++ [t]).
  rewrite IH, join_cons2. now rewrite !append_assoc.
Qed.

Lemma where_terms_nonempty (entries : list (key * value)) :
  Forall (fun x => x <> "") (map where_term entries).
Proof.
  apply Forall_forall. intros t Ht. apply in_map_iff in Ht.
  destruct Ht as (kv & <- & _). now apply append_nonempty_r.
Qed.

(** The loop of [find], [count], [updateMatching] and [deleteMatching] over
    a filter object. *)
Lemma where_fold (bool : string) (entries : list (key * value)) :
  forall (done : list (key * value)) (parms0 : list value),
    fold_left (where_step bool) entries (join bool (map where_term done), parms0)
      = (join bool (map where_term (done ++ entries)), parms0 ++ map snd entries).
Proof.
  induction entries as [|kv rest IH]; intros done parms0.
  - simpl. now rewrite !app_nil_r.
  - cbn [fold_left]. unfold where_step at 2.
    change (key_text (fst kv) +++ "=?") with (where_term kv).
    rewrite <- (join_snoc bool (map where_term done) (where_term kv)
                  (where_terms_nonempty done)).
    change (map where_term done ++ [where_term kv])
      with (map where_term done ++ map where_term [kv]).
    rewrite <- map_app, IH, <- !app_assoc. reflexivity.
Qed.

(** X9: [find] and [count] join one [key=?] per entry [_.each] visits in
    the query (the properties of a plain object, in property order), by
    [' AND '] or by [opts.booleanMode], and bind the values of the entries,
    null and empty ones included (the skip policy of the criteria builder is
    not applied). A query without entries, or no query, gets no WHERE
    clause. The text depends on the keys only, never on the values. *)
Theorem find_where_clause (dao : Dao) (md : option (list column_meta))
    (query : option obj) (opts : option query_opts) :
  let entries := each_entries_opt query in
  let where_ := join (boolean_of opts) (map where_term entries) in
  find_statement dao md query opts =
    (_appendOrderByAndLimit md
       (add_where ("SELECT " +++ whichcols opts +++ " FROM " +++ table dao +++ " ") where_)
       opts,
     map snd entries) /\
  count_statement dao md query opts =
    (_appendOrderByAndLimit md
       (add_where ("SELECT count(*) as count FROM " +++ table dao +++ " ") where_) opts,
     map snd entries) /\
  (entries = [] ->
   fst (find_statement dao md query opts) =
     _appendOrderByAndLimit md
       ("SELECT " +++ whichcols opts +++ " FROM " +++ table dao +++ " ") opts) /\
  (forall query',
     map fst (each_entries_opt query') = map fst entries ->
     fst (find_statement dao md query' opts) = fst (find_statement dao md query opts) /\
     fst (count_statement dao md query' opts) = fst (count_statement dao md query opts)).
Proof.
  cbv zeta.
  assert (F : forall q,
    find_statement dao md q opts =
      (_appendOrderByAndLimit md
         (add_where ("SELECT " +++ whichcols opts +++ " FROM " +++ table dao +++ " ")
            (join (boolean_of opts) (map where_term (each_entries_opt q)))) opts,
       map snd (each_entries_opt q))).
  { intros q. unfold find_statement.
    pose proof (where_fold (boolean_of opts) (each_entries_opt q) [] []) as W.
    simpl in W. now rewrite W. }
  assert (C : forall q,
    count_statement dao md q opts =
      (_appendOrderByAndLimit md
         (add_where ("SELECT count(*) as count FROM " +++ table dao +++ " ")
            (join (boolean_of opts) (map where_term (each_entries_opt q)))) opts,
       map snd (each_entries_opt q))).
  { intros q. unfold count_statement.
    pose proof (where_fold (boolean_of opts) (each_entries_opt q) [] []) as W.
    simpl in W. now rewrite W. }
  split; [apply F|]. split; [apply C|]. split.
  - intros E. rewrite F, E. reflexivity.
  - intros q' K. rewrite !F, !C. cbn [fst].
    assert (T : map where_term (each_entries_opt q') = map where_term (each_entries_opt query)).
    { unfold where_term.
      rewrite <- (map_map fst (fun k => key_text k +++ "=?")), K, map_map. reflexivity. }
    now rewrite T.
Qed.

Lemma find_where_clause_witness :
  fst (find_statement Sample.customer None (Some [("status", VNull); ("name", VStr "")]) None)
    = "SELECT * FROM customer  WHERE status=? AND name=?" /\
  fst (find_statement Sample.customer None (Some [("status", VNum 1); ("name", VNum 2)]) None)
    = "SELECT * FROM customer  WHERE status=? AND name=?".
Proof.
  destruct (find_where_clause Sample.customer None
              (Some [("status", VNull); ("name", VStr "")]) None) as (_ & _ & _ & H).
  destruct (H (Some [("status", VNum 1); ("name", VNum 2)]) eq_refl) as [H1 _].
  split; [reflexivity|]. rewrite H1. reflexivity.
Defined.

Lemma orderBy_loop_join (cols : list string) :
  forall (done : list string) (x : string),
    orderBy_loop (List.length (x :: done)) cols
      (" ORDER BY " +++ join ", " (map order_term (x :: done)))
    = " ORDER BY " +++ join ", " (map order_term ((x :: done) ++ cols)).
Proof.
  induction cols as [|c cols IH]; intros done x.
  - now rewrite app_nil_r.
  - cbn [orderBy_loop]. change (0 <? List.length (x :: done))%nat with true. cbv iota.
    assert (E : forall acc,
      (if startsWith c "-" then acc +++ substr1 c +++ " " +++ "DESC"
       else if startsWith c "+" then acc +++ substr1 c +++ " " +++ "ASC"
       else acc +++ c +++ " " +++ "ASC") = acc +++ order_term c).
    { intros acc. unfold order_term.
      destruct (startsWith c "-"); [reflexivity|]. now destruct (startsWith c "+"). }
    rewrite E.
    assert (R : ((" ORDER BY " +++ join ", " (map order_term (x :: done))) +++ ", ")
                  +++ order_term c
                = " ORDER BY " +++ join ", " (map order_term (x :: (done ++ [c])))).
    { change (x :: (done ++ [c])) with ((x :: done) ++ [c]).
      rewrite map_app. cbn [map]. rewrite join_snoc_cons. now rewrite !append_assoc. }
    rewrite R.
    replace (S (List.length (x :: done))) with (List.length (x :: (done ++ [c])))
      by (simpl; rewrite length_app; simpl; lia).
    rewrite IH. change (x :: (done ++ [c])) with ((x :: done) ++ [c]).
    now rewrite <- app_assoc.
Qed.

Lemma pk_order_loop_join (pks : list column_meta) :
  forall (done : list column_meta) (x : column_meta),
    pk_order_loop (List.length (x :: done)) pks
      (" ORDER BY " +++ join ", " (map pk_order_term (x :: done)))
    = " ORDER BY " +++ join ", " (map pk_order_term ((x :: done) ++ pks)).
Proof.
  induction pks as [|c pks IH]; intros done x.
  - now rewrite app_nil_r.
  - cbn [pk_order_loop]. change (0 <? List.length (x :: done))%nat with true. cbv iota.
    change (column c +++ " ASC") with (pk_order_term c).
    assert (R : ((" ORDER BY " +++ join ", " (map pk_order_term (x :: done))) +++ ", ")
                  +++ pk_order_term c
                = " ORDER BY " +++ join ", " (map pk_order_term (x :: (done ++ [c])))).
    { change (x :: (done ++ [c])) with ((x :: done) ++ [c]).
      rewrite map_app. cbn [map]. rewrite join_snoc_cons. now rewrite !append_assoc. }
    rewrite R.
    replace (S (List.length (x :: done))) with (List.length (x :: (done ++ [c])))
      by (simpl; rewrite length_app; simpl; lia).
    rewrite IH. change (x :: (done ++ [c])) with ((x :: done) ++ [c]).
    now rewrite <- app_assoc.
Qed.

Lemma primary_key_order_join (md : option (list column_meta)) :
  primary_key_order md =
    match filter_metadata md pk with
    | [] => ""
    | pks => " ORDER BY " +++ join ", " (map pk_order_term pks)
    end.
Proof.
  unfold primary_key_order. destruct (filter_metadata md pk) as [|c pks]; [reflexivity|].
  cbn [pk_order_loop]. change (0 <? 0)%nat with false. cbv iota.
  change (column c +++ " ASC") with (pk_order_term c).
  exact (pk_order_loop_join pks [] c).
Qed.

(** What [_appendOrderByAndLimit] appends when it is given an options
    object. *)
Lemma append_with_options (md : option (list column_meta)) (sql : string) (o : query_opts) :
  _appendOrderByAndLimit md sql (Some o) =
    (sql +++
     match orderBy o with
     | Some (c :: cs) => " ORDER BY " +++ join ", " (map order_term (c :: cs))
     | _ =>
         match filter_metadata md pk with
         | [] => ""
         | pks => " ORDER BY " +++ join ", " (map pk_order_term pks)
         end
     end) +++
    (if isNil (limit o) then " LIMIT 1000" else " LIMIT " +++ text_of (limit o)) +++
    (if isNil (offset o) then "" else " OFFSET " +++ text_of (offset o)).
Proof.
  rewrite <- primary_key_order_join.
  unfold _appendOrderByAndLimit. destruct o as [cs ob l f bm]. cbn [orderBy limit offset].
  assert (L : (if negb (isNil l) then " LIMIT " +++ text_of l else " LIMIT 1000")
              = (if isNil l then " LIMIT 1000" else " LIMIT " +++ text_of l)).
  { now destruct (isNil l). }
  assert (F : (if negb (isNil f) then " OFFSET " +++ text_of f else "")
              = (if isNil f then "" else " OFFSET " +++ text_of f)).
  { now destruct (isNil f). }
  rewrite L, F. f_equal.
  f_equal. destruct ob as [[|c cols]|]; try reflexivity.
  cbn [orderBy_loop]. change (0 <? 0)%nat with false. cbv iota.
  assert (E : (if startsWith c "-" then " ORDER BY " +++ substr1 c +++ " " +++ "DESC"
               else if startsWith c "+" then " ORDER BY " +++ substr1 c +++ " " +++ "ASC"
               else " ORDER BY " +++ c +++ " " +++ "ASC")
              = " ORDER BY " +++ join ", " (map order_term [c])).
  { unfold order_term. cbn [map join].
    destruct (startsWith c "-"); [reflexivity|]. now destruct (startsWith c "+"). }
  rewrite E. pose proof (orderBy_loop_join cols [] c) as J.
  cbn [List.length app] in J. rewrite J.
  destruct (String.eqb _ "") eqn:Q; [|reflexivity].
  apply String.eqb_eq in Q. discriminate.
Qed.



(** *** The metadata cache *)

(** X11: [fetchMetadata] never rejects, and the value it resolves with is the
    metadata as it was before the call: undefined on the call that loads
    it. With metadata loaded it does nothing at all. Without, it sends the
    schema query: the rows answered, none included, become the metadata,
    and the next call finds them; a failure is logged, leaves the metadata
    unloaded, and the next call sends the schema query again. *)
Theorem schema_loaded_once (dao : Dao) (st : state) :
  let st1 := snd (fetchMetadata dao st) in
  fst (fetchMetadata dao st) = Fulfilled (metadata st) /\
  (forall cols, metadata st = Some cols -> st1 = st) /\
  (forall items,
     metadata st = None ->
     pool dao (issued st) (show_columns dao, []) = inr (Rows items) ->
     metadata st1 = Some (map (column_of_item (dao_options dao)) items) /\
     issued st1 = issued st ++ [(show_columns dao, [])] /\
     console st1 = console st /\
     snd (fetchMetadata dao st1) = st1) /\
  (forall e,
     metadata st = None ->
     pool dao (issued st) (show_columns dao, []) = inl e ->
     metadata st1 = None /\
     console st1 = console st ++ ["Error. " +++ err_message e] /\
     issued (snd (fetchMetadata dao st1))
       = issued st ++ [(show_columns dao, []); (show_columns dao, [])]).
Proof.
  cbv zeta. split; [|split; [|split]].
  - unfold fetchMetadata, try_catch, bind, get_metadata, sqlCommand.
    destruct (metadata st) as [cols|]; simpl; [reflexivity|].
    destruct (pool dao (issued st) (show_columns dao, [])) as [e|[items|n i]]; reflexivity.
  - intros cols E. now rewrite (fetchMetadata_loaded dao st cols E).
  - intros items E P.
    assert (R : fetchMetadata dao st
                = (Fulfilled None,
                   {| metadata := Some (map (column_of_item (dao_options dao)) items);
                      heap := heap st;
                      issued := issued st ++ [(show_columns dao, [])];
                      console := console st |})).
    { unfold fetchMetadata, try_catch, bind, get_metadata, sqlCommand.
      rewrite E, P. reflexivity. }
    rewrite R. cbn [snd metadata issued console].
    repeat split.
  - intros e E P.
    assert (R : fetchMetadata dao st
                = (Fulfilled None,
                   {| metadata := None;
                      heap := heap st;
                      issued := issued st ++ [(show_columns dao, [])];
                      console := console st ++ ["Error. " +++ err_message e] |})).
    { unfold fetchMetadata, try_catch, bind, get_metadata, sqlCommand.
      rewrite E, P. simpl. now rewrite E. }
    rewrite R. cbn [snd metadata issued console].
    repeat split; try (rewrite fetchMetadata_issued; cbn [metadata issued];
                       now rewrite <- app_assoc).
Qed.

Lemma schema_loaded_once_witness :
  metadata (Sample.loaded []) <> None /\
  snd (fetchMetadata Sample.customer (Sample.loaded [])) = Sample.loaded [].
Proof.
  destruct (schema_loaded_once Sample.customer (initial_state [])) as (_ & _ & H & _).
  destruct (H Sample.customer_columns eq_refl eq_refl) as (M & _ & _ & S).
  split; [|exact S].
  unfold Sample.loaded. rewrite M. discriminate.
Defined.

(** *** Empty strings in typed columns *)

Section Blank.

Variable moment_format : value -> string.






End Blank.


(** *** Statements by primary key *)

(** X13: Whenever [update] sends its UPDATE, the WHERE clause is one [column=?]
    per primary-key column, joined by AND, bound to the entity's property of
    that name (undefined when the entity lacks it); for a table without a
    primary key the statement has no WHERE clause at all. When the pool
    acknowledges the statement, [update] fulfils with the entity it was
    given, and the only change to the caller's objects is the entity's
    [_affectedRows], set from the acknowledgement, zero included; when the
    pool fails it, [update] rejects with the pool's error and no object
    changes. *)
Theorem update_where_and_result (moment_format : value -> string) (dao : Dao)
    (save : ref) (opts : value) (st : state) :
  consistent dao st ->
  let st1 := snd (fetchMetadata dao st) in
  let cols := known_columns dao st in
  let o := nth save (heap st) [] in
  let pks := List.filter pk cols in
  let set := set_columns cols (each_entries o) in
  let sets := join ", " (map set_term set) +++ versioning (dao_options dao) in
  let sql := ("UPDATE " +++ table dao +++ " SET ") +++ sets in
  (forall r st',
     update moment_format dao save opts st = (r, st') ->
     issued st' <> issued st1 ->
     exists vals,
       let stmt := (add_where sql (join " AND " (map key_term pks)),
                    vals ++ map (fun c => prop o (column c)) pks) in
       List.length vals = List.length set /\
       issued st' = issued st1 ++ [stmt] /\
       match pool dao (issued st1) stmt with
       | inl d => r = Rejected (DriverError d) /\ heap st' = heap st
       | inr res =>
           r = Fulfilled save /\
           heap st' = replace_nth save (heap st)
                        (set_prop o "_affectedRows" (affected res))
       end) /\
  (pks = [] -> add_where sql (join " AND " (map key_term pks)) = sql).
Proof.
  intros C. cbv zeta.
  pose proof (fetchMetadata_consistent dao st C) as A.
  pose proof (update_fold moment_format (dao_options dao) (known_columns dao st) A
                (each_entries (nth save (heap st) [])) [] []) as Hfold.
  simpl in Hfold.
  split; [|now intros ->].
  intros r st'.
  unfold update, log_and_rethrow, try_catch, bind. run_fetch dao st.
  unfold get_metadata, deref. simpl.
  rewrite !filter_metadata_known, fetchMetadata_heap.
  destruct (fold_left _ _ _) as [e|[sets parms]].
  - simpl. intros [= <- <-] N. now destruct N.
  - destruct Hfold as (-> & vals & -> & Hlen). simpl.
    destruct (String.eqb _ "").
    + simpl. intros [= <- <-] N. now destruct N.
    + pose proof (pk_where_fold (nth save (heap st) [])
                    (List.filter pk (known_columns dao st)) [] vals) as W.
      simpl in W. rewrite W.
      unfold sqlCommand. destruct (pool dao _ _) as [d|res] eqn:P; simpl;
        intros [= <- <-] _; exists vals; (split; [exact Hlen|]); simpl;
        (split; [reflexivity|]); rewrite P; split; try reflexivity;
        try apply fetchMetadata_heap.
      now rewrite fetchMetadata_heap.
Qed.

Lemma update_where_and_result_witness :
  consistent Sample.customer (initial_state [Sample.renamed]) /\
  heap (snd (update Sample.moment_stub Sample.customer 0 VUndefined
               (initial_state [Sample.renamed])))
    = [[("id", VNum 5); ("name", VStr "Acme"); ("updated", VStr "2020-02-03");
        ("version", VNum 3); ("_affectedRows", VNum 1)]].
Proof.
  split; [apply initial_consistent|].
  destruct (update_where_and_result Sample.moment_stub Sample.customer 0 VUndefined
              (initial_state [Sample.renamed]) (initial_consistent _ _)) as [H _].
  destruct (H _ _ (surjective_pairing
                     (update Sample.moment_stub Sample.customer 0 VUndefined
                        (initial_state [Sample.renamed])))
              ltac:(discriminate)) as (vals & _ & I & R).
  apply app_inv_head in I.
  apply (f_equal (fun l : list statement =>
                    match l with
                    | [(_, ps)] => removelast ps
                    | _ => []
                    end)) in I.
  simpl in I. rewrite removelast_last in I.
  subst vals. exact (proj2 R).
Defined.

(** X14: [deleteOne] identifies the row by the primary key alone. On a table
    without a primary key it rejects with its error, sends no DELETE, and
    leaves the entity alone. Otherwise it sends one DELETE whose WHERE
    clause is one [column=?] per primary-key column, joined by AND, bound to
    the entity's properties of those names; the other properties of the
    entity play no part. When the pool acknowledges, [deleteOne] fulfils
    with the entity it was given, now carrying [_affectedRows]; when the
    pool fails, it rejects with the pool's error and no object changes. *)
Theorem deleteOne_by_primary_key (dao : Dao) (toDelete : ref) (st : state) :
  let st1 := snd (fetchMetadata dao st) in
  let o := nth toDelete (heap st) [] in
  let pks := List.filter pk (known_columns dao st) in
  let stmt := ((("DELETE FROM " +++ table dao) +++ " WHERE ")
                 +++ join " AND " (map key_term pks),
               map (fun c => prop o (column c)) pks) in
  (pks = [] ->
   exists st',
     deleteOne dao toDelete st
       = (Rejected (JsError Error
            "Could not generate WHERE clause for delete. No primary keys detected."), st') /\
     issued st' = issued st1 /\ heap st' = heap st) /\
  (pks <> [] ->
   exists r st',
     deleteOne dao toDelete st = (r, st') /\
     issued st' = issued st1 ++ [stmt] /\
     match pool dao (issued st1) stmt with
     | inl d => r = Rejected (DriverError d) /\ heap st' = heap st
     | inr res =>
         r = Fulfilled toDelete /\
         heap st' = replace_nth toDelete (heap st)
                      (set_prop o "_affectedRows" (affected res))
     end).
Proof.
  cbv zeta.
  pose proof (pk_where_fold (nth toDelete (heap st) [])
                (List.filter pk (known_columns dao st)) [] []) as W.
  simpl in W.
  split; intros Hpk;
    unfold deleteOne, log_and_rethrow, try_catch, bind; run_fetch dao st;
    unfold get_metadata, deref; simpl;
    rewrite !filter_metadata_known, fetchMetadata_heap, W.
  - rewrite Hpk. simpl. eexists. split; [reflexivity|]. simpl.
    split; [reflexivity|apply fetchMetadata_heap].
  - destruct (String.eqb _ "") eqn:Q.
    + apply String.eqb_eq in Q.
      apply (join_empty " AND " _ (key_terms_nonempty _)) in Q.
      apply map_eq_nil in Q. contradiction.
    + unfold sqlCommand. destruct (pool dao _ _) as [d|res] eqn:P; simpl;
        eexists; eexists; (split; [reflexivity|]); simpl;
        (split; [reflexivity|]); split; try reflexivity;
        try apply fetchMetadata_heap.
      now rewrite fetchMetadata_heap.
Qed.

Lemma deleteOne_by_primary_key_witness :
  issued (snd (deleteOne Sample.customer 0 (initial_state [Sample.renamed])))
    = [("SHOW COLUMNS FROM customer;", []);
       ("DELETE FROM customer WHERE id=?", [VNum 5])].
Proof.
  destruct (deleteOne_by_primary_key Sample.customer 0 (initial_state [Sample.renamed]))
    as [_ H].
  destruct (H ltac:(discriminate)) as (r & st' & E & I & _).
  rewrite E. exact I.
Defined.

(** *** Statements by criteria *)

Lemma set_prop_new (o : obj) (k : string) (v : value) :
  lookup k o = None -> set_prop o k v = o ++ [(k, v)].
Proof.
  induction o as [|[k' v'] o IH]; simpl; [reflexivity|].
  destruct (String.eqb k' k); [discriminate|]. intros H. now rewrite IH.
Qed.

Lemma lookup_app_other (o : obj) (k k' : string) (v : value) :
  k' <> k -> lookup k (o ++ [(k', v)]) = lookup k o.
Proof.
  intros N. induction o as [|[k0 v0] o IH]; simpl.
  - apply String.eqb_neq in N. now rewrite N.
  - now rewrite IH.
Qed.

Lemma each_entries_named (o : obj) :
  lookup "length" o = None -> each_entries o = named_entries o.
Proof. unfold each_entries. now intros ->. Qed.

Lemma lodash_isEmpty_some (c : obj) : c <> [] -> lodash_isEmpty (Some c) = false.
Proof. destruct c; [congruence|reflexivity]. Qed.

(** A run of [deleteMatching] on a criteria object with properties. *)
Lemma deleteMatching_run (dao : Dao) (r : ref) (st : state) :
  let c := nth r (heap st) [] in
  let st1 := snd (fetchMetadata dao st) in
  let stmt := ((("DELETE FROM " +++ table dao) +++ " WHERE ")
                 +++ join " AND " (map where_term (each_entries c)),
               map snd (each_entries c)) in
  c <> [] ->
  exists res st',
    deleteMatching dao (Some r) st = (res, st') /\
    issued st' = issued st1 ++ [stmt] /\
    match pool dao (issued st1) stmt with
    | inl d => res = Rejected (DriverError d) /\ heap st' = heap st
    | inr ack =>
        res = Fulfilled (Some r) /\
        heap st' = replace_nth r (heap st) (set_prop c "_affectedRows" (affected ack))
    end.
Proof.
  cbv zeta. intros N.
  unfold deleteMatching, log_and_rethrow, try_catch, deref_opt, bind, deref, ret.
  cbn [fst snd]. rewrite (lodash_isEmpty_some _ N).
  run_fetch dao st. cbn [each_entries_opt].
  pose proof (where_fold " AND " (each_entries (nth r (heap st) [])) [] []) as W.
  simpl in W. rewrite W.
  unfold sqlCommand. destruct (pool dao _ _) as [d|ack] eqn:P; simpl;
    eexists; eexists; (split; [reflexivity|]); simpl;
    (split; [reflexivity|]); split; try reflexivity;
    try apply fetchMetadata_heap.
  now rewrite fetchMetadata_heap.
Qed.

(** X15: [deleteMatching] sends one DELETE whose WHERE clause is one [key=?] per
    property of the criteria, joined by AND, and on success writes
    [_affectedRows] into the criteria object itself. A caller that uses the
    same object again therefore deletes by another condition: the second
    statement has the extra term [_affectedRows=?], bound to the count of
    the first. *)
Theorem deleteMatching_marks_criteria (dao : Dao) (r : ref) (st : state) :
  let c := nth r (heap st) [] in
  let st1 := snd (fetchMetadata dao st) in
  let sql := ("DELETE FROM " +++ table dao) +++ " WHERE " in
  let stmt := (sql +++ join " AND " (map where_term (named_entries c)), map snd c) in
  r < List.length (heap st) ->
  c <> [] ->
  lookup "length" c = None ->
  lookup "_affectedRows" c = None ->
  forall n id,
    pool dao (issued st1) stmt = inr (OkPacket n id) ->
    exists st',
      deleteMatching dao (Some r) st = (Fulfilled (Some r), st') /\
      issued st' = issued st1 ++ [stmt] /\
      nth r (heap st') [] = c ++ [("_affectedRows", VNum n)] /\
      issued (snd (deleteMatching dao (Some r) st'))
        = issued (snd (fetchMetadata dao st')) ++
          [(sql +++ join " AND "
                      (map where_term
                         (named_entries c ++ [(KName "_affectedRows", VNum n)])),
            map snd c ++ [VNum n])].
Proof.
  cbv zeta. intros Hr N L A n id P.
  destruct (deleteMatching_run dao r st N) as (res & st' & E & I & R).
  rewrite (each_entries_named _ L) in *.
  assert (S : map snd (named_entries (nth r (heap st) [])) = map snd (nth r (heap st) [])).
  { unfold named_entries. now rewrite map_map. }
  rewrite S in *. rewrite P in R. destruct R as [-> H].
  exists st'. split; [exact E|]. split; [exact I|].
  assert (C' : nth r (heap st') [] = nth r (heap st) [] ++ [("_affectedRows", VNum n)]).
  { rewrite H, (nth_replace_nth _ _ _ _ Hr). now apply set_prop_new. }
  split; [exact C'|].
  assert (N' : nth r (heap st') [] <> []).
  { rewrite C'. now destruct (nth r (heap st) []). }
  destruct (deleteMatching_run dao r st' N') as (res2 & st2 & E2 & I2 & _).
  rewrite E2. cbn [snd]. rewrite I2.
  assert (L' : lookup "length" (nth r (heap st') []) = None).
  { rewrite C', lookup_app_other; [exact L|discriminate]. }
  rewrite (each_entries_named _ L'), C'.
  unfold named_entries. rewrite !map_app, !map_map. reflexivity.
Qed.

Lemma deleteMatching_marks_criteria_witness :
  issued (snd (deleteMatching Sample.customer (Some 0)
                 (snd (deleteMatching Sample.customer (Some 0)
                         (Sample.loaded [Sample.active])))))
    = [("SHOW COLUMNS FROM customer;", []);
       ("DELETE FROM customer WHERE status=?", [VStr "active"]);
       ("DELETE FROM customer WHERE status=? AND _affectedRows=?",
        [VStr "active"; VNum 1])].
Proof.
  destruct (deleteMatching_marks_criteria Sample.customer 0 (Sample.loaded [Sample.active])
              (Nat.lt_0_succ 0) ltac:(discriminate) eq_refl eq_refl 1%Z (Some 42%Z) eq_refl)
    as (st' & E & I & _ & I2).
  pose proof (f_equal snd E) as S. cbn [snd] in S. subst st'.
  etransitivity; [exact I2|reflexivity].
Defined.



(** *** from *)

Lemma lookup_set_prop (x : obj) (k k' : string) (v : value) :
  lookup k' (set_prop x k v) = if String.eqb k k' then Some v else lookup k' x.
Proof.
  induction x as [|[k0 v0] x IH]; simpl; [reflexivity|].
  destruct (String.eqb k0 k) eqn:E0; simpl.
  - apply String.eqb_eq in E0. subst k0. now destruct (String.eqb k k').
  - rewrite IH. destruct (String.eqb k0 k') eqn:E1; [|reflexivity].
    apply String.eqb_eq in E1. subst k0. now rewrite String.eqb_sym, E0.
Qed.

(** The loop of [from] over the columns. *)
Lemma from_fold (ob : obj) (cols : list column_meta) :
  forall x : obj,
    exists x',
      fold_left (from_step (Some ob)) cols (inr x) = inr x' /\
      forall k,
        lookup k x' =
          if existsb (String.eqb k) (map column cols) && kept (prop ob k)
          then Some (prop ob k) else lookup k x.
Proof.
  induction cols as [|c cols IH]; intros x.
  - exists x. now split.
  - cbn [fold_left]. unfold from_step at 2.
    set (x1 := match prop ob (column c) with
               | VUndefined | VArr _ => x
               | _ => set_prop x (column c) (prop ob (column c))
               end).
    assert (S : match prop ob (column c) with
                | VUndefined | VArr _ => inr x
                | _ => inr (set_prop x (column c) (prop ob (column c)))
                end = @inr exn obj x1).
    { unfold x1. now destruct (prop ob (column c)). }
    rewrite S. destruct (IH x1) as (x' & F & L). exists x'. split; [exact F|].
    intros k. rewrite L. cbn [map existsb].
    assert (L1 : lookup k x1 =
                 if String.eqb k (column c) && kept (prop ob k)
                 then Some (prop ob k) else lookup k x).
    { unfold x1. destruct (String.eqb k (column c)) eqn:E.
      - apply String.eqb_eq in E. subst k.
        destruct (prop ob (column c)); simpl; try reflexivity;
          now rewrite lookup_set_prop, String.eqb_refl.
      - rewrite String.eqb_sym in E.
        destruct (prop ob (column c)); simpl; try reflexivity;
          now rewrite lookup_set_prop, E. }
    rewrite L1.
    destruct (String.eqb k (column c)), (existsb (String.eqb k) (map column cols)),
      (kept (prop ob k)); reflexivity.
Qed.

(** X17: [from(obj)] fulfils with a new object that has exactly the properties
    of [obj] that name a column of the table and whose value is neither
    undefined nor an array, with the values of [obj], null included; the
    argument is not changed and no statement but the schema query is sent.
    Applying [from] to its result gives the same properties again. When the
    metadata could not be loaded, [from] rejects with a TypeError. *)
Theorem from_keeps_columns (dao : Dao) (o : obj) (st : state) :
  let st1 := snd (fetchMetadata dao st) in
  (forall cols,
     metadata st1 = Some cols ->
     exists x,
       from_ dao (Some o) st = (Fulfilled x, st1) /\
       (forall k,
          lookup k x =
            if existsb (String.eqb k) (map column cols) && kept (prop o k)
            then Some (prop o k) else None) /\
       exists x2,
         from_ dao (Some x) st1 = (Fulfilled x2, st1) /\
         forall k, lookup k x2 = lookup k x) /\
  (metadata st1 = None ->
   exists msg, from_ dao (Some o) st = (Rejected (JsError TypeError msg), st1)).
Proof.
  cbv zeta. split.
  - intros cols M.
    destruct (from_fold o cols []) as (x & F & L).
    exists x. split; [|split].
    + unfold from_, bind. run_fetch dao st. unfold get_metadata. rewrite M.
      unfold lift, obj in *. now rewrite F.
    + intros k. now rewrite L.
    + destruct (from_fold x cols []) as (x2 & F2 & L2).
      exists x2. split.
      * unfold from_, bind. rewrite (fetchMetadata_loaded dao _ cols M).
        unfold get_metadata. rewrite M. unfold lift, obj in *. now rewrite F2.
      * intros k. rewrite L2. unfold prop at 1 2. rewrite !L.
        destruct (existsb (String.eqb k) (map column cols)), (kept (prop o k)) eqn:K;
          simpl; try reflexivity.
        now rewrite K.
  - intros M. unfold from_, bind. run_fetch dao st. unfold get_metadata. rewrite M.
    now eexists.
Qed.

Lemma from_keeps_columns_witness :
  fst (from_ Sample.customer
         (Some [("name", VNull); ("status", VArr []); ("role", VStr "admin");
                ("id", VNum 5)])
         (initial_state []))
    = Fulfilled [("id", VNum 5); ("name", VNull)].
Proof.
  destruct (from_keeps_columns Sample.customer
              [("name", VNull); ("status", VArr []); ("role", VStr "admin"); ("id", VNum 5)]
              (initial_state [])) as [H _].
  destruct (H _ eq_refl) as (x & E & _).
  reflexivity.
Defined.

(** *** The constructor *)

Lemma substring_all (s : string) : String.substring 0 (String.length s) s = s.
Proof. induction s as [|c s IH]; simpl; [reflexivity|now rewrite IH]. Qed.

Lemma substring_prefix (s t : string) :
  String.substring 0 (String.length s) (s +++ t) = s.
Proof.
  induction s as [|c s IH]; simpl; [now destruct t|now rewrite IH].
Qed.

Lemma substring_suffix (s t : string) :
  String.substring (String.length s) (String.length t) (s +++ t) = t.
Proof. induction s as [|c s IH]; simpl; [apply substring_all|exact IH]. Qed.

Lemma substring_split (s : string) :
  forall k, k <= String.length s ->
    s = String.substring 0 k s +++ String.substring k (String.length s - k) s.
Proof.
  induction s as [|c s IH]; intros [|k] H; simpl in *; try lia; try reflexivity.
  - now rewrite substring_all.
  - rewrite <- IH by lia. reflexivity.
Qed.

(** [s.endsWith(t)] holds exactly when [s] is some text followed by [t]. *)
Lemma endsWith_app (s t : string) : endsWith (s +++ t) t = true.
Proof.
  unfold endsWith. rewrite CriteriaMore.length_append.
  replace (String.length s + String.length t - String.length t) with (String.length s)
    by lia.
  rewrite substring_suffix, String.eqb_refl, andb_true_r.
  apply Nat.leb_le. lia.
Qed.

Lemma endsWith_inv (s t : string) :
  endsWith s t = true -> exists p, s = p +++ t.
Proof.
  unfold endsWith. intros H. apply andb_prop in H. destruct H as [L E].
  apply Nat.leb_le in L. apply String.eqb_eq in E.
  exists (String.substring 0 (String.length s - String.length t) s).
  pose proof (substring_split s (String.length s - String.length t)
                (Nat.le_sub_l _ _)) as Sp.
  replace (String.length s - (String.length s - String.length t))
    with (String.length t) in Sp by lia.
  now rewrite E in Sp.
Qed.

Lemma append_snoc_inj (p q : string) (c d : ascii) :
  p +++ String c "" = q +++ String d "" -> p = q /\ c = d.
Proof.
  revert q. induction p as [|x p IH]; intros [|y q]; simpl; intros H.
  - now injection H as ->.
  - injection H as _ H. now destruct q.
  - injection H as _ H. now destruct p.
  - injection H as -> H. destruct (IH q H) as [-> ->]. now split.
Qed.

Lemma drop_last_snoc (stem : string) (c : ascii) :
  drop_last (stem +++ String c "") = stem.
Proof.
  unfold drop_last. rewrite CriteriaMore.length_append. cbn [String.length].
  replace (String.length stem + 1 - 1) with (String.length stem) by lia.
  apply substring_prefix.
Qed.

(** X18: The plural the constructor derives when the options give none (no
    options object, or one without [plural]), by the last letters of the
    entity name: [...ey] gets an [s]; any other [...y] becomes [...ies];
    [...s] loses its [s] and gets [es] (so [address] gives [addreses]);
    every other name gets an [s]. A plural given in the options is taken as
    it is. The table, the entity name and the pool are stored unchanged,
    and so is the options object when there is one. *)
Theorem plural_by_ending (table_ stem : string) (opts : option options) (pool_ : Pool) :
  (forall o, opts = Some o -> plural_option o = None) ->
  plural (new_Dao table_ (stem +++ "ey") opts pool_) = stem +++ "eys" /\
  (endsWith stem "e" = false ->
   plural (new_Dao table_ (stem +++ "y") opts pool_) = stem +++ "ies") /\
  plural (new_Dao table_ (stem +++ "s") opts pool_) = stem +++ "es" /\
  (endsWith stem "y" = false -> endsWith stem "s" = false ->
   plural (new_Dao table_ stem opts pool_) = stem +++ "s") /\
  (forall o p,
     plural_option o = Some p ->
     plural (new_Dao table_ stem (Some o) pool_) = p) /\
  (forall any,
     table (new_Dao table_ stem any pool_) = table_ /\
     entity (new_Dao table_ stem any pool_) = stem /\
     pool (new_Dao table_ stem any pool_) = pool_ /\
     dao_options (new_Dao table_ stem any pool_)
       = match any with Some o => o | None => default_options end).
Proof.
  intros NP.
  assert (D : forall e,
            plural (new_Dao table_ e opts pool_)
              = (if endsWith e "ey" then e +++ "s"
                 else if endsWith e "y" then drop_last e +++ "ies"
                 else if endsWith e "s" then drop_last e +++ "es"
                 else e +++ "s")).
  { intros e. unfold new_Dao. cbn [plural]. destruct opts as [o|]; [|reflexivity].
    specialize (NP o eq_refl). destruct o. cbn in NP. now rewrite NP. }
  assert (EY : forall s, endsWith (s +++ "y") "ey" = endsWith s "e").
  { intros s. destruct (endsWith s "e") eqn:E.
    - apply endsWith_inv in E. destruct E as [p ->].
      rewrite append_assoc. apply (endsWith_app p "ey").
    - destruct (endsWith (s +++ "y") "ey") eqn:E'; [|reflexivity].
      apply endsWith_inv in E'. destruct E' as [p E'].
      change "ey" with ("e" +++ "y") in E'. rewrite <- append_assoc in E'.
      apply append_snoc_inj in E'. destruct E' as [-> _].
      now rewrite endsWith_app in E. }
  assert (NE : forall s (c d : ascii) t, c <> d ->
                 endsWith (s +++ String c "") (t +++ String d "") = false).
  { intros s c d t N. destruct (endsWith _ _) eqn:E; [|reflexivity].
    apply endsWith_inv in E. destruct E as [p E]. rewrite <- append_assoc in E.
    apply append_snoc_inj in E. now destruct E as [_ ->]. }
  split; [|split; [|split; [|split; [|split]]]].
  - rewrite D, (endsWith_app stem "ey"). now rewrite append_assoc.
  - intros E. rewrite D, EY, E, (endsWith_app stem "y"). now rewrite drop_last_snoc.
  - rewrite D.
    assert (N1 : endsWith (stem +++ "s") "ey" = false)
      by (apply (NE stem "s"%char "y"%char "e"); discriminate).
    assert (N2 : endsWith (stem +++ "s") "y" = false)
      by (apply (NE stem "s"%char "y"%char ""); discriminate).
    rewrite N1, N2.
    rewrite (endsWith_app stem "s"). now rewrite drop_last_snoc.
  - intros Y S. rewrite D.
    destruct (endsWith stem "ey") eqn:E; [reflexivity|]. now rewrite Y, S.
  - intros o p H. unfold new_Dao. cbn [plural]. destruct o. cbn in H. now rewrite H.
  - intros any. now repeat split.
Qed.

Lemma plural_by_ending_witness :
  plural (new_Dao "companies" "company" None Sample.healthy_pool) = "companies" /\
  plural (new_Dao "addresses" "address"
            (Some (mkOptions None None None None None)) Sample.healthy_pool)
    = "addreses" /\
  plural (new_Dao "boxes" "box"
            (Some (mkOptions None None None None None)) Sample.healthy_pool)
    = "boxs".
Proof.
  destruct (plural_by_ending "companies" "compan" None Sample.healthy_pool
              ltac:(discriminate)) as (_ & H & _).
  assert (NP : forall o, Some (mkOptions None None None None None) = Some o ->
                         plural_option o = None).
  { now intros o [= <-]. }
  destruct (plural_by_ending "addresses" "addres" _ Sample.healthy_pool NP)
    as (_ & _ & H' & _).
  destruct (plural_by_ending "boxes" "box" _ Sample.healthy_pool NP)
    as (_ & _ & _ & H'' & _).
  split; [exact (H eq_refl)|]. split; [exact H'|exact (H'' eq_refl eq_refl)].
Defined.

(** *** save *)

Lemma lookup_keys_none (o : obj) (k : string) (pks : list column_meta) :
  ~ In k (map column pks) ->
  lookup k (map (fun c => (column c, prop o (column c))) pks) = None.
Proof.
  induction pks as [|c pks IH]; simpl; [reflexivity|]. intros N.
  destruct (String.eqb (column c) k) eqn:E.
  - apply String.eqb_eq in E. destruct N. now left.
  - apply IH. intros H. apply N. now right.
Qed.

Lemma lookup_app_none (a b : obj) (k : string) :
  lookup k a = None -> lookup k (a ++ b) = lookup k b.
Proof.
  induction a as [|[k' v'] a IH]; simpl; [reflexivity|].
  destruct (String.eqb k' k); [discriminate|exact IH].
Qed.

(** The query object [save] builds from the primary-key columns. *)
Lemma query_of_keys (o : obj) (pks : list column_meta) :
  NoDup (map column pks) ->
  forall q0 : obj,
    (forall c, In c pks -> lookup (column c) q0 = None) ->
    fold_left (fun q col => set_prop q (column col) (prop o (column col))) pks q0
      = q0 ++ map (fun c => (column c, prop o (column c))) pks.
Proof.
  induction pks as [|c pks IH]; intros D q0 H; simpl; [now rewrite app_nil_r|].
  inversion D as [|? ? Hc D']; subst.
  rewrite (set_prop_new q0 _ _ (H c (or_introl eq_refl))).
  rewrite (IH D'), <- app_assoc; [reflexivity|].
  intros c' Hc'. rewrite lookup_app_none by (apply H; now right).
  simpl. destruct (String.eqb (column c) (column c')) eqn:E; [|reflexivity].
  apply String.eqb_eq in E. destruct Hc. rewrite E. now apply in_map.
Qed.

(** The lookup [save] sends. *)
Lemma save_lookup_statement (dao : Dao) (cols : list column_meta) (o : obj) :
  let pks := List.filter pk cols in
  NoDup (map column pks) -> ~ In "length" (map column pks) ->
  find_statement dao (Some cols)
    (Some (fold_left (fun q col => set_prop q (column col) (prop o (column col))) pks []))
    None
  = (add_where ("SELECT * FROM " +++ table dao +++ " ") (join " AND " (map key_term pks))
       +++ primary_key_order (Some cols),
     map (fun c => prop o (column c)) pks).
Proof.
  cbv zeta. intros D L.
  rewrite (query_of_keys o _ D []) by reflexivity. cbn [app].
  unfold find_statement. cbn [each_entries_opt boolean_of whichcols].
  rewrite (each_entries_named _ (lookup_keys_none o "length" _ L)).
  pose proof (where_fold " AND "
                (named_entries (map (fun c => (column c, prop o (column c)))
                                  (List.filter pk cols))) [] []) as W.
  simpl in W. rewrite W.
  unfold named_entries. rewrite !map_map. cbn [fst snd].
  now rewrite append_without_options.
Qed.

(** X19: [save] is a lookup by primary key followed by [create] or [update]. On
    a gateway with its metadata loaded, for a table whose primary-key
    columns have distinct names (none of them [length]): [save] first sends
    one SELECT whose WHERE clause is one [column=?] per primary-key column,
    bound to the entity's properties of those names. When the pool fails
    it, [save] rejects with the pool's error and nothing is written. When
    the pool answers without a row, [save] goes on exactly as [create]
    does; with a row, exactly as [update] does. *)
Theorem save_looks_up_first (moment_format : value -> string) (dao : Dao)
    (save_ : ref) (opts : value) (st : state) (cols : list column_meta) :
  metadata st = Some cols ->
  let o := nth save_ (heap st) [] in
  let pks := List.filter pk cols in
  let lookup_ :=
    (add_where ("SELECT * FROM " +++ table dao +++ " ") (join " AND " (map key_term pks))
       +++ primary_key_order (Some cols),
     map (fun c => prop o (column c)) pks) in
  let st2 := {| metadata := Some cols; heap := heap st;
                issued := issued st ++ [lookup_]; console := console st |} in
  NoDup (map column pks) -> ~ In "length" (map column pks) ->
  match pool dao (issued st) lookup_ with
  | inl d =>
      exists st',
        save moment_format dao save_ opts st = (Rejected (DriverError d), st') /\
        issued st' = issued st ++ [lookup_] /\ heap st' = heap st
  | inr res =>
      save moment_format dao save_ opts st =
        match first_row res with
        | None => create moment_format dao save_ opts st2
        | Some _ => update moment_format dao save_ opts st2
        end
  end.
Proof.
  intros M. cbv zeta. intros D L.
  pose proof (save_lookup_statement dao cols (nth save_ (heap st) []) D L) as Q.
  cbv zeta in Q.
  destruct (pool dao (issued st) _) as [d|res] eqn:P;
    [eexists|];
    unfold save, one, find; unfold bind at 1; unfold log_and_rethrow at 1;
    unfold try_catch at 1; unfold bind at 1;
    rewrite (fetchMetadata_loaded dao st cols M);
    unfold bind at 1; unfold get_metadata at 1; rewrite M;
    unfold bind at 1; unfold deref at 1; cbn [filter_metadata];
    unfold log_and_rethrow at 1; unfold try_catch at 1; unfold bind at 1;
    unfold log_and_rethrow at 1; unfold try_catch at 1; unfold bind at 1;
    rewrite (fetchMetadata_loaded dao st cols M);
    unfold bind at 1; unfold get_metadata at 1; rewrite M, Q;
    unfold sqlCommand at 1; rewrite M, P.
  - simpl. split; [reflexivity|]. now split.
  - simpl. now destruct (first_row res).
Qed.

Lemma save_looks_up_first_witness :
  issued (snd (save Sample.moment_stub Sample.customer 0 VUndefined
                 (Sample.loaded [Sample.renamed])))
    = [("SHOW COLUMNS FROM customer;", []);
       ("SELECT * FROM customer  WHERE id=? ORDER BY id ASC", [VNum 5]);
       ("UPDATE customer SET name=?, updated=CURRENT_TIMESTAMP, version=version+1 WHERE id=?",
        [VStr "Acme"; VNum 5])].
Proof.
  assert (D : NoDup (map column
                       (List.filter pk (map (column_of_item default_options)
                                          Sample.customer_columns)))).
  { repeat constructor. intros []. }
  assert (L : ~ In "length"
                (map column (List.filter pk (map (column_of_item default_options)
                                               Sample.customer_columns)))).
  { intros [H|[]]. discriminate. }
  pose proof (save_looks_up_first Sample.moment_stub Sample.customer 0 VUndefined
                (Sample.loaded [Sample.renamed]) _ eq_refl D L) as H.
  cbv zeta in H.
  etransitivity; [exact (f_equal (fun p => issued (snd p)) H)|reflexivity].
Defined.

(** *** Rows by id, and the query operations side by side *)

Lemma observed_log {A} (dao : Dao) (name : string) (body : M A) (st : state) :
  observed (log_and_rethrow dao name body st) = observed (body st).
Proof.
  unfold observed, log_and_rethrow, try_catch.
  now destruct (body st) as [[a|e] st'].
Qed.

(** X20: [get] and [delete] address the row by a column literally named [id],
    whatever the primary key of the table is and whether or not the
    metadata could be loaded. The outcome is the pool's: [get] fulfils with
    the first row answered, or with null when there is none; [delete]
    fulfils with an object holding the [affectedRows] of the
    acknowledgement, zero included; each rejects only with the pool's error
    for its statement. *)
Theorem get_and_delete_by_id (dao : Dao) (id : value) (opts : option query_opts)
    (st : state) :
  let st1 := snd (fetchMetadata dao st) in
  let select_ :=
    ("SELECT " +++ whichcols opts +++ " FROM " +++ table dao +++ " WHERE id = ?", [id]) in
  let delete_ := (("DELETE FROM " +++ table dao) +++ " WHERE id = ?", [id]) in
  observed (get dao id opts st)
    = (match pool dao (issued st1) select_ with
       | inl d => Rejected (DriverError d)
       | inr res => Fulfilled (first_row res)
       end,
       issued st1 ++ [select_], heap st, metadata st1) /\
  observed (delete dao id st)
    = (match pool dao (issued st1) delete_ with
       | inl d => Rejected (DriverError d)
       | inr res => Fulfilled [("_affectedRows", affected res)]
       end,
       issued st1 ++ [delete_], heap st, metadata st1) /\
  (pool dao (issued st1) select_ = inr (Rows []) ->
   fst (get dao id opts st) = Fulfilled None) /\
  (forall i, pool dao (issued st1) delete_ = inr (OkPacket 0 i) ->
   fst (delete dao id st) = Fulfilled [("_affectedRows", VNum 0)]).
Proof.
  cbv zeta.
  assert (G : observed (get dao id opts st)
    = (match pool dao (issued (snd (fetchMetadata dao st)))
               ("SELECT " +++ whichcols opts +++ " FROM " +++ table dao +++ " WHERE id = ?",
                [id]) with
       | inl d => Rejected (DriverError d)
       | inr res => Fulfilled (first_row res)
       end,
       issued (snd (fetchMetadata dao st)) ++
         [("SELECT " +++ whichcols opts +++ " FROM " +++ table dao +++ " WHERE id = ?", [id])],
       heap st, metadata (snd (fetchMetadata dao st)))).
  { unfold get. rewrite observed_log. unfold observed, bind. run_fetch dao st.
    unfold sqlCommand. cbn [snd].
    destruct (pool dao _ _) as [d|res]; simpl; now rewrite fetchMetadata_heap. }
  assert (D : observed (delete dao id st)
    = (match pool dao (issued (snd (fetchMetadata dao st)))
               (("DELETE FROM " +++ table dao) +++ " WHERE id = ?", [id]) with
       | inl d => Rejected (DriverError d)
       | inr res => Fulfilled [("_affectedRows", affected res)]
       end,
       issued (snd (fetchMetadata dao st)) ++
         [(("DELETE FROM " +++ table dao) +++ " WHERE id = ?", [id])],
       heap st, metadata (snd (fetchMetadata dao st)))).
  { clear G. unfold delete. rewrite observed_log. unfold observed, bind. run_fetch dao st.
    unfold sqlCommand. simpl.
    destruct (pool dao _ _) as [d|res]; simpl; now rewrite fetchMetadata_heap. }
  split; [exact G|]. split; [exact D|]. split.
  - intros P. apply (f_equal (fun t => fst (fst (fst t)))) in G. cbn [fst observed] in G.
    now rewrite G, P.
  - intros i P. apply (f_equal (fun t => fst (fst (fst t)))) in D. cbn [fst observed] in D.
    now rewrite D, P.
Qed.

Lemma get_and_delete_by_id_witness :
  fst (delete Sample.customer (VNum 9) (initial_state [])) = Fulfilled [("_affectedRows", VNum 1)] /\
  fst (get Sample.failing_customer (VNum 9) None (initial_state []))
    = Rejected (DriverError Sample.refused).
Proof.
  destruct (get_and_delete_by_id Sample.customer (VNum 9) None (initial_state []))
    as (_ & D & _).
  destruct (get_and_delete_by_id Sample.failing_customer (VNum 9) None (initial_state []))
    as (G & _).
  split.
  - exact (f_equal (fun t => fst (fst (fst t))) D).
  - exact (f_equal (fun t => fst (fst (fst t))) G).
Defined.

(** X21: The query operations agree where their arguments meet. [all(opts)],
    [find] without a query or with a query without properties,
    [selectWhere] without a WHERE text or with an empty one, and [select]
    with the bare SELECT text all send the same statement with no
    parameters and end the same way, in every state. Only the console line
    written on a failure names the operation. *)
Theorem query_operations_agree (dao : Dao) (opts : option query_opts) (st : state) :
  observed (find dao None opts st) = observed (all dao opts st) /\
  observed (find dao (Some []) opts st) = observed (all dao opts st) /\
  observed (selectWhere dao None [] opts st) = observed (all dao opts st) /\
  observed (selectWhere dao (Some "") [] opts st) = observed (all dao opts st) /\
  observed (select dao ("SELECT " +++ whichcols opts +++ " FROM " +++ table dao +++ " ")
              [] opts st)
    = observed (all dao opts st).
Proof.
  split; [|split; [|split; [|split]]];
    unfold find, all, selectWhere, select; rewrite !observed_log; reflexivity.
Qed.

End GatewayMore.

(** ** The criteria builder and the gateway together *)

Module Composition.
Import Gateway GatewayFacts.

Lemma placeholders_uint (d : Decimal.uint) :
  placeholders (NilEmpty.string_of_uint d) = 0.
Proof. induction d; simpl; assumption || reflexivity. Qed.

(** The decimal text of a number holds no placeholder. *)
Lemma placeholders_of_Z (n : Z) : placeholders (of_Z n) = 0.
Proof.
  unfold of_Z, NilZero.string_of_int, NilZero.string_of_uint.
  destruct (Z.to_int n) as [d|d]; destruct d; simpl; try reflexivity;
    apply placeholders_uint.
Qed.

Lemma placeholders_join (sep : string) (xs : list string) :
  placeholders sep = 0 -> Forall (fun s => placeholders s = 0) xs ->
  placeholders (join sep xs) = 0.
Proof.
  intros S F. induction F as [|x xs Hx F IH]; [reflexivity|].
  destruct xs as [|y ys]; [exact Hx|].
  rewrite join_cons2, !placeholders_app, Hx, S, IH. reflexivity.
Qed.

Lemma placeholders_substr1 (s : string) : placeholders s = 0 -> placeholders (substr1 s) = 0.
Proof.
  destruct s as [|c s]; simpl; [trivial|]. destruct (Ascii.eqb c "?"); [discriminate|trivial].
Qed.

Lemma placeholders_order_term (c : string) :
  placeholders c = 0 -> placeholders (order_term c) = 0.
Proof.
  intros H. unfold order_term.
  destruct (startsWith c "-"); [|destruct (startsWith c "+")];
    rewrite placeholders_app, ?placeholders_substr1, ?H; trivial.
Qed.

Lemma Forall_map_zero {A} (f : A -> string) (g : A -> string) (xs : list A) :
  (forall x, placeholders (f x) = 0 -> placeholders (g x) = 0) ->
  Forall (fun s => placeholders s = 0) (map f xs) ->
  Forall (fun s => placeholders s = 0) (map g xs).
Proof.
  intros H F. induction xs as [|x xs IH]; [constructor|].
  inversion F; subst. constructor; auto.
Qed.

(** The order and limit clauses add the question marks of the limit and
    offset texts, and no other, when the names spliced hold none. *)
Lemma placeholders_append (md : option (list column_meta)) (sql : string)
    (opts : option query_opts) :
  Forall (fun s => placeholders s = 0)
    (match opts with
     | Some {| orderBy := Some os |} => os
     | _ => []
     end) ->
  Forall (fun s => placeholders s = 0) (map column (filter_metadata md pk)) ->
  placeholders (_appendOrderByAndLimit md sql opts)
    = placeholders sql + placeholders (limit_text opts) + placeholders (offset_text opts).
Proof.
  intros Ho Hp.
  assert (P : placeholders (primary_key_order md) = 0).
  { rewrite GatewayMore.primary_key_order_join.
    destruct (filter_metadata md pk) as [|c pks] eqn:E; [reflexivity|].
    rewrite placeholders_app. apply placeholders_join; [reflexivity|].
    apply (Forall_map_zero column); [|exact Hp].
    intros x Hx. unfold pk_order_term. now rewrite placeholders_app, Hx. }
  destruct opts as [o|].
  - rewrite GatewayMore.append_with_options, <- GatewayMore.primary_key_order_join.
    rewrite !placeholders_app.
    assert (O : placeholders
                  (match orderBy o with
                   | Some (c :: cs) => " ORDER BY " +++ join ", " (map order_term (c :: cs))
                   | _ => primary_key_order md
                   end) = 0).
    { destruct o as [cs [[|c os]|] l f bm]; cbn [orderBy] in *; try exact P.
      rewrite placeholders_app. apply placeholders_join; [reflexivity|].
      rewrite <- (map_id (c :: os)) in Ho.
      apply (Forall_map_zero (fun x => x)); [|exact Ho].
      intros x. apply placeholders_order_term. }
    rewrite O. unfold limit_text, offset_text.
    destruct (isNil (limit o)), (isNil (offset o)); cbn [negb];
      rewrite ?placeholders_app; simpl; lia.
  - rewrite append_without_options, placeholders_app, P. simpl. lia.
Qed.

(** The statement [selectWhere] sends. *)
Lemma selectWhere_issued (dao : Dao) (where_ : option string) (parms : list value)
    (opts : option query_opts) (st : state) :
  let st1 := snd (fetchMetadata dao st) in
  let sql := "SELECT " +++ whichcols opts +++ " FROM " +++ table dao +++ " " in
  issued (snd (selectWhere dao where_ parms opts st))
    = issued st1 ++
      [(_appendOrderByAndLimit (metadata st1)
          (match where_ with Some w => add_where sql w | None => sql end) opts, parms)].
Proof.
  cbv zeta. unfold selectWhere, log_and_rethrow, try_catch, bind. run_fetch dao st.
  unfold get_metadata, sqlCommand. simpl.
  destruct (pool dao _ _) as [d|res]; reflexivity.
Qed.

(** X22: A clause built with the criteria builder and handed to
    [selectWhere], as the Express adapter does with the options it read
    from the request. When no name spliced into the text holds a question
    mark (column names, operators and connectives of the builder calls, the
    table, the columns selected and ordered by, the primary-key columns),
    the one statement [selectWhere] sends has as many placeholders as it
    has parameters, plus the question marks in the texts of [opts.limit]
    and [opts.offset], which are spliced as they are. So placeholders and
    parameters match exactly when limit and offset hold no question mark:
    always for numbers, and for a string only if it has none. Numbers given
    as limit or offset are of magnitude below 10^21. *)
Theorem criteria_statement_is_bound (dao : Dao) (copts : value)
    (calls : list Criteria.call) (opts : option query_opts) (st : state) :
  let st1 := snd (fetchMetadata dao st) in
  let h := Criteria.chain (Criteria.constructor copts) calls in
  Forall Criteria.plain calls ->
  Forall (fun s => placeholders s = 0) (spliced_names dao (metadata st1) opts) ->
  decimal_opts opts = true ->
  exists sql,
    issued (snd (selectWhere dao (Some (Criteria.whereClause h)) (Criteria.parms h) opts st))
      = issued st1 ++ [(sql, Criteria.parms h)] /\
    placeholders sql
      = List.length (Criteria.parms h)
        + placeholders (limit_text opts) + placeholders (offset_text opts) /\
    (placeholders sql = List.length (Criteria.parms h) <->
     placeholders (limit_text opts) = 0 /\ placeholders (offset_text opts) = 0) /\
    (forall n, placeholders (text_of (VNum n)) = 0).
Proof.
  cbv zeta. intros P N _.
  eexists. split; [apply selectWhere_issued|].
  destruct (CriteriaFacts.constructor_truthy copts) as [HN HE].
  destruct (CriteriaFacts.chain_appends calls (Criteria.constructor copts) P HN HE)
    as (text & W & Q & C & _).
  simpl in W, Q. rewrite W, Q, <- C.
  unfold spliced_names in N. apply Forall_cons_iff in N. destruct N as [Ht N'].
  apply Forall_app in N'. destruct N' as [Hc N'].
  apply Forall_app in N'. destruct N' as [Ho Hp].
  rewrite (placeholders_append _ _ _ Ho Hp).
  assert (S : placeholders ("SELECT " +++ whichcols opts +++ " FROM " +++ table dao +++ " ")
              = 0).
  { rewrite !placeholders_app, Ht.
    assert (Wc : placeholders (whichcols opts) = 0).
    { unfold whichcols. destruct opts as [[[cs|] ob l f bm]|]; try reflexivity.
      now apply placeholders_join. }
    now rewrite Wc. }
  assert (A : placeholders
                (add_where ("SELECT " +++ whichcols opts +++ " FROM " +++ table dao +++ " ")
                   text) = placeholders text).
  { unfold add_where. destruct (String.eqb text "") eqn:E; cbn [negb].
    - apply String.eqb_eq in E. rewrite E. exact S.
    - rewrite (placeholders_app (_ +++ " WHERE ") text), (placeholders_app _ " WHERE "), S.
      reflexivity. }
  rewrite A. split; [reflexivity|]. split; [lia|].
  intros n. apply placeholders_of_Z.
Qed.

Lemma criteria_statement_is_bound_witness :
  Forall Criteria.plain Sample.mixed_calls /\
  exists sql,
    issued (snd (selectWhere Sample.customer
                   (Some (Criteria.whereClause
                            (Criteria.chain (Criteria.constructor VUndefined)
                               Sample.mixed_calls)))
                   (Criteria.parms
                      (Criteria.chain (Criteria.constructor VUndefined) Sample.mixed_calls))
                   (Some Sample.odd_limit) (initial_state [])))
      = [("SHOW COLUMNS FROM customer;", []);
         (sql, [VStr "active"; VStr "Chi%"; VArr [VNum 1; VNum 2]; VNum 0])] /\
    placeholders sql = 5.
Proof.
  assert (P : Forall Criteria.plain Sample.mixed_calls).
  { repeat constructor. }
  split; [exact P|].
  destruct (criteria_statement_is_bound Sample.customer VUndefined Sample.mixed_calls
              (Some Sample.odd_limit) (initial_state []) P ltac:(repeat constructor)
              eq_refl) as (sql & I & C & _).
  exists sql. split; [exact I|exact C].
Defined.

End Composition.
